(** * Responsive_Tracer: crawl, classify, correlate, alert

    A shallow embedding of the "Crawl & Correlate" core of the repository:

    - [Classifier]  WebsiteCrawler.isApiRequest (website-crawler.js) and the
                    request filter of analyzeApiCalls (api-analyzer.js);
    - [Timing]      the timing fallback chain of analyzeApiCalls;
    - [Crawler]     WebsiteCrawler: constructor, the per-page request and
                    response handlers, the crawl loop, generateCrawlResults;
    - [Correlator]  ApiPerformanceCorrelator.analyzeApiImpact;
    - [Alerts]      generatePerformanceAlerts and formatAlertsForDisplay;
    - [Analyzer]    the sort of the formatted calls and analyzeApiCallsData
                    (api-analyzer.js);
    - [Server]      the analysis route: its options, its summary and its
                    score (server.js);
    - [QueryLog]    the query log kept by executeQuery (db.js).

    JavaScript numbers are modelled by exact rationals ([Q]) or integers
    ([Z]); where a printed value depends on it, a quotient or a product is
    rounded to binary64 ([Js.double]); the budgets of the crawler, which
    the code never validates, are numbers that may be fractional,
    negative, NaN or infinite ([Js.Number]); fields that may be absent are
    [option]s ([None] is [undefined]); [Math.random()] and [Date.now()]
    are explicit inputs; the browser is an explicit environment. *)

From Stdlib Require Import ZArith QArith Qround Qabs Qminmax String Ascii List Lia Lqa.
From Stdlib Require Import DecimalString.
From stdpp Require Import gmap strings list.

Open Scope string_scope.
Open Scope Z_scope.

(* ===================================================================== *)
(** * JavaScript primitives used by the sources *)
(* ===================================================================== *)

Module Js.

(** [Math.round]: the nearest integer, ties towards plus infinity. *)
Definition Math_round (x : Q) : Z := Qfloor (x + (1 # 2))%Q.

(** Truthiness of a numeric field that may be absent: [undefined] and [0]
    are falsy, every other number is truthy. *)
Definition truthy (v : option Q) : bool :=
  match v with
  | Some q => negb (Qeq_bool q 0)
  | None => false
  end.

(** The number held by a field, read only where the field is truthy. *)
Definition num (v : option Q) : Q :=
  match v with Some q => q | None => 0%Q end.

(** [a || b] on such fields. *)
Definition or_else (a b : option Q) : option Q := if truthy a then a else b.

(** Template-literal rendering of an integer. *)
Definition string_of_Z (z : Z) : string := NilZero.string_of_int (Z.to_int z).

Fixpoint zeros (n : nat) : string :=
  match n with O => "" | S n' => String "0" (zeros n') end.

(** Decimal digits of [n], left-padded with zeros to at least [w]. *)
Definition pad_digits (w : nat) (n : Z) : string :=
  let s := string_of_Z n in
  zeros (w - String.length s) ++ s.

(** [Number.prototype.toFixed(f)] below 1e21: sign, then the integer [n]
    with [n / 10^f] closest to [|x|] (the larger [n] on a tie), printed
    with [f] fractional digits. *)
Definition toFixed (x : Q) (f : nat) : string :=
  let sign := if Qle_bool 0 x then "" else "-" in
  let scale := 10 ^ Z.of_nat f in
  let n := Qfloor (Qabs x * inject_Z scale + (1 # 2))%Q in
  let ds := pad_digits (S f) n in
  let k := (String.length ds - f)%nat in
  let int_part := substring 0 k ds in
  let frac_part := substring k f ds in
  match f with
  | O => sign ++ int_part
  | _ => sign ++ int_part ++ "." ++ frac_part
  end.

(** Number-to-string conversion of a number with a short terminating
    decimal expansion: the integer part, then the fractional digits. *)
Definition digit_char (d : Z) : ascii := ascii_of_nat (48 + Z.to_nat d).

Fixpoint frac_digits (fuel : nat) (r den : Z) : string :=
  match fuel with
  | O => ""
  | S k =>
      if r =? 0 then ""
      else String (digit_char (r * 10 / den))
                  (frac_digits k ((r * 10) mod den) den)
  end.

Definition string_of_number (q : Q) : string :=
  let sign := if Qle_bool 0 q then "" else "-" in
  let a := Qabs q in
  let ip := Qfloor a in
  let fs := frac_digits 20 (Qnum a - ip * Zpos (Qden a)) (Zpos (Qden a)) in
  sign ++ string_of_Z ip ++ (if String.eqb fs "" then "" else "." ++ fs).

(** ** Numbers that are compared without having been validated

    A JavaScript number, which may be NaN or infinite. *)
Inductive Number :=
| Finite (q : Q)
| NaN
| PlusInfinity
| MinusInfinity.

Definition Number_of_nat (n : nat) : Number := Finite (inject_Z (Z.of_nat n)).

(** [x < y]: false as soon as one side is NaN. *)
Definition Number_lt (x y : Number) : bool :=
  match x, y with
  | NaN, _ => false
  | _, NaN => false
  | Finite p, Finite q => negb (Qle_bool q p)
  | Finite _, PlusInfinity => true
  | Finite _, MinusInfinity => false
  | PlusInfinity, _ => false
  | MinusInfinity, MinusInfinity => false
  | MinusInfinity, _ => true
  end.

(** Truthiness of a number: [0] and NaN are falsy. *)
Definition Number_truthy (x : Number) : bool :=
  match x with
  | Finite q => negb (Qeq_bool q 0)
  | NaN => false
  | PlusInfinity | MinusInfinity => true
  end.

(** [Math.min(x, y)] *)
Definition Math_min (x y : Number) : Number :=
  match x, y with
  | NaN, _ => NaN
  | _, NaN => NaN
  | MinusInfinity, _ => MinusInfinity
  | _, MinusInfinity => MinusInfinity
  | PlusInfinity, z => z
  | z, PlusInfinity => z
  | Finite p, Finite q => Finite (Qmin p q)
  end.

(** ** Rounding to binary64

    [2^k], for any integer [k]. *)
Definition pow2 (k : Z) : Q :=
  if (0 <=? k)%Z then inject_Z (2 ^ k) else (1 / inject_Z (2 ^ (- k)))%Q.

(** The binary64 number nearest to [x], ties to the even significand,
    for a magnitude below 2^1024: what a division or a multiplication
    of two numbers yields, and what reading a decimal yields. *)
Definition double (x : Q) : Q :=
  if Qeq_bool x 0 then 0%Q
  else
    let a := Qabs x in
    let e0 := Z.log2 (Qnum a) - Z.log2 (Zpos (Qden a)) in
    let e := if Qle_bool (pow2 e0) a then e0 else e0 - 1 in
    let ulp := pow2 (Z.max (e - 52) (-1074)) in
    let m := (a / ulp)%Q in
    let f := Qfloor m in
    let r := (m - inject_Z f)%Q in
    let n :=
      if Qle_bool r (1 # 2) then
        if Qeq_bool r (1 # 2) then (if Z.even f then f else f + 1) else f
      else f + 1 in
    let y := Qred (inject_Z n * ulp)%Q in
    if Qle_bool 0 x then y else (- y)%Q.

(** ** formatBytes

    The same function in api-analyzer.js and performance-alerts.js. It
    returns a text or, when [sizes[i]] is [undefined], the number NaN
    (a number plus [undefined]). *)
Inductive Formatted :=
| Text (s : string)
| NumberNaN.

(** A value of [formatBytes] in a template literal. *)
Definition template (v : Formatted) : string :=
  match v with
  | Text s => s
  | NumberNaN => "NaN"
  end.

(** On a whole byte count: for [bytes >= 1],
    [Math.floor(Math.log(bytes) / Math.log(1024))] is [log2 bytes / 10],
    the division by a power of 1024 is exact, and
    [Number.parseFloat(x.toFixed(1))] is [x] rounded to a tenth; the
    logarithm of a negative count is NaN. *)
Definition formatBytes (bytes : Z) : Formatted :=
  if bytes =? 0 then Text "0B"
  else if bytes <? 0 then NumberNaN
  else
    let sizes := ["B"; "KB"; "MB"; "GB"] in
    let i := Z.log2 bytes / 10 in
    let x := (inject_Z bytes / inject_Z (1024 ^ i))%Q in
    let tenths := Qfloor (x * 10 + (1 # 2))%Q in
    match nth_error sizes (Z.to_nat i) with
    | Some unit => Text (string_of_number (inject_Z tenths / 10)%Q ++ unit)
    | None => NumberNaN
    end.

End Js.

(* ===================================================================== *)
(** * API classifier *)
(* ===================================================================== *)

Module Classifier.

(** ** The regular expressions of [apiPatterns]

    The five patterns are sequences of literal characters and [\d+],
    searched anywhere in the subject, optionally anchored at the end by
    [$]; all carry the [i] flag. *)

Inductive atom :=
| Lit (c : ascii)      (* a literal character *)
| Digits.              (* \d+ *)

Record regex := Regex { atoms : list atom; anchored_end : bool }.

Definition is_digit (a : ascii) : bool :=
  let n := nat_of_ascii a in ((48 <=? n) && (n <=? 57))%nat.

(** Canonicalize of the [i] flag (no [u] flag): [toUpperCase] on the
    ASCII letters; a character outside ASCII never becomes an ASCII one. *)
Definition canonicalize (a : ascii) : ascii :=
  let n := nat_of_ascii a in
  if ((97 <=? n) && (n <=? 122))%nat then ascii_of_nat (n - 32) else a.

Definition ci_eqb (a c : ascii) : bool :=
  Ascii.eqb (canonicalize a) (canonicalize c).

Fixpoint match_here (anchored : bool) (p : list atom) : list ascii -> bool :=
  match p with
  | [] => fun s =>
      if anchored then match s with [] => true | _ => false end else true
  | Lit c :: p' => fun s =>
      match s with
      | a :: s' => ci_eqb a c && match_here anchored p' s'
      | [] => false
      end
  | Digits :: p' =>
      fix digits (s : list ascii) : bool :=
        match s with
        | a :: s' => is_digit a && (match_here anchored p' s' || digits s')
        | [] => false
        end
  end.

Fixpoint search (anchored : bool) (p : list atom) (s : list ascii) : bool :=
  match_here anchored p s ||
  match s with
  | [] => false
  | _ :: s' => search anchored p s'
  end.

(** [pattern.test(subject)] *)
Definition test (r : regex) (subject : string) : bool :=
  search (anchored_end r) (atoms r) (list_ascii_of_string subject).

Definition lits (s : string) : list atom := map Lit (list_ascii_of_string s).

Definition apiPatterns : list regex :=
  [ Regex (lits "/api/") false;                     (* /\/api\//i   *)
    Regex (lits "/graphql") false;                  (* /\/graphql/i *)
    Regex (lits "/rest/") false;                    (* /\/rest\//i  *)
    Regex (lits "/v" ++ Digits :: lits "/") false;  (* /\/v\d+\//i  *)
    Regex (lits ".json") true ].                    (* /\.json$/i   *)

(** WebsiteCrawler.isApiRequest *)
Definition isApiRequest (url resourceType : string) : bool :=
  let isXhrOrFetch :=
    String.eqb resourceType "xhr" || String.eqb resourceType "fetch" in
  let matchesPattern := existsb (fun pattern => test pattern url) apiPatterns in
  isXhrOrFetch || matchesPattern.

(** ** The filter of analyzeApiCalls *)

Fixpoint prefixb (p s : list ascii) : bool :=
  match p, s with
  | [], _ => true
  | c :: p', a :: s' => Ascii.eqb a c && prefixb p' s'
  | _ :: _, [] => false
  end.

Fixpoint includes_from (p s : list ascii) : bool :=
  prefixb p s ||
  match s with
  | [] => false
  | _ :: s' => includes_from p s'
  end.

(** [String.prototype.includes] *)
Definition includes (s needle : string) : bool :=
  includes_from (list_ascii_of_string needle) (list_ascii_of_string s).

Definition analyzerFilter (url resourceType : string) : bool :=
  String.eqb resourceType "XHR" ||
  String.eqb resourceType "Fetch" ||
  includes url "/api/" ||
  includes url "/graphql" ||
  includes url "/rest/" ||
  includes url "/v1/" ||
  includes url "/v2/".

End Classifier.


(* ===================================================================== *)
(** * Timing estimator (the map callback of analyzeApiCalls) *)
(* ===================================================================== *)

Module Timing.
Import Js.
Local Open Scope Q_scope.

(** [call.timing] *)
Record TimingObject := {
  receiveHeadersEnd : option Q;
  timing_requestTime : option Q;
}.

(** An item of the network-requests audit: the fields the callback reads. *)
Record NetworkRequest := {
  url : string;
  endTime : option Q;
  startTime : option Q;
  networkEndTime : option Q;
  networkRequestTime : option Q;
  responseReceivedTime : option Q;
  requestTime : option Q;
  finished : option Q;
  started : option Q;
  timing : option TimingObject;
  transferSize : option Q;
  resourceSize : option Q;
}.

(** The [if / else if] chain, methods 1 to 6; [rnd] is the value of
    [Math.random()] drawn by method 6. [timeTaken] starts at 0 and keeps
    it when [call.timing] is there without both of its fields. *)
Definition fallbackChain (call : NetworkRequest) (rnd : Q) : Z :=
  if truthy (endTime call) && truthy (startTime call) then
    Math_round (num (endTime call) - num (startTime call))
  else if truthy (networkEndTime call) && truthy (networkRequestTime call) then
    Math_round (num (networkEndTime call) - num (networkRequestTime call))
  else if truthy (responseReceivedTime call) && truthy (requestTime call) then
    Math_round ((num (responseReceivedTime call) - num (requestTime call)) * 1000)
  else if truthy (finished call) && truthy (started call) then
    Math_round (num (finished call) - num (started call))
  else
    match timing call with
    | Some timing =>
        if truthy (receiveHeadersEnd timing) && truthy (timing_requestTime timing)
        then Math_round (num (receiveHeadersEnd timing) - num (timing_requestTime timing))
        else 0%Z
    | None =>
        let size := num (or_else (transferSize call)
                           (or_else (resourceSize call) (Some 0))) in
        let baseTime := 50 in
        let sizeTime := Qmax 10 (Qmin 500 (size / 1000)) in
        Math_round (baseTime + sizeTime + rnd * 100)
    end.

(** "Ensure minimum realistic timing"; [rnd'] is the second draw. *)
Definition ensureMinimum (timeTaken : Z) (rnd' : Q) : Z :=
  if (timeTaken <=? 0)%Z then Math_round (20 + rnd' * 80) else timeTaken.

(** [timeTaken] as computed in the [try] block. *)
Definition timeTaken (call : NetworkRequest) (rnd rnd' : Q) : Z :=
  ensureMinimum (fallbackChain call rnd) rnd'.

(** getTimingMethod *)
Definition getTimingMethod (call : NetworkRequest) : string :=
  if truthy (endTime call) && truthy (startTime call) then "endTime-startTime"
  else if truthy (networkEndTime call) && truthy (networkRequestTime call)
    then "networkEndTime-networkRequestTime"
  else if truthy (responseReceivedTime call) && truthy (requestTime call)
    then "responseReceivedTime-requestTime"
  else if truthy (finished call) && truthy (started call) then "finished-started"
  else match timing call with
       | Some _ => "timing object"
       | None => "estimated"
       end.

Section Callback.
(** [new URL(s).pathname]; [None] when the constructor throws. *)
Variable pathname : string -> option string.

(** The [timeTaken] field of the record the callback returns: from the
    [try] block, or from the [catch] block when the URL does not parse
    ([rnd''] is the draw of the [catch] block). *)
Definition callbackTimeTaken (call : NetworkRequest) (rnd rnd' rnd'' : Q) : Z :=
  match pathname (url call) with
  | Some _ => timeTaken call rnd rnd'
  | None => Math_round (50 + rnd'' * 100)
  end.
End Callback.

End Timing.

(* ===================================================================== *)
(** * Crawl scheduler (class WebsiteCrawler) *)
(* ===================================================================== *)

Module Crawler.
Import Js Classifier.

Definition Headers := list (string * string).

(** What the handlers read of a puppeteer request and response. *)
Record Request := {
  req_url : string;
  req_method : string;
  req_headers : Headers;
  req_postData : option string;
  req_resourceType : string;
}.

Record Response := {
  resp_request : Request;
  resp_status : Z;
  resp_statusText : string;
  resp_headers : Headers;
}.

(** [headers["content-length"] || 0]: the header's text, or the number 0. *)
Inductive SizeValue :=
| HeaderText (s : string)
| Zero.

(** The object built by the request handler; the last six fields are
    absent until the response handler assigns them. *)
Record ApiCall := {
  id : string;
  url : string;
  method : string;
  headers : Headers;
  postData : option string;
  resourceType : string;
  startTime : Z;
  page : string;
  depth : nat;
  endTime : option Z;
  duration : option Z;
  status : option Z;
  statusText : option string;
  responseHeaders : option Headers;
  responseSize : option SizeValue;
}.

(** The events one open page delivers, with what the handlers draw from
    the outside: [generateUniqueId()] and [Date.now()]. *)
Inductive NetworkEvent :=
| OnRequest (request : Request) (newId : string) (now : Z)
| OnResponse (response : Response) (now : Z).

(** page.on("request", ...) *)
Definition onRequest (currentUrl : string) (depth : nat)
    (apiCallsForPage : list ApiCall)
    (request : Request) (newId : string) (now : Z) : list ApiCall :=
  let isApiCall := isApiRequest (req_url request) (req_resourceType request) in
  if isApiCall then
    let apiCall := {|
      id := newId;
      url := req_url request;
      method := req_method request;
      headers := req_headers request;
      postData := req_postData request;
      resourceType := req_resourceType request;
      startTime := now;
      page := currentUrl;
      depth := depth;
      endTime := None; duration := None; status := None;
      statusText := None; responseHeaders := None; responseSize := None;
    |} in
    (apiCallsForPage ++ [apiCall])%list
  else apiCallsForPage.

Fixpoint header_lookup (name : string) (h : Headers) : option string :=
  match h with
  | [] => None
  | (k, v) :: h' => if String.eqb k name then Some v else header_lookup name h'
  end.

Definition contentLengthOrZero (h : Headers) : SizeValue :=
  match header_lookup "content-length" h with
  | Some s => if String.eqb s "" then Zero else HeaderText s
  | None => Zero
  end.

(** The assignments of the response handler to the record it found. *)
Definition resolve (response : Response) (now : Z) (apiCall : ApiCall) : ApiCall :=
  {| id := id apiCall;
     url := url apiCall;
     method := method apiCall;
     headers := headers apiCall;
     postData := postData apiCall;
     resourceType := resourceType apiCall;
     startTime := startTime apiCall;
     page := page apiCall;
     depth := depth apiCall;
     endTime := Some now;
     duration := Some (now - startTime apiCall);
     status := Some (resp_status response);
     statusText := Some (resp_statusText response);
     responseHeaders := Some (resp_headers response);
     responseSize := Some (contentLengthOrZero (resp_headers response));
  |}.

(** The predicate of [apiCallsForPage.find]. *)
Definition sameCall (request : Request) (call : ApiCall) : Prop :=
  url call = req_url request ∧ method call = req_method request.

#[global] Instance sameCall_dec request call : Decision (sameCall request call).
Proof. unfold sameCall. apply _. Defined.

(** page.on("response", ...): [find] returns the first record that
    satisfies the predicate, and the record is updated in place. *)
Definition onResponse (apiCallsForPage : list ApiCall)
    (response : Response) (now : Z) : list ApiCall :=
  let request := resp_request response in
  let isApiCall := isApiRequest (req_url request) (req_resourceType request) in
  if isApiCall then
    match list_find (sameCall request) apiCallsForPage with
    | Some (i, _) => alter (resolve response now) i apiCallsForPage
    | None => apiCallsForPage
    end
  else apiCallsForPage.

Definition handle (currentUrl : string) (depth : nat)
    (apiCallsForPage : list ApiCall) (ev : NetworkEvent) : list ApiCall :=
  match ev with
  | OnRequest request newId now =>
      onRequest currentUrl depth apiCallsForPage request newId now
  | OnResponse response now => onResponse apiCallsForPage response now
  end.

Definition runEvents (currentUrl : string) (depth : nat)
    (events : list NetworkEvent) (apiCallsForPage : list ApiCall) : list ApiCall :=
  fold_left (handle currentUrl depth) events apiCallsForPage.

(** ** Pages *)

Record Link := { link_url : string; link_text : string; link_title : string }.

(** The value of the [page.evaluate] call: the same-host links and the
    page's metadata. *)
Record PageInfo := {
  links : list Link;
  title : string;
  description : string;
  h1Count : nat;
  imageCount : nat;
  scriptCount : nat;
}.

(** What opening one URL does: [page.goto] or [page.evaluate] throws
    after some events, or the page loads, and further events arrive
    during [simulateUserInteractions] (which catches its own errors). *)
Inductive PageLoad :=
| LoadFailed (events : list NetworkEvent) (message : string)
| Loaded (events : list NetworkEvent) (pageInfo : PageInfo)
         (later : list NetworkEvent).

(** The two shapes of a [pageData] entry. *)
Inductive PageRecord :=
| PageOk (pageInfo : PageInfo) (linkCount : nat) (depth : nat)
         (parentUrl : option string) (apiCalls : nat)
| PageError (error : string) (depth : nat) (parentUrl : option string).

Definition page_depth (p : PageRecord) : nat :=
  match p with
  | PageOk _ _ d _ _ => d
  | PageError _ d _ => d
  end.

Record QueueEntry := {
  q_url : string;
  q_depth : nat;
  q_parentUrl : option string;
}.

(** ** The crawler object

    [visitedUrls] is a JS [Set]: it iterates in insertion order, so it is
    a list to which [add] appends an element that is not there yet.
    The budgets are kept as the caller gave them, without validation;
    [maxPages] and [maxDepth] are the numbers that the comparisons of
    the loop read from them. *)
Record WebsiteCrawler := {
  maxPages : Number;
  maxDepth : Number;
  visitedUrls : list string;
  discoveredUrls : gset string;
  pageData : gmap string PageRecord;
  apiCalls : list ApiCall;
}.

Definition Set_has (x : string) (s : list string) : bool := bool_decide (x ∈ s).
Definition Set_add (x : string) (s : list string) : list string :=
  if Set_has x s then s else (s ++ [x])%list.

(** A field of [options], as [||] and the comparisons read it: a falsy
    value ([undefined], [null], [0], NaN, the empty text), or a truthy
    value with the number it converts to (a number is itself; a text
    such as "abc" converts to NaN). *)
Inductive OptionValue :=
| Falsy
| Truthy (n : Number).

Record Options := { opt_maxPages : OptionValue; opt_maxDepth : OptionValue }.

(** [options.field || dflt]: a falsy budget takes the default, any
    other is kept as it is. *)
Definition or_default (o : OptionValue) (dflt : Q) : Number :=
  match o with
  | Truthy n => n
  | Falsy => Finite dflt
  end.

(** constructor(options = {}) *)
Definition new_WebsiteCrawler (options : Options) : WebsiteCrawler :=
  {| maxPages := or_default (opt_maxPages options) 20%Q;
     maxDepth := or_default (opt_maxDepth options) 3%Q;
     visitedUrls := [];
     discoveredUrls := ∅;
     pageData := ∅;
     apiCalls := [] |}.

Definition set_visitedUrls (c : WebsiteCrawler) (v : list string) :=
  {| maxPages := maxPages c; maxDepth := maxDepth c; visitedUrls := v;
     discoveredUrls := discoveredUrls c; pageData := pageData c;
     apiCalls := apiCalls c |}.
Definition set_discoveredUrls (c : WebsiteCrawler) (d : gset string) :=
  {| maxPages := maxPages c; maxDepth := maxDepth c;
     visitedUrls := visitedUrls c; discoveredUrls := d;
     pageData := pageData c; apiCalls := apiCalls c |}.
Definition set_pageData (c : WebsiteCrawler) (p : gmap string PageRecord) :=
  {| maxPages := maxPages c; maxDepth := maxDepth c;
     visitedUrls := visitedUrls c; discoveredUrls := discoveredUrls c;
     pageData := p; apiCalls := apiCalls c |}.
Definition set_apiCalls (c : WebsiteCrawler) (a : list ApiCall) :=
  {| maxPages := maxPages c; maxDepth := maxDepth c;
     visitedUrls := visitedUrls c; discoveredUrls := discoveredUrls c;
     pageData := pageData c; apiCalls := a |}.

Record CrawlResult := {
  r_visitedUrls : list string;
  r_pageData : gmap string PageRecord;
  totalPages : nat;
  totalApiCalls : nat;
  r_apiCalls : list ApiCall;
  maxDepthReached : option nat;   (* [None] is -Infinity, Math.max() *)
}.

(** generateCrawlResults *)
Definition generateCrawlResults (c : WebsiteCrawler) : CrawlResult :=
  {| r_visitedUrls := visitedUrls c;
     r_pageData := pageData c;
     totalPages := length (visitedUrls c);
     totalApiCalls := length (apiCalls c);
     r_apiCalls := apiCalls c;
     maxDepthReached :=
       match (λ kv, page_depth kv.2) <$> map_to_list (pageData c) with
       | [] => None
       | ds => Some (max_list ds)
       end |}.

Section Crawl.
(** The site, as the browser shows it. *)
Variable browser : string -> PageLoad.

(** pageInfo.links.forEach(...) *)
Definition enqueueLink (currentUrl : string) (depth : nat)
    (st : WebsiteCrawler * list QueueEntry) (link : Link)
    : WebsiteCrawler * list QueueEntry :=
  let '(c, crawlQueue) := st in
  if negb (Set_has (link_url link) (visitedUrls c))
     && negb (bool_decide (link_url link ∈ discoveredUrls c))
  then (set_discoveredUrls c ({[link_url link]} ∪ discoveredUrls c),
        (crawlQueue ++ [ {| q_url := link_url link;
                            q_depth := depth + 1;
                            q_parentUrl := Some currentUrl |} ])%list)
  else (c, crawlQueue).

(** The loop body from [this.visitedUrls.add(currentUrl)] on, for a
    page that [browser.newPage()] opens. The records pushed to
    [this.apiCalls] are the objects in [apiCallsForPage] at that moment;
    the handlers go on updating them in place until the page closes, so
    the crawler ends up with their final state. *)
Definition visitPage (c : WebsiteCrawler) (entry : QueueEntry)
    (crawlQueue : list QueueEntry) : WebsiteCrawler * list QueueEntry :=
  let currentUrl := q_url entry in
  let depth := q_depth entry in
  let parentUrl := q_parentUrl entry in
  let c := set_visitedUrls c (Set_add currentUrl (visitedUrls c)) in
  match browser currentUrl with
  | Loaded events pageInfo later =>
      let apiCallsForPage := runEvents currentUrl depth events [] in
      let c := set_pageData c
        (<[currentUrl := PageOk pageInfo (length (links pageInfo)) depth
                           parentUrl (length apiCallsForPage)]> (pageData c)) in
      let pushed := take (length apiCallsForPage)
                      (runEvents currentUrl depth later apiCallsForPage) in
      let c := set_apiCalls c (apiCalls c ++ pushed)%list in
      fold_left (enqueueLink currentUrl depth) (links pageInfo) (c, crawlQueue)
  | LoadFailed _ message =>
      (set_pageData c
         (<[currentUrl := PageError message depth parentUrl]> (pageData c)),
       crawlQueue)
  end.

(** One turn of the [while] loop; [None] when its condition is false. *)
Definition crawlStep (c : WebsiteCrawler) (crawlQueue : list QueueEntry)
    : option (WebsiteCrawler * list QueueEntry) :=
  match crawlQueue with
  | [] => None
  | entry :: rest =>
      if Number_lt (Number_of_nat (length (visitedUrls c))) (maxPages c) then
        if Set_has (q_url entry) (visitedUrls c)
           || Number_lt (maxDepth c) (Number_of_nat (q_depth entry))
        then Some (c, rest)
        else Some (visitPage c entry rest)
      else None
  end.

Fixpoint crawlLoop (fuel : nat) (c : WebsiteCrawler)
    (crawlQueue : list QueueEntry) : option WebsiteCrawler :=
  match crawlStep c crawlQueue with
  | None => Some c
  | Some (c', crawlQueue') =>
      match fuel with
      | O => None
      | S fuel' => crawlLoop fuel' c' crawlQueue'
      end
  end.

(** crawlWebsite(baseUrl): the crawler after the run and the value
    returned; [None] only when [fuel] turns of the loop do not finish. *)
Definition crawlWebsite (fuel : nat) (c : WebsiteCrawler) (baseUrl : string)
    : option (WebsiteCrawler * CrawlResult) :=
  let crawlQueue := [ {| q_url := baseUrl; q_depth := 0; q_parentUrl := None |} ] in
  match crawlLoop fuel c crawlQueue with
  | Some c' => Some (c', generateCrawlResults c')
  | None => None
  end.
End Crawl.

End Crawler.

(* ===================================================================== *)
(** * Impact correlator (class ApiPerformanceCorrelator) *)
(* ===================================================================== *)

Module Correlator.
Local Open Scope Q_scope.

(** JavaScript values, as far as the records passed around need them. *)
#[local] Set Warnings "-register-all".
Inductive JsValue :=
| JUndefined
| JNull
| JBool (b : bool)
| JNum (q : Q)
| JStr (s : string)
| JObj (fields : list (string * JsValue)).
#[local] Set Warnings "register-all".

(** An API call record is whatever object the caller passes. *)
Abbreviation JsObject := (gmap string JsValue).

Definition js_truthy (v : JsValue) : bool :=
  match v with
  | JUndefined | JNull => false
  | JBool b => b
  | JNum q => negb (Qeq_bool q 0)
  | JStr s => negb (String.eqb s EmptyString)
  | JObj _ => true
  end.

(** [o.k] *)
Definition get (o : JsObject) (k : string) : JsValue := default JUndefined (o !! k).

(** [a || b] *)
Definition js_or (a b : JsValue) : JsValue := if js_truthy a then a else b.

Record Memory := {
  usedJSHeapSize : Q;
  totalJSHeapSize : Q;
  jsHeapSizeLimit : Q;
}.

(** The object returned by capturePerformanceMetrics. *)
Record Metrics := {
  timestamp : Z;
  fcp : Q;
  cls : Q;
  domUpdateTime : Q;
  renderTime : Q;
  memory : option Memory;
  resourceCount : Z;
}.

(** calculateRenderingImpact *)
Definition calculateRenderingImpact (beforeMetrics afterMetrics : Metrics) : string :=
  let renderTimeDelta := renderTime afterMetrics - renderTime beforeMetrics in
  if negb (Qle_bool renderTimeDelta 100) then "high"
  else if negb (Qle_bool renderTimeDelta 50) then "medium"
  else "low".

(** calculateMetricsImpact *)
Definition calculateMetricsImpact (beforeMetrics afterMetrics : Metrics)
    : list (string * JsValue) :=
  [ ("fcpDelta", JNum (fcp afterMetrics - fcp beforeMetrics));
    ("clsDelta", JNum (cls afterMetrics - cls beforeMetrics));
    ("resourceCountDelta",
       JNum (inject_Z (resourceCount afterMetrics - resourceCount beforeMetrics)));
    ("renderingImpact",
       JStr (calculateRenderingImpact beforeMetrics afterMetrics)) ].

(** [after.memory?.usedJSHeapSize - before.memory?.usedJSHeapSize || 0]:
    the difference, and 0 when it is 0 or when a side is missing (NaN). *)
Definition memoryDelta (beforeMetrics afterMetrics : Metrics) : Q :=
  match memory afterMetrics, memory beforeMetrics with
  | Some a, Some b =>
      let d := usedJSHeapSize a - usedJSHeapSize b in
      if Qeq_bool d 0 then 0 else d
  | _, _ => 0
  end.

(** The [frontendImpact] object of the [try] block. *)
Definition frontendImpact (beforeMetrics afterMetrics : Metrics) : JsValue :=
  JObj (calculateMetricsImpact beforeMetrics afterMetrics ++
        [ ("domUpdateTime",
             JNum (domUpdateTime afterMetrics - domUpdateTime beforeMetrics));
          ("renderTime", JNum (renderTime afterMetrics - renderTime beforeMetrics));
          ("layoutShiftDelta", JNum (cls afterMetrics - cls beforeMetrics));
          ("memoryDelta", JNum (memoryDelta beforeMetrics afterMetrics)) ])%list.

(** The [frontendImpact] object of the [catch] block. *)
Definition errorImpact (message : string) : JsValue :=
  JObj [ ("error", JStr message) ].

(** [{ ...apiCall, frontendImpact: v }] *)
Definition withFrontendImpact (apiCall : JsObject) (v : JsValue) : JsObject :=
  <["frontendImpact" := v]> apiCall.

(** ** Computations on the open page

    An awaited call on the page changes the page and returns a value or
    throws an error with a message. *)
Inductive outcome (A : Type) :=
| Returned (a : A)
| Thrown (message : string).
Arguments Returned {A} a.
Arguments Thrown {A} message.

Section Page.
Variable Page : Type.

Definition M (A : Type) : Type := Page -> outcome A * Page.

Definition ret {A} (a : A) : M A := fun page => (Returned a, page).

Definition bind {A B} (m : M A) (k : A -> M B) : M B :=
  fun page =>
    match m page with
    | (Returned a, page') => k a page'
    | (Thrown message, page') => (Thrown message, page')
    end.

(** [try { m } catch (error) { handler(error.message) }] *)
Definition try_catch {A} (m : M A) (handler : string -> M A) : M A :=
  fun page =>
    match m page with
    | (Returned a, page') => (Returned a, page')
    | (Thrown message, page') => handler message page'
    end.

Notation "x <- m ;; k" := (bind m (fun x => k))
  (at level 100, m at next level, right associativity).

(** The browser's side: the [page.evaluate] of capturePerformanceMetrics,
    the [page.evaluate] of simulateApiCall, [page.waitForTimeout] and
    [page.goto]. *)
Variable evaluateMetrics : M Metrics.
Variable evaluateSimulation : JsObject -> M unit.
Variable waitForTimeout : JsValue -> M unit.
Variable goto : string -> M unit.

(** capturePerformanceMetrics *)
Definition capturePerformanceMetrics : M Metrics := evaluateMetrics.

(** simulateApiCall *)
Definition simulateApiCall (apiCall : JsObject) : M unit :=
  _ <- evaluateSimulation apiCall ;;
  waitForTimeout (js_or (get apiCall "duration") (JNum 100)).

(** The [try] block of the loop body: the record it pushes. *)
Definition measure (apiCall : JsObject) : M JsObject :=
  beforeMetrics <- capturePerformanceMetrics ;;
  _ <- simulateApiCall apiCall ;;
  _ <- waitForTimeout (JNum 500) ;;
  afterMetrics <- capturePerformanceMetrics ;;
  ret (withFrontendImpact apiCall (frontendImpact beforeMetrics afterMetrics)).

(** The loop body: [try { ... } catch (error) { ... }]. *)
Definition enhance (apiCall : JsObject) : M JsObject :=
  try_catch (measure apiCall)
    (fun message => ret (withFrontendImpact apiCall (errorImpact message))).

(** for (const apiCall of apiCalls) { ... enhancedApiCalls.push(...) } *)
Fixpoint forEachCall (apiCalls : list JsObject) (enhancedApiCalls : list JsObject)
    : M (list JsObject) :=
  match apiCalls with
  | [] => ret enhancedApiCalls
  | apiCall :: rest =>
      e <- enhance apiCall ;;
      forEachCall rest (enhancedApiCalls ++ [e])%list
  end.

(** analyzeApiImpact, from [browser.newPage()] on: [page] is the new
    page. *)
Definition analyzeApiImpact (apiCalls : list JsObject) (pageUrl : string)
    : M (list JsObject) :=
  _ <- goto pageUrl ;;
  forEachCall apiCalls [].
End Page.

End Correlator.

(* ===================================================================== *)
(** * Alert engine (performance-alerts.js) *)
(* ===================================================================== *)

Module Alerts.
Import Js.
Local Open Scope Q_scope.

Inductive AlertType :=
| Critical     (* 'critical' *)
| Warning.     (* 'warning' *)

Definition AlertType_eqb (a b : AlertType) : bool :=
  match a, b with
  | Critical, Critical | Warning, Warning => true
  | _, _ => false
  end.

Record Alert := {
  type : AlertType;
  category : string;
  metric : string;
  value : string;
  threshold : string;
  message : string;
  recommendation : string;
  details : option (list string);   (* only the API alerts carry details *)
}.

Record Threshold := { warning : Q; critical : Q }.

Module thresholds.
Definition fcp := {| warning := 2000; critical := 3000 |}.
Definition lcp := {| warning := 2500; critical := 4000 |}.
Definition cls := {| warning := 0.1; critical := 0.25 |}.
Definition tbt := {| warning := 300; critical := 600 |}.
Definition tti := {| warning := 3800; critical := 7300 |}.
Definition si := {| warning := 3400; critical := 5800 |}.
Definition performance := {| warning := 0.7; critical := 0.5 |}.
Definition accessibility := {| warning := 0.7; critical := 0.5 |}.
Definition bestPractices := {| warning := 0.7; critical := 0.5 |}.
Definition seo := {| warning := 0.7; critical := 0.5 |}.
End thresholds.

Module apiThresholds.
Definition responseTime := {| warning := 500; critical := 1000 |}.
Definition errorRate := {| warning := 0.05; critical := 0.1 |}.
Definition payloadSize :=
  {| warning := 1024 * 1024; critical := 5 * 1024 * 1024 |}.
End apiThresholds.

(** [lighthouseResults.details]: the raw values the engine reads. *)
Record Details := {
  fcpRaw : option Q;
  lcpRaw : option Q;
  clsRaw : option Q;
  tbtRaw : option Q;
  ttiRaw : option Q;
  siRaw : option Q;
}.

(** A category score: lighthouse-service.js stores a number or [null],
    and the field may be missing. *)
Inductive Score :=
| ScoreUndefined
| ScoreNull
| ScoreNum (q : Q).

(** ToNumber of a score that is not [undefined]. *)
Definition score_num (s : Score) : Q :=
  match s with ScoreNum q => q | _ => 0 end.

Record LighthouseResults := {
  performance : Score;
  accessibility : Score;
  lh_details : option Details;   (* lighthouseResults.details *)
}.

(** The [status] of a formatted call: [call.statusCode || "Unknown"]. *)
Inductive Status :=
| StatusCode (n : Z)
| Unknown.

Record RawData := { transferSize : option Q }.

(** An entry of [apiResults.apiCalls]: the fields the engine reads. *)
Record ApiCall := {
  endpoint : string;
  method : string;
  status : Status;
  timeTaken : Z;
  payloadSize : string;
  rawData : option RawData;
}.

Record ApiResults := { apiCalls : option (list ApiCall) }.

(** [x >= y] *)
Definition geq (x y : Q) : bool := Qle_bool y x.
(** [x <= y] *)
Definition leq (x y : Q) : bool := Qle_bool x y.
(** [x < y] *)
Definition lt (x y : Q) : bool := negb (Qle_bool y x).

(** [(ms / 1000).toFixed(2)] followed by [s]; the division is one of
    binary64 numbers. *)
Definition seconds (ms : Q) : string := toFixed (double (double ms / 1000)) 2 ++ "s".
Definition count (n : nat) : string := string_of_Z (Z.of_nat n).
(** [Math.round(x * 100)] followed by [/100]; the product is one of
    binary64 numbers. *)
Definition outOf100 (x : Q) : string :=
  string_of_Z (Math_round (double (double x * 100))) ++ "/100".
(** [(x * 100).toFixed(1)] followed by [%], likewise. *)
Definition percent (x : Q) : string := toFixed (double (double x * 100)) 1 ++ "%".

(** ** Core Web Vitals and scores: one block of the source each *)

Definition checkFCP (d : option Details) : list Alert :=
  match d with
  | Some d =>
      if truthy (fcpRaw d) then
        let fcpRaw := num (fcpRaw d) in
        if geq fcpRaw (critical thresholds.fcp) then
          [ {| type := Critical;
               category := "Core Web Vitals";
               metric := "First Contentful Paint (FCP)";
               value := seconds fcpRaw;
               threshold := string_of_number (critical thresholds.fcp / 1000) ++ "s";
               message := "First Contentful Paint is critically slow";
               recommendation := "Optimize critical rendering path, reduce server response time, and minimize render-blocking resources.";
               details := None |} ]
        else if geq fcpRaw (warning thresholds.fcp) then
          [ {| type := Warning;
               category := "Core Web Vitals";
               metric := "First Contentful Paint (FCP)";
               value := seconds fcpRaw;
               threshold := string_of_number (warning thresholds.fcp / 1000) ++ "s";
               message := "First Contentful Paint is slow";
               recommendation := "Consider optimizing server response time and reducing render-blocking resources.";
               details := None |} ]
        else []
      else []
  | None => []
  end.

Definition checkLCP (d : option Details) : list Alert :=
  match d with
  | Some d =>
      if truthy (lcpRaw d) then
        let lcpRaw := num (lcpRaw d) in
        if geq lcpRaw (critical thresholds.lcp) then
          [ {| type := Critical;
               category := "Core Web Vitals";
               metric := "Largest Contentful Paint (LCP)";
               value := seconds lcpRaw;
               threshold := string_of_number (critical thresholds.lcp / 1000) ++ "s";
               message := "Largest Contentful Paint is critically slow";
               recommendation := "Optimize and prioritize loading of hero images and text. Consider using CDN and image optimization.";
               details := None |} ]
        else if geq lcpRaw (warning thresholds.lcp) then
          [ {| type := Warning;
               category := "Core Web Vitals";
               metric := "Largest Contentful Paint (LCP)";
               value := seconds lcpRaw;
               threshold := string_of_number (warning thresholds.lcp / 1000) ++ "s";
               message := "Largest Contentful Paint is slow";
               recommendation := "Consider optimizing hero images and text loading.";
               details := None |} ]
        else []
      else []
  | None => []
  end.

(** [details.clsRaw !== undefined]: a raw value of 0 is checked too. *)
Definition checkCLS (d : option Details) : list Alert :=
  match d with
  | Some d =>
      match clsRaw d with
      | Some clsRaw =>
          if geq clsRaw (critical thresholds.cls) then
            [ {| type := Critical;
                 category := "Core Web Vitals";
                 metric := "Cumulative Layout Shift (CLS)";
                 value := toFixed (double clsRaw) 3;
                 threshold := toFixed (double (critical thresholds.cls)) 2;
                 message := "Cumulative Layout Shift is critically high";
                 recommendation := "Set explicit width/height for images, ads, embeds, and dynamically injected content.";
                 details := None |} ]
          else if geq clsRaw (warning thresholds.cls) then
            [ {| type := Warning;
                 category := "Core Web Vitals";
                 metric := "Cumulative Layout Shift (CLS)";
                 value := toFixed (double clsRaw) 3;
                 threshold := toFixed (double (warning thresholds.cls)) 2;
                 message := "Cumulative Layout Shift is high";
                 recommendation := "Consider setting explicit dimensions for images and dynamic content.";
                 details := None |} ]
          else []
      | None => []
      end
  | None => []
  end.

Definition checkTTI (d : option Details) : list Alert :=
  match d with
  | Some d =>
      if truthy (ttiRaw d) then
        let ttiRaw := num (ttiRaw d) in
        if geq ttiRaw (critical thresholds.tti) then
          [ {| type := Critical;
               category := "Performance";
               metric := "Time to Interactive (TTI)";
               value := seconds ttiRaw;
               threshold := string_of_number (critical thresholds.tti / 1000) ++ "s";
               message := "Time to Interactive is critically slow";
               recommendation := "Reduce JavaScript execution time, minimize main thread work, and defer non-critical JavaScript.";
               details := None |} ]
        else if geq ttiRaw (warning thresholds.tti) then
          [ {| type := Warning;
               category := "Performance";
               metric := "Time to Interactive (TTI)";
               value := seconds ttiRaw;
               threshold := string_of_number (warning thresholds.tti / 1000) ++ "s";
               message := "Time to Interactive is slow";
               recommendation := "Consider reducing JavaScript execution time and deferring non-critical scripts.";
               details := None |} ]
        else []
      else []
  | None => []
  end.

Definition checkTBT (d : option Details) : list Alert :=
  match d with
  | Some d =>
      if truthy (tbtRaw d) then
        let tbtRaw := num (tbtRaw d) in
        if geq tbtRaw (critical thresholds.tbt) then
          [ {| type := Critical;
               category := "Performance";
               metric := "Total Blocking Time (TBT)";
               value := toFixed (double tbtRaw) 0 ++ "ms";
               threshold := string_of_number (critical thresholds.tbt) ++ "ms";
               message := "Total Blocking Time is critically high";
               recommendation := "Minimize long tasks, optimize JavaScript execution, and consider code-splitting.";
               details := None |} ]
        else if geq tbtRaw (warning thresholds.tbt) then
          [ {| type := Warning;
               category := "Performance";
               metric := "Total Blocking Time (TBT)";
               value := toFixed (double tbtRaw) 0 ++ "ms";
               threshold := string_of_number (warning thresholds.tbt) ++ "ms";
               message := "Total Blocking Time is high";
               recommendation := "Consider optimizing JavaScript execution and breaking up long tasks.";
               details := None |} ]
        else []
      else []
  | None => []
  end.

Definition checkSI (d : option Details) : list Alert :=
  match d with
  | Some d =>
      if truthy (siRaw d) then
        let siRaw := num (siRaw d) in
        if geq siRaw (critical thresholds.si) then
          [ {| type := Critical;
               category := "Performance";
               metric := "Speed Index (SI)";
               value := seconds siRaw;
               threshold := string_of_number (critical thresholds.si / 1000) ++ "s";
               message := "Speed Index is critically slow";
               recommendation := "Optimize page load performance, minimize critical rendering path, and prioritize visible content.";
               details := None |} ]
        else if geq siRaw (warning thresholds.si) then
          [ {| type := Warning;
               category := "Performance";
               metric := "Speed Index (SI)";
               value := seconds siRaw;
               threshold := string_of_number (warning thresholds.si / 1000) ++ "s";
               message := "Speed Index is slow";
               recommendation := "Consider optimizing page load performance and prioritizing visible content.";
               details := None |} ]
        else []
      else []
  | None => []
  end.

Definition checkPerformance (s : Score) : list Alert :=
  match s with
  | ScoreUndefined => []
  | _ =>
      let performance := score_num s in
      if leq performance (critical thresholds.performance) then
        [ {| type := Critical;
             category := "Overall";
             metric := "Performance Score";
             value := outOf100 performance;
             threshold := outOf100 (critical thresholds.performance);
             message := "Overall performance score is critically low";
             recommendation := "Review all performance metrics and prioritize fixing critical issues first.";
             details := None |} ]
      else if leq performance (warning thresholds.performance) then
        [ {| type := Warning;
             category := "Overall";
             metric := "Performance Score";
             value := outOf100 performance;
             threshold := outOf100 (warning thresholds.performance);
             message := "Overall performance score is low";
             recommendation := "Review performance metrics and address the most impactful issues.";
             details := None |} ]
      else []
  end.

Definition checkAccessibility (s : Score) : list Alert :=
  match s with
  | ScoreUndefined => []
  | _ =>
      let accessibility := score_num s in
      if leq accessibility (critical thresholds.accessibility) then
        [ {| type := Critical;
             category := "Accessibility";
             metric := "Accessibility Score";
             value := outOf100 accessibility;
             threshold := outOf100 (critical thresholds.accessibility);
             message := "Accessibility score is critically low";
             recommendation := "Address critical accessibility issues like missing alt text, insufficient color contrast, and improper ARIA usage.";
             details := None |} ]
      else if leq accessibility (warning thresholds.accessibility) then
        [ {| type := Warning;
             category := "Accessibility";
             metric := "Accessibility Score";
             value := outOf100 accessibility;
             threshold := outOf100 (warning thresholds.accessibility);
             message := "Accessibility score is low";
             recommendation := "Review accessibility issues and address the most impactful problems.";
             details := None |} ]
      else []
  end.

(** ** API checks *)

Definition statusAtLeast400 (s : Status) : bool :=
  match s with
  | StatusCode n => (400 <=? n)%Z
  | Unknown => false
  end.

Definition string_of_status (s : Status) : string :=
  match s with
  | StatusCode n => string_of_Z n
  | Unknown => "Unknown"
  end.

(** [call.rawData?.transferSize || 0] *)
Definition sizeOf (call : ApiCall) : Q :=
  match rawData call with
  | Some raw => num (or_else (transferSize raw) (Some 0))
  | None => 0
  end.

Definition timingDetail (call : ApiCall) : string :=
  method call ++ " " ++ endpoint call ++ ": " ++ string_of_Z (timeTaken call) ++ "ms".
Definition statusDetail (call : ApiCall) : string :=
  method call ++ " " ++ endpoint call ++ ": " ++ string_of_status (status call).
Definition payloadDetail (call : ApiCall) : string :=
  method call ++ " " ++ endpoint call ++ ": " ++ payloadSize call.

Definition checkSlowApiCalls (calls : list ApiCall) : list Alert :=
  let slowApiCalls :=
    List.filter (fun call =>
      geq (inject_Z (timeTaken call)) (critical apiThresholds.responseTime)) calls in
  if (0 <? length slowApiCalls)%nat then
    [ {| type := Critical;
         category := "API Performance";
         metric := "Slow API Calls";
         value := count (length slowApiCalls) ++ " calls";
         threshold := string_of_number (critical apiThresholds.responseTime) ++ "ms";
         message := count (length slowApiCalls) ++ " API calls are critically slow";
         recommendation := "Optimize server response time, implement caching, and consider API endpoint consolidation.";
         details := Some (map timingDetail slowApiCalls) |} ]
  else
    let warningApiCalls :=
      List.filter (fun call =>
        geq (inject_Z (timeTaken call)) (warning apiThresholds.responseTime) &&
        lt (inject_Z (timeTaken call)) (critical apiThresholds.responseTime)) calls in
    if (0 <? length warningApiCalls)%nat then
      [ {| type := Warning;
           category := "API Performance";
           metric := "Slow API Calls";
           value := count (length warningApiCalls) ++ " calls";
           threshold := string_of_number (warning apiThresholds.responseTime) ++ "ms";
           message := count (length warningApiCalls) ++ " API calls are slow";
           recommendation := "Consider optimizing server response time and implementing caching.";
           details := Some (map timingDetail warningApiCalls) |} ]
    else [].

Definition checkErrorRate (calls : list ApiCall) : list Alert :=
  let errorApiCalls := List.filter (fun call => statusAtLeast400 (status call)) calls in
  if (0 <? length errorApiCalls)%nat then
    let errorRate :=
      inject_Z (Z.of_nat (length errorApiCalls)) / inject_Z (Z.of_nat (length calls)) in
    if geq errorRate (critical apiThresholds.errorRate) then
      [ {| type := Critical;
           category := "API Reliability";
           metric := "API Error Rate";
           value := percent errorRate;
           threshold := percent (critical apiThresholds.errorRate);
           message := "API error rate is critically high";
           recommendation := "Investigate and fix failing API endpoints. Consider implementing retry logic and error handling.";
           details := Some (map statusDetail errorApiCalls) |} ]
    else if geq errorRate (warning apiThresholds.errorRate) then
      [ {| type := Warning;
           category := "API Reliability";
           metric := "API Error Rate";
           value := percent errorRate;
           threshold := percent (warning apiThresholds.errorRate);
           message := "API error rate is high";
           recommendation := "Review failing API endpoints and implement proper error handling.";
           details := Some (map statusDetail errorApiCalls) |} ]
    else []
  else [].

Definition checkPayloads (calls : list ApiCall) : list Alert :=
  let largePayloadCalls :=
    List.filter (fun call =>
      geq (sizeOf call) (critical apiThresholds.payloadSize)) calls in
  if (0 <? length largePayloadCalls)%nat then
    [ {| type := Critical;
         category := "API Efficiency";
         metric := "Large API Payloads";
         value := count (length largePayloadCalls) ++ " calls";
         threshold := template (formatBytes (Qfloor (critical apiThresholds.payloadSize)));
         message := count (length largePayloadCalls) ++ " API calls have excessively large payloads";
         recommendation := "Implement pagination, reduce payload size, use compression, and consider GraphQL for selective data fetching.";
         details := Some (map payloadDetail largePayloadCalls) |} ]
  else
    let warningPayloadCalls :=
      List.filter (fun call =>
        geq (sizeOf call) (warning apiThresholds.payloadSize) &&
        lt (sizeOf call) (critical apiThresholds.payloadSize)) calls in
    if (0 <? length warningPayloadCalls)%nat then
      [ {| type := Warning;
           category := "API Efficiency";
           metric := "Large API Payloads";
           value := count (length warningPayloadCalls) ++ " calls";
           threshold := template (formatBytes (Qfloor (warning apiThresholds.payloadSize)));
           message := count (length warningPayloadCalls) ++ " API calls have large payloads";
           recommendation := "Consider implementing pagination and reducing payload size.";
           details := Some (map payloadDetail warningPayloadCalls) |} ]
    else [].

(** generatePerformanceAlerts: every [alerts.push] appends, in the order
    of the blocks of the source. *)
Definition generatePerformanceAlerts
    (lighthouseResults : option LighthouseResults)
    (apiResults : option ApiResults) : list Alert :=
  let alerts := [] in
  let alerts :=
    match lighthouseResults with
    | Some lighthouseResults =>
        let details := lh_details lighthouseResults in
        (alerts
          ++ checkFCP details
          ++ checkLCP details
          ++ checkCLS details
          ++ checkTTI details
          ++ checkTBT details
          ++ checkSI details
          ++ checkPerformance (performance lighthouseResults)
          ++ checkAccessibility (accessibility lighthouseResults))%list
    | None => alerts
    end in
  match apiResults with
  | Some apiResults =>
      match apiCalls apiResults with
      | Some calls =>
          if (0 <? length calls)%nat then
            (alerts
              ++ checkSlowApiCalls calls
              ++ checkErrorRate calls
              ++ checkPayloads calls)%list
          else alerts
      | None => alerts
      end
  | None => alerts
  end.

(** ** formatAlertsForDisplay *)

Definition nl : string := String (ascii_of_nat 10) EmptyString.

Definition criticalAlerts (alerts : list Alert) : list Alert :=
  List.filter (fun alert => AlertType_eqb (type alert) Critical) alerts.

Definition warningAlerts (alerts : list Alert) : list Alert :=
  List.filter (fun alert => AlertType_eqb (type alert) Warning) alerts.

Definition formatDetails (ds : option (list string)) : string :=
  match ds with
  | Some ds =>
      if (0 <? length ds)%nat then
        "   Details:" ++ nl
        ++ String.concat EmptyString
             (map (fun detail => "     - " ++ detail ++ nl) (take 3 ds))
        ++ (if (3 <? length ds)%nat
            then "     - ... and " ++ count (length ds - 3) ++ " more" ++ nl
            else EmptyString)
      else EmptyString
  | None => EmptyString
  end.

(** The body of the two [forEach] loops. *)
Definition formatAlert (index : nat) (alert : Alert) : string :=
  count (index + 1) ++ ". " ++ message alert ++ nl
  ++ "   Metric: " ++ metric alert ++ nl
  ++ "   Value: " ++ value alert ++ " (Threshold: " ++ threshold alert ++ ")" ++ nl
  ++ "   Recommendation: " ++ recommendation alert ++ nl
  ++ formatDetails (details alert)
  ++ nl.

Definition formatSection (heading : string) (group : list Alert) : string :=
  if (0 <? length group)%nat then
    heading ++ " (" ++ count (length group) ++ ")" ++ nl
    ++ "====================" ++ nl ++ nl
    ++ String.concat EmptyString (imap formatAlert group)
  else EmptyString.

Definition formatAlertsForDisplay (alerts : option (list Alert)) : string :=
  match alerts with
  | None | Some [] =>
      "No performance alerts detected. Your website is performing well!"
  | Some alerts =>
      formatSection "CRITICAL ALERTS" (criticalAlerts alerts)
      ++ formatSection "WARNING ALERTS" (warningAlerts alerts)
      ++ "SUMMARY" ++ nl
      ++ "====================" ++ nl ++ nl
      ++ "Total Alerts: " ++ count (length alerts) ++ nl
      ++ "Critical Alerts: " ++ count (length (criticalAlerts alerts)) ++ nl
      ++ "Warning Alerts: " ++ count (length (warningAlerts alerts)) ++ nl
  end.

End Alerts.

(* ===================================================================== *)
(** * Analysis of the formatted calls (api-analyzer.js) *)
(* ===================================================================== *)

Module Analyzer.
Import Js.
Local Open Scope Q_scope.

(** An entry of [formattedApiCalls]: the fields that the sort,
    analyzeApiCallsData and the alert engine read. [rawData] is the
    audit item itself, so it is always there. *)
Record FormattedCall := {
  endpoint : string;
  method : string;
  status : Alerts.Status;
  timeTaken : Z;
  payloadSize : string;
  errors : string;
  rawData : Alerts.RawData;
}.

(** The entries of the three lists of the analysis. *)
Record SlowApi := {
  slow_endpoint : string;
  slow_method : string;
  slow_timeTaken : Z;
}.

Record HighPayloadApi := {
  high_endpoint : string;
  high_method : string;
  high_payloadSize : string;
}.

Record ErrorProneApi := {
  err_endpoint : string;
  err_method : string;
  err_status : Alerts.Status;
  err_error : string;
}.

Record ApiAnalysis := {
  slowestApis : list SlowApi;
  highPayloadApis : list HighPayloadApi;
  errorProneApis : list ErrorProneApi;
  totalApiCalls : nat;
  averageResponseTime : Z;
}.

(** [call.timeTaken > 500] *)
Definition isSlow (call : FormattedCall) : bool := (500 <? timeTaken call)%Z.

(** [(call.rawData.transferSize || 0) > 1024 * 1024] *)
Definition isHighPayload (call : FormattedCall) : bool :=
  let size := num (or_else (Alerts.transferSize (rawData call)) (Some 0)) in
  negb (Qle_bool size (1024 * 1024)).

(** [call.status >= 400] *)
Definition isErrorProne (call : FormattedCall) : bool :=
  Alerts.statusAtLeast400 (status call).

(** analyzeApiCallsData *)
Definition analyzeApiCallsData (apiCalls : list FormattedCall) : ApiAnalysis :=
  let slowApis :=
    map (fun call => {| slow_endpoint := endpoint call;
                        slow_method := method call;
                        slow_timeTaken := timeTaken call |})
        (List.filter isSlow apiCalls) in
  let highPayloadApis :=
    map (fun call => {| high_endpoint := endpoint call;
                        high_method := method call;
                        high_payloadSize := payloadSize call |})
        (List.filter isHighPayload apiCalls) in
  let errorProneApis :=
    map (fun call => {| err_endpoint := endpoint call;
                        err_method := method call;
                        err_status := status call;
                        err_error := errors call |})
        (List.filter isErrorProne apiCalls) in
  {| slowestApis := slowApis;
     highPayloadApis := highPayloadApis;
     errorProneApis := errorProneApis;
     totalApiCalls := length apiCalls;
     averageResponseTime :=
       Math_round
         (inject_Z (fold_left (fun sum call => (sum + timeTaken call)%Z) apiCalls 0%Z)
          / inject_Z (Z.of_nat (if (length apiCalls =? 0)%nat then 1 else length apiCalls))) |}.

(** [formattedApiCalls.sort((a, b) => b.timeTaken - a.timeTaken)]:
    [Array.prototype.sort] is stable, so the result is the one of an
    insertion sort that puts an entry before the first later entry that
    took no longer. *)
Fixpoint insertByTime (a : FormattedCall) (sorted : list FormattedCall)
    : list FormattedCall :=
  match sorted with
  | [] => [a]
  | b :: rest =>
      if (timeTaken b <=? timeTaken a)%Z then a :: b :: rest
      else b :: insertByTime a rest
  end.

Definition sortByTimeTaken (formattedApiCalls : list FormattedCall)
    : list FormattedCall :=
  foldr insertByTime [] formattedApiCalls.

(** What analyzeApiCalls returns for the calls it has formatted. *)
Record ApiResults := {
  apiCalls : list FormattedCall;
  analysis : ApiAnalysis;
}.

Definition analyzeFormatted (formattedApiCalls : list FormattedCall) : ApiResults :=
  let formattedApiCalls := sortByTimeTaken formattedApiCalls in
  let analysis := analyzeApiCallsData formattedApiCalls in
  {| apiCalls := formattedApiCalls; analysis := analysis |}.

(** The same entry as the alert engine reads it. *)
Definition asAlertCall (call : FormattedCall) : Alerts.ApiCall :=
  {| Alerts.endpoint := endpoint call;
     Alerts.method := method call;
     Alerts.status := status call;
     Alerts.timeTaken := timeTaken call;
     Alerts.payloadSize := payloadSize call;
     Alerts.rawData := Some (rawData call) |}.

(** [apiResults] as lighthouse-service.js hands it to
    generatePerformanceAlerts. *)
Definition asAlertInput (apiResults : ApiResults) : Alerts.ApiResults :=
  {| Alerts.apiCalls := Some (map asAlertCall (apiCalls apiResults)) |}.

End Analyzer.

(* ===================================================================== *)
(** * The analysis route (server.js) *)
(* ===================================================================== *)

Module Server.
Import Js Crawler Correlator.
Local Open Scope Q_scope.

(** A number, as a field of the options handed to the crawler. *)
Definition asOption (n : Number) : OptionValue :=
  if Number_truthy n then Truthy n else Falsy.

(** [analysisOptions]: [Math.min(options.maxPages || 15, 50)] and
    [Math.min(options.maxDepth || 3, 5)], of the [options] of the
    request body, which are not validated. *)
Definition analysisOptions (options : Options) : Options :=
  {| opt_maxPages :=
       asOption (Math_min (or_default (opt_maxPages options) 15) (Finite 50));
     opt_maxDepth :=
       asOption (Math_min (or_default (opt_maxDepth options) 3) (Finite 5)) |}.

(** An entry of [enhancedApiCalls] as the route holds it: a record of
    the crawler with the [frontendImpact] the correlator added. *)
Record EnhancedCall := {
  apiCall : ApiCall;
  frontendImpact : JsValue;
}.

(** An entry of [lighthouseResults]: [{ url: pageUrl, ...result }], of
    which the score is read; [None] is [null]. *)
Record LighthouseEntry := {
  entry_url : string;
  entry_performance : option Q;
}.

(** [call.duration > 1000]; false while [duration] is undefined. *)
Definition isSlow (call : EnhancedCall) : bool :=
  match duration (apiCall call) with
  | Some d => (1000 <? d)%Z
  | None => false
  end.

(** [call.status >= 400]; false while [status] is undefined. *)
Definition isError (call : EnhancedCall) : bool :=
  match status (apiCall call) with
  | Some s => (400 <=? s)%Z
  | None => false
  end.

(** [call.duration || 0] *)
Definition durationOrZero (call : EnhancedCall) : Z :=
  match duration (apiCall call) with
  | Some d => d
  | None => 0%Z
  end.

(** The value of the last binding of [k] in an object literal, [found]
    when there is none. *)
Fixpoint property (k : string) (fields : list (string * JsValue))
    (found : JsValue) : JsValue :=
  match fields with
  | [] => found
  | (k', v) :: rest => property k rest (if String.eqb k' k then v else found)
  end.

(** [v?.k], for a key that no primitive value has. *)
Definition member (v : JsValue) (k : string) : JsValue :=
  match v with
  | JObj fields => property k fields JUndefined
  | _ => JUndefined
  end.

(** [call.frontendImpact?.renderingImpact === "high"] *)
Definition isHighImpact (call : EnhancedCall) : bool :=
  match member (frontendImpact call) "renderingImpact" with
  | JStr s => String.eqb s "high"
  | _ => false
  end.

(** calculateAverageResponseTime *)
Definition calculateAverageResponseTime (apiCalls : list EnhancedCall) : Z :=
  if (length apiCalls =? 0)%nat then 0%Z
  else
    let total := fold_left (fun sum call => (sum + durationOrZero call)%Z) apiCalls 0%Z in
    Math_round (inject_Z total / inject_Z (Z.of_nat (length apiCalls))).

(** countPagesWithSlowApis *)
Definition countPagesWithSlowApis (apiCalls : list EnhancedCall) : nat :=
  if (length apiCalls =? 0)%nat then 0%nat
  else
    let slowApiCalls := List.filter isSlow apiCalls in
    let pagesWithSlowApis : gset string :=
      list_to_set (map (fun call => page (apiCall call)) slowApiCalls) in
    size pagesWithSlowApis.

(** calculateOverallScore *)
Definition calculateOverallScore (crawlResults : CrawlResult)
    (apiCalls : list EnhancedCall) (lighthouseResults : list LighthouseEntry) : Z :=
  let score := 100%Z in
  let slowApis := List.filter isSlow apiCalls in
  let score := (score - Z.of_nat (length slowApis) * 5)%Z in
  let errorApis := List.filter isError apiCalls in
  let score := (score - Z.of_nat (length errorApis) * 10)%Z in
  let score :=
    if (0 <? length lighthouseResults)%nat then
      let avgPerformanceScore :=
        fold_left (fun sum result =>
                     sum + num (or_else (entry_performance result) (Some 0)))
                  lighthouseResults 0
        / inject_Z (Z.of_nat (length lighthouseResults)) in
      Qmin (inject_Z score) (avgPerformanceScore * 100)
    else inject_Z score in
  Z.max 0 (Math_round score).

Record Issue := {
  issue_type : string;
  severity : string;
  issue_message : string;
  affectedApis : list string;
}.

Record Recommendation := {
  rec_type : string;
  priority : string;
  rec_message : string;
}.

Record Analysis := {
  criticalIssues : list Issue;
  recommendations : list Recommendation;
  overallScore : Z;
}.

(** generateWebsiteAnalysis *)
Definition generateWebsiteAnalysis (crawlResults : CrawlResult)
    (apiCalls : list EnhancedCall) (lighthouseResults : list LighthouseEntry)
    : Analysis :=
  let slowApis := List.filter isSlow apiCalls in
  let '(criticalIssues, recommendations) :=
    if (0 <? length slowApis)%nat then
      ([ {| issue_type := "api_performance";
            severity := "high";
            issue_message :=
              string_of_Z (Z.of_nat (length slowApis))
              ++ " slow API calls detected across the website";
            affectedApis := map (fun api => url (apiCall api)) slowApis |} ],
       [ {| rec_type := "api_optimization";
            priority := "high";
            rec_message :=
              "Optimize slow API endpoints or implement caching strategies" |} ])
    else ([], []) in
  let highImpactApis := List.filter isHighImpact apiCalls in
  let criticalIssues :=
    if (0 <? length highImpactApis)%nat then
      (criticalIssues ++
       [ {| issue_type := "frontend_impact";
            severity := "medium";
            issue_message :=
              string_of_Z (Z.of_nat (length highImpactApis))
              ++ " API calls significantly impact frontend performance";
            affectedApis := map (fun api => url (apiCall api)) highImpactApis |} ])%list
    else criticalIssues in
  {| criticalIssues := criticalIssues;
     recommendations := recommendations;
     overallScore := calculateOverallScore crawlResults apiCalls lighthouseResults |}.

(** The [summary] of the response. *)
Record Summary := {
  totalPagesAnalyzed : nat;
  totalApiCallsFound : nat;
  averageApiResponseTime : Z;
  pagesWithSlowApis : nat;
  criticalIssuesFound : nat;
}.

Definition summary (crawlResults : CrawlResult)
    (enhancedApiCalls : list EnhancedCall)
    (lighthouseResults : list LighthouseEntry) : Summary :=
  let analysis := generateWebsiteAnalysis crawlResults enhancedApiCalls lighthouseResults in
  {| totalPagesAnalyzed := totalPages crawlResults;
     totalApiCallsFound := totalApiCalls crawlResults;
     averageApiResponseTime := calculateAverageResponseTime enhancedApiCalls;
     pagesWithSlowApis := countPagesWithSlowApis enhancedApiCalls;
     criticalIssuesFound := length (criticalIssues analysis) |}.

End Server.

(* ===================================================================== *)
(** * Query tracking (db.js) *)
(* ===================================================================== *)

Module QueryLog.
Local Open Scope Q_scope.

(** A value of [queryLogs]. *)
Record Log := {
  query : string;
  calls : Z;
  total_time : Q;
  avg_time : Q;
}.

(** [queryLogs] is a [Map]: it keeps its keys in insertion order, and
    [set] on a key that is there replaces the value at its place. *)
Definition QueryLogs := list (string * Log).

Fixpoint Map_get (k : string) (m : QueryLogs) : option Log :=
  match m with
  | [] => None
  | (k', v) :: m' => if String.eqb k' k then Some v else Map_get k m'
  end.

Definition Map_has (k : string) (m : QueryLogs) : bool :=
  match Map_get k m with Some _ => true | None => false end.

Fixpoint Map_set (k : string) (v : Log) (m : QueryLogs) : QueryLogs :=
  match m with
  | [] => [(k, v)]
  | (k', v') :: m' =>
      if String.eqb k' k then (k', v) :: m' else (k', v') :: Map_set k v m'
  end.

(** The three assignments to the object [queryLogs.get(queryKey)]. *)
Definition record (duration : Q) (log : Log) : Log :=
  let calls := (calls log + 1)%Z in
  let total_time := total_time log + duration in
  {| query := query log;
     calls := calls;
     total_time := total_time;
     avg_time := total_time / inject_Z calls |}.

(** What [pool.query] does in one call of executeQuery: it resolves,
    and [duration] is the time measured since [startTime], or it
    rejects. *)
Inductive QueryOutcome :=
| Resolved (duration : Q)
| Rejected (message : string).

Section Db.
(** [String.prototype.trim] *)
Variable trim : string -> string.

(** executeQuery, as far as [queryLogs] goes: the [catch] block rethrows
    without touching it. *)
Definition executeQuery (queryLogs : QueryLogs) (query : string)
    (outcome : QueryOutcome) : QueryLogs :=
  match outcome with
  | Resolved duration =>
      let queryKey := trim query in
      let queryLogs :=
        if negb (Map_has queryKey queryLogs) then
          Map_set queryKey
            {| QueryLog.query := queryKey; calls := 0; total_time := 0; avg_time := 0 |}
            queryLogs
        else queryLogs in
      match Map_get queryKey queryLogs with
      | Some log => Map_set queryKey (record duration log) queryLogs
      | None => queryLogs
      end
  | Rejected _ => queryLogs
  end.

(** A sequence of calls, from the first on. *)
Definition executeQueries (executions : list (string * QueryOutcome))
    (queryLogs : QueryLogs) : QueryLogs :=
  fold_left (fun logs e => executeQuery logs e.1 e.2) executions queryLogs.

(** db.getQueryLogs *)
Definition getQueryLogs (queryLogs : QueryLogs) : list Log := map snd queryLogs.

End Db.

End QueryLog.

(* ===================================================================== *)
(** * Terms of the properties

    The predicates in which the properties below are stated, the rules of
    the specification where they differ from the code, and sample inputs.
    Nothing here is part of the sources. *)
(* ===================================================================== *)

Module ClassifierSpec.
Import Classifier.

(** [Matches p s]: the pattern [p] matches exactly the characters [s]. *)
Inductive Matches : list atom -> list ascii -> Prop :=
| M_nil : Matches [] []
| M_lit c p a s :
    ci_eqb a c = true -> Matches p s -> Matches (Lit c :: p) (a :: s)
| M_digits p ds s :
    ds <> [] -> forallb is_digit ds = true -> Matches p s ->
    Matches (Digits :: p) (ds ++ s).

(** The characters of a string. *)
Definition chars : string -> list ascii := list_ascii_of_string.

(** Equal up to the case of ASCII letters. *)
Definition sameIgnoringCase (s t : list ascii) : Prop :=
  map canonicalize s = map canonicalize t.

(** ** The rule, in words *)

(** [needle] occurs somewhere in [url], in any case. *)
Definition containsIgnoringCase (url needle : string) : Prop :=
  exists pre mid post,
    chars url = (pre ++ mid ++ post)%list /\ sameIgnoringCase mid (chars needle).

(** [url] ends in [suffix], in any case. *)
Definition endsWithIgnoringCase (url suffix : string) : Prop :=
  exists pre suf,
    chars url = (pre ++ suf)%list /\ sameIgnoringCase suf (chars suffix).

(** [url] contains /v, one or more decimal digits, and a slash. *)
Definition hasVersionSegment (url : string) : Prop :=
  exists pre v digits slash post,
    chars url = (pre ++ v ++ digits ++ slash ++ post)%list /\
    sameIgnoringCase v (chars "/v") /\
    digits <> [] /\ forallb is_digit digits = true /\
    sameIgnoringCase slash (chars "/").

(** The URL side of the rule. *)
Definition urlLooksLikeApi (url : string) : Prop :=
  containsIgnoringCase url "/api/" \/
  containsIgnoringCase url "/graphql" \/
  containsIgnoringCase url "/rest/" \/
  hasVersionSegment url \/
  endsWithIgnoringCase url ".json".

(** The rule as the specification words it: every comparison, the one of
    the resource type included, ignores case. *)
Definition classifySpec (url resourceType : string) : Prop :=
  sameIgnoringCase (chars resourceType) (chars "xhr") \/
  sameIgnoringCase (chars resourceType) (chars "fetch") \/
  urlLooksLikeApi url.

End ClassifierSpec.

Module TimingSpec.
Import Js Timing.
Local Open Scope Q_scope.

(** A record with nothing but a URL and a transfer size. *)
Definition onlyTransferSize (u : string) (size : Q) : NetworkRequest :=
  {| url := u;
     endTime := None; startTime := None;
     networkEndTime := None; networkRequestTime := None;
     responseReceivedTime := None; requestTime := None;
     finished := None; started := None;
     timing := None;
     transferSize := Some size; resourceSize := None |}.

(** A record whose request ended at the instant it started. *)
Definition instantCall : NetworkRequest :=
  {| url := "https://x.com/api/users";
     endTime := Some 150; startTime := Some 150;
     networkEndTime := None; networkRequestTime := None;
     responseReceivedTime := None; requestTime := None;
     finished := None; started := None;
     timing := None;
     transferSize := Some 100000; resourceSize := None |}.

(** The example of the specification, with other fields filled in. *)
Definition exampleCall : NetworkRequest :=
  {| url := "https://x.com/api/users";
     endTime := Some 200; startTime := Some 150;
     networkEndTime := Some 900; networkRequestTime := Some 100;
     responseReceivedTime := None; requestTime := None;
     finished := Some 7; started := Some 1;
     timing := Some {| receiveHeadersEnd := Some 30; timing_requestTime := Some 10 |};
     transferSize := Some 100000; resourceSize := None |}.

(** A record with the timestamps of rule 3 only, in seconds. *)
Definition secondsCall : NetworkRequest :=
  {| url := "https://x.com/api/users";
     endTime := Some 0; startTime := Some 150;
     networkEndTime := None; networkRequestTime := Some 100;
     responseReceivedTime := Some (5 # 4); requestTime := Some 1;
     finished := Some 7; started := Some 1;
     timing := Some {| receiveHeadersEnd := Some 30; timing_requestTime := Some 10 |};
     transferSize := Some 100000; resourceSize := None |}.

(** A record with the timing sub-object only. *)
Definition subObjectCall : NetworkRequest :=
  {| url := "https://x.com/api/users";
     endTime := None; startTime := None;
     networkEndTime := None; networkRequestTime := None;
     responseReceivedTime := None; requestTime := None;
     finished := None; started := Some 1;
     timing := Some {| receiveHeadersEnd := Some 30; timing_requestTime := Some 10 |};
     transferSize := Some 100000; resourceSize := None |}.

(** The terms of the specification's algorithm. A field is present with
    a value when it is there and is not zero. *)
Definition present (field : option Q) (value : Q) : Prop :=
  field = Some value /\ ~ value == 0.

Definition absent (field : option Q) : Prop :=
  forall value, ~ present field value.

(** A rule on two fields does not apply. *)
Definition notBoth (field field' : option Q) : Prop :=
  absent field \/ absent field'.

(** "transferSizeOrResourceSize": the first of the two that is present,
    0 when neither is. *)
Definition transferSizeOrResourceSize (call : NetworkRequest) : Q :=
  let resource := match resourceSize call with Some r => r | None => 0 end in
  match transferSize call with
  | Some t => if Qeq_bool t 0 then resource else t
  | None => resource
  end.

Definition clamp (x lo hi : Q) : Q := Qmax lo (Qmin hi x).

(** The post-condition: a computed value [<= 0] is replaced by the
    substitute drawn with [rnd']. *)
Definition postCondition (computed : Z) (rnd' : Q) : Z :=
  if (0 <? computed)%Z then computed else Math_round (20 + rnd' * 80).

End TimingSpec.

Module CrawlerSpec.
Import Js Classifier Crawler.
Local Open Scope nat_scope.
Local Open Scope list_scope.

(** ** The budgets

    [n] pages within a page budget: none, or the last was admitted
    while [n - 1 < maxPages]. With a whole budget that is
    [n <= maxPages]; a fractional budget admits one page more, and a
    budget that reads as NaN admits none. *)
Definition pagesWithin (n : nat) (maxPages : Number) : Prop :=
  match maxPages with
  | Finite q => n = 0 \/ (inject_Z (Z.of_nat n) < q + 1)%Q
  | PlusInfinity => True
  | NaN | MinusInfinity => n = 0
  end.

(** A depth that is not above the depth budget; no depth is above a
    budget that reads as NaN. *)
Definition notAbove (d : nat) (maxDepth : Number) : Prop :=
  match maxDepth with
  | Finite q => (inject_Z (Z.of_nat d) <= q)%Q
  | NaN | PlusInfinity => True
  | MinusInfinity => False
  end.

(** A page budget that admits a first page. *)
Definition admitsOne (maxPages : Number) : Prop :=
  match maxPages with
  | Finite q => (0 < q)%Q
  | PlusInfinity => True
  | NaN | MinusInfinity => False
  end.

(** The budgets and the uniqueness of the visited URLs, with the depth
    at which each was dequeued as [pageData] records it. *)
Definition withinBudgets (c : WebsiteCrawler) : Prop :=
  pagesWithin (length (visitedUrls c)) (maxPages c) /\
  NoDup (visitedUrls c) /\
  forall u, u ∈ visitedUrls c ->
    exists p, pageData c !! u = Some p /\ notAbove (page_depth p) (maxDepth c).

(** A number of pages the loop is sure to stay below. *)
Definition pageBound (maxPages : Number) : nat :=
  match maxPages with
  | Finite q => Z.to_nat (Qceiling q)
  | _ => 0
  end.

(** ** The response rule of the specification

    "the most recent unresolved provisional record with the same
    (url, method)": the last record of the list that matches and has no
    [endTime] yet. *)
Definition unresolved (call : ApiCall) : Prop := endTime call = None.

Definition onResponseSpec (apiCallsForPage : list ApiCall)
    (response : Response) (now : Z) : list ApiCall :=
  let request := resp_request response in
  if isApiRequest (req_url request) (req_resourceType request) then
    match list_find (fun call => sameCall request call /\ unresolved call)
                    (reverse apiCallsForPage) with
    | Some (i, _) =>
        alter (resolve response now) (length apiCallsForPage - 1 - i) apiCallsForPage
    | None => apiCallsForPage
    end
  else apiCallsForPage.

(** ** Sample sites and traffic *)

(** A fetch of /api/orders and a response to it. *)
Definition ordersRequest : Request :=
  {| req_url := "https://x.com/api/orders"; req_method := "GET";
     req_headers := []; req_postData := None; req_resourceType := "fetch" |}.

Definition ordersResponse (code : Z) (text : string) : Response :=
  {| resp_request := ordersRequest; resp_status := code;
     resp_statusText := text; resp_headers := [("content-length", "12")] |}.

(** Two requests to one endpoint in flight, and the response to the
    first of them; [lateResponse] is the response to the second. *)
Definition twoInFlight : list NetworkEvent :=
  [ OnRequest ordersRequest "id1" 1000;
    OnRequest ordersRequest "id2" 1010;
    OnResponse (ordersResponse 200 "OK") 1200 ].

Definition lateResponse : Response := ordersResponse 500 "Internal Server Error".

(** The record the request handler builds for [ordersRequest]. *)
Definition inFlight (newId : string) (now : Z) : ApiCall :=
  {| id := newId; url := "https://x.com/api/orders"; method := "GET";
     headers := []; postData := None; resourceType := "fetch";
     startTime := now; page := "https://x.com/"; depth := 0;
     endTime := None; duration := None; status := None;
     statusText := None; responseHeaders := None; responseSize := None |}.

(** The first of the two records, once the first response has come. *)
Definition resolvedCall : ApiCall :=
  resolve (ordersResponse 200 "OK") 1200 (inFlight "id1" 1000).

(** A link to [u], and a page with links to [ls]. *)
Definition mkLink (u : string) : Link :=
  {| link_url := u; link_text := "link"; link_title := EmptyString |}.

Definition mkInfo (ls : list string) : PageInfo :=
  {| links := map mkLink ls; title := "page"; description := EmptyString;
     h1Count := 1; imageCount := 0; scriptCount := 2 |}.

(** A three-page site: the home page links to /a, /b and itself; /a
    times out; /b links back to the home page and to /a. *)
Definition demoSite (u : string) : PageLoad :=
  if String.eqb u "https://x.com/" then
    Loaded twoInFlight
           (mkInfo ["https://x.com/a"; "https://x.com/b"; "https://x.com/"])
           [OnResponse lateResponse 1500]
  else if String.eqb u "https://x.com/a" then
    LoadFailed [] "Navigation timeout of 30000 ms exceeded"
  else Loaded [] (mkInfo ["https://x.com/"; "https://x.com/a"]) [].

(** A site on which every navigation fails. *)
Definition deadSite (u : string) : PageLoad :=
  LoadFailed [] "net::ERR_NAME_NOT_RESOLVED".

(** [new WebsiteCrawler()]: no option given. *)
Definition defaults : Options := {| opt_maxPages := Falsy; opt_maxDepth := Falsy |}.

(** [new WebsiteCrawler({ maxPages: 2.5 })] *)
Definition twoAndAHalfPages : Options :=
  {| opt_maxPages := Truthy (Finite (5 # 2)); opt_maxDepth := Falsy |}.

(** [new WebsiteCrawler({ maxPages: -1 })] *)
Definition minusOnePage : Options :=
  {| opt_maxPages := Truthy (Finite (-1)); opt_maxDepth := Falsy |}.

End CrawlerSpec.

Module CorrelatorSpec.
Import Correlator.
Local Open Scope list_scope.

(** ** A sample page

    The page state counts the simulations run so far; the render time
    grows by 60 ms with each; simulating a call to /api/broken throws. *)
Definition sampleMetrics (page : nat) : Metrics :=
  {| timestamp := 1700000000000 + Z.of_nat page;
     fcp := 800; cls := 0;
     domUpdateTime := 900;
     renderTime := inject_Z (1000 + 60 * Z.of_nat page);
     memory := None;
     resourceCount := 10 + Z.of_nat page |}.

Definition sampleEvaluateMetrics : M nat Metrics :=
  fun page => (Returned (sampleMetrics page), page).

Definition sampleEvaluateSimulation (apiCall : JsObject) : M nat unit :=
  fun page =>
    match apiCall !! "url" with
    | Some (JStr u) =>
        if String.eqb u "https://x.com/api/broken"
        then (Thrown "Execution context was destroyed", page)
        else (Returned tt, S page)
    | _ => (Returned tt, S page)
    end.

Definition sampleWait (ms : JsValue) : M nat unit := fun page => (Returned tt, page).
Definition sampleGoto (u : string) : M nat unit := fun page => (Returned tt, page).

(** An API call record as the crawler leaves it, reduced to three fields. *)
Definition sampleCall (u : string) : JsObject :=
  {[ "url" := JStr u; "method" := JStr "GET"; "duration" := JNum 120%Q ]}.

Definition usersCall : JsObject := sampleCall "https://x.com/api/users".
Definition brokenCall : JsObject := sampleCall "https://x.com/api/broken".
Definition ordersCall : JsObject := sampleCall "https://x.com/api/orders".

(** The record pushed for a call is the call with [frontendImpact] set. *)
Definition enriches (apiCall enhanced : JsObject) : Prop :=
  exists v, enhanced = <["frontendImpact" := v]> apiCall.

End CorrelatorSpec.

Module AlertsSpec.
Import Js Alerts.
Local Open Scope nat_scope.
Local Open Scope list_scope.

(** The alerts of a list that are about one metric, or in one category. *)
Definition forMetric (m : string) (alerts : list Alert) : list Alert :=
  List.filter (fun alert => String.eqb (metric alert) m) alerts.

Definition inCategory (c : string) (alerts : list Alert) : list Alert :=
  List.filter (fun alert => String.eqb (category alert) c) alerts.

(** [errorApiCalls] of the source. *)
Definition errorCalls (calls : list ApiCall) : list ApiCall :=
  List.filter (fun call => statusAtLeast400 (status call)) calls.

(** What a block of the source pushes: nothing, or one alert of the
    block's category and metric. *)
Definition pushesAtMostOne (c m : string) (block : list Alert) : Prop :=
  block = [] \/ exists alert, block = [alert] /\ category alert = c /\ metric alert = m.

(** Every critical alert comes before every warning alert. *)
Definition criticalFirst (alerts : list Alert) : Prop :=
  forall i j a b,
    alerts !! i = Some a -> alerts !! j = Some b ->
    type a = Warning -> type b = Critical -> j < i.

(** Lighthouse results with a slow FCP and a critically slow LCP. *)
Definition slowPaints : LighthouseResults :=
  {| performance := ScoreNum 0.9;
     accessibility := ScoreUndefined;
     lh_details := Some {| fcpRaw := Some 2500%Q; lcpRaw := Some 4500%Q;
                           clsRaw := None; tbtRaw := None;
                           ttiRaw := None; siRaw := None |} |}.

(** A formatted call that answered with [code]. *)
Definition sampleCall (code : Z) : ApiCall :=
  {| endpoint := "/api/orders"; method := "GET"; status := StatusCode code;
     timeTaken := 120; payloadSize := "2KB";
     rawData := Some {| transferSize := Some 2048%Q |} |}.

(** [n] calls of which the first [k] failed with a 500. *)
Definition callsWithErrors (k n : nat) : list ApiCall :=
  repeat (sampleCall 500) k ++ repeat (sampleCall 200) (n - k).

(** 1 when the two metric names are the same, 0 otherwise. *)
Definition indicator (m m' : string) : nat := if String.eqb m m' then 1 else 0.

(** The evaluation policy of the specification: the critical test first,
    the warning test only when the critical one did not fire. *)
Definition policy (firesCritical firesWarning : bool) : list AlertType :=
  if firesCritical then [Critical] else if firesWarning then [Warning] else [].

(** The severities of the alerts about one metric. *)
Definition severities (m : string) (alerts : list Alert) : list AlertType :=
  map type (forMetric m alerts).

(** A raw value of the Lighthouse details; there is none without details. *)
Definition raw (field : Details -> option Q) (lh : LighthouseResults) : option Q :=
  match lh_details lh with
  | Some d => field d
  | None => None
  end.

(** A raw value is checked when it is there and is not zero. *)
Definition whenPresent (v : option Q) (check : Q -> list AlertType) : list AlertType :=
  match v with
  | Some x => if Qeq_bool x 0 then [] else check x
  | None => []
  end.

(** The metrics of the Lighthouse checks and of the API checks, in the
    order of the checks in generatePerformanceAlerts. *)
Definition lighthouseMetrics : list string :=
  [ "First Contentful Paint (FCP)"; "Largest Contentful Paint (LCP)";
    "Cumulative Layout Shift (CLS)"; "Time to Interactive (TTI)";
    "Total Blocking Time (TBT)"; "Speed Index (SI)";
    "Performance Score"; "Accessibility Score" ].

Definition apiMetrics : list string :=
  [ "Slow API Calls"; "API Error Rate"; "Large API Payloads" ].

Definition checkOrder : list string := lighthouseMetrics ++ apiMetrics.

Definition isCritical (alert : Alert) : bool :=
  match type alert with Critical => true | Warning => false end.

Definition isWarning (alert : Alert) : bool :=
  match type alert with Critical => false | Warning => true end.

(** The heading of a section of the displayed text; an empty group has
    no section. *)
Definition heading (title : string) (group : list Alert) : string :=
  match group with
  | [] => ""
  | _ => (title ++ " (" ++ count (length group) ++ ")" ++ nl
          ++ "====================" ++ nl ++ nl)%string
  end.

(** The closing lines of the displayed text. *)
Definition summaryLines (total critical warning : nat) : string :=
  ("SUMMARY" ++ nl
   ++ "====================" ++ nl ++ nl
   ++ "Total Alerts: " ++ count total ++ nl
   ++ "Critical Alerts: " ++ count critical ++ nl
   ++ "Warning Alerts: " ++ count warning ++ nl)%string.

(** [call.rawData?.transferSize], 0 when it is not there. *)
Definition transferred (call : ApiCall) : Q :=
  match rawData call with
  | Some data => match transferSize data with Some size => size | None => 0%Q end
  | None => 0%Q
  end.

(** Lighthouse results with every raw value and score in the warning
    band. *)
Definition allWarnings : LighthouseResults :=
  {| performance := ScoreNum 0.6;
     accessibility := ScoreNum 0.7;
     lh_details := Some {| fcpRaw := Some 2999%Q; lcpRaw := Some 2500%Q;
                           clsRaw := Some 0.1%Q; tbtRaw := Some 300%Q;
                           ttiRaw := Some 3800%Q; siRaw := Some 3400%Q |} |}.

(** A call that took 1000 ms and transferred 2 MB. *)
Definition slowCall : ApiCall :=
  {| endpoint := "/api/report"; method := "GET"; status := StatusCode 200;
     timeTaken := 1000; payloadSize := "2MB";
     rawData := Some {| transferSize := Some 2097152%Q |} |}.

End AlertsSpec.

Module CrawlTerms.
Import Classifier Crawler.
Local Open Scope nat_scope.
Local Open Scope list_scope.

(** [p.parentUrl] *)
Definition page_parent (p : PageRecord) : option string :=
  match p with
  | PageOk _ _ _ parentUrl _ => parentUrl
  | PageError _ _ parentUrl => parentUrl
  end.

(** [p.apiCalls] of the record kept for a URL; a failed page has none. *)
Definition page_apiCalls (p : option PageRecord) : nat :=
  match p with
  | Some (PageOk _ _ _ _ n) => n
  | _ => 0
  end.

(** The depth [pageData] records for a URL. *)
Definition depthOf (pd : gmap string PageRecord) (u : string) : nat :=
  default 0 (page_depth <$> pd !! u).

(** A page or queue entry of depth [d] hangs below its parent: no parent
    at depth 0, or a recorded parent one level up. *)
Definition belowParent (pd : gmap string PageRecord)
    (parent : option string) (d : nat) : Prop :=
  match parent with
  | None => d = 0
  | Some P => exists pp, pd !! P = Some pp /\ d = page_depth pp + 1
  end.

(** The ids drawn for the API-classified requests of an event sequence. *)
Fixpoint observedIds (events : list NetworkEvent) : list string :=
  match events with
  | [] => []
  | OnRequest request newId _ :: rest =>
      if isApiRequest (req_url request) (req_resourceType request)
      then newId :: observedIds rest
      else observedIds rest
  | OnResponse _ _ :: rest => observedIds rest
  end.

(** The event is a response to a request with the (url, method) of
    [call]. *)
Definition answers (call : ApiCall) (ev : NetworkEvent) : Prop :=
  match ev with
  | OnRequest _ _ _ => False
  | OnResponse response _ => sameCall (resp_request response) call
  end.

#[global] Instance answers_dec call ev : Decision (answers call ev).
Proof. destruct ev; simpl; apply _. Defined.

(** A response from another endpoint. *)
Definition usersResponse : Response :=
  {| resp_request :=
       {| req_url := "https://x.com/api/users"; req_method := "GET";
          req_headers := []; req_postData := None; req_resourceType := "xhr" |};
     resp_status := 200; resp_statusText := "OK"; resp_headers := [] |}.

(** The queue entry pushed for a link found on [currentUrl]. *)
Definition childEntry (currentUrl : string) (depth : nat) (u : string) : QueueEntry :=
  {| q_url := u; q_depth := depth + 1; q_parentUrl := Some currentUrl |}.

(** A record made on page [currentUrl] at [depth] for a request the
    classifier accepts. *)
Definition recordedOn (currentUrl : string) (depth : nat) (call : ApiCall) : Prop :=
  isApiRequest (url call) (resourceType call) = true /\
  page call = currentUrl /\ Crawler.depth call = depth.

(** Numbers that never go down along the list. *)
Fixpoint nondecreasing (l : list nat) : Prop :=
  match l with
  | [] => True
  | x :: l' => Forall (fun y => x <= y) l' /\ nondecreasing l'
  end.

(** What holds of the crawler and its queue at every turn of the loop. *)
Record crawlInvariant (c : WebsiteCrawler) (q : list QueueEntry) : Prop := {
  inv_domain : forall u, u ∈ visitedUrls c <-> is_Some (pageData c !! u);
  inv_pages : forall u p, pageData c !! u = Some p ->
    belowParent (pageData c) (page_parent p) (page_depth p);
  inv_queue :
    Forall (fun e => belowParent (pageData c) (q_parentUrl e) (q_depth e)) q;
  inv_calls :
    Forall (fun call =>
              isApiRequest (url call) (resourceType call) = true /\
              exists p, pageData c !! page call = Some p /\
                        page_depth p = depth call) (apiCalls c);
  inv_count :
    length (apiCalls c)
    = sum_list_with (fun u => page_apiCalls (pageData c !! u)) (visitedUrls c);
  inv_bfs_visited : nondecreasing (map (depthOf (pageData c)) (visitedUrls c));
  inv_bfs_queue : nondecreasing (map q_depth q);
  inv_bfs_between :
    Forall (fun u => Forall (fun e => depthOf (pageData c) u <= q_depth e) q)
           (visitedUrls c);
  inv_bfs_gap :
    match q with
    | [] => True
    | e :: _ => Forall (fun e' => q_depth e' <= q_depth e + 1) q
    end;
}.

End CrawlTerms.

Module FilterTerms.
Import Classifier ClassifierSpec.

(** [needle] occurs somewhere in [url], character for character. *)
Definition containsExactly (url needle : string) : Prop :=
  exists pre post, chars url = (pre ++ chars needle ++ post)%list.

End FilterTerms.

Module TimingTerms.
Import Js Timing.
Local Open Scope Q_scope.

(** A record with a [timing] object that lacks [requestTime], and no
    other timestamp. *)
Definition halfTimedCall : NetworkRequest :=
  {| url := "https://x.com/api/users";
     endTime := None; startTime := None;
     networkEndTime := None; networkRequestTime := None;
     responseReceivedTime := None; requestTime := None;
     finished := None; started := None;
     timing := Some {| receiveHeadersEnd := Some 30; timing_requestTime := None |};
     transferSize := Some 100000; resourceSize := None |}.

End TimingTerms.

Module AlertTerms.
Import Js Alerts.
Local Open Scope list_scope.

(** Results of a run in which Lighthouse gave no accessibility score:
    lighthouse-service.js stores [null]. *)
Definition noAccessibilityScore : LighthouseResults :=
  {| performance := ScoreNum 0.9; accessibility := ScoreNull; lh_details := None |}.

End AlertTerms.

Module AnalyzerTerms.
Import Js Analyzer.
Local Open Scope list_scope.

(** Numbers that never go up along the list. *)
Fixpoint nonincreasing (l : list Z) : Prop :=
  match l with
  | [] => True
  | x :: l' => Forall (fun y => y <= x) l' /\ nonincreasing l'
  end.

(** The entries that took [t] ms, in the order of the list. *)
Definition took (t : Z) (l : list FormattedCall) : list FormattedCall :=
  List.filter (fun call => timeTaken call =? t) l.

(** A formatted call of [t] ms and [size] bytes. *)
Definition formatted (path : string) (t : Z) (size : Q) : FormattedCall :=
  {| endpoint := path; method := "GET"; status := Alerts.StatusCode 200;
     timeTaken := t; payloadSize := ""; errors := "-";
     rawData := {| Alerts.transferSize := Some size |} |}.

Definition threeCalls : list FormattedCall :=
  [ formatted "/api/a" 120 2048; formatted "/api/b" 900 2000000;
    formatted "/api/c" 120 512 ].

End AnalyzerTerms.

Module ServerTerms.
Import Js Crawler Correlator Server CrawlerSpec.
Local Open Scope list_scope.

(** A crawler record that took [d] ms on page [p] and got status [s]. *)
Definition answered (p : string) (d s : Z) : ApiCall :=
  {| id := "id"; url := "https://x.com/api/items"; method := "GET"; headers := [];
     postData := None; resourceType := "fetch"; startTime := 1000; page := p;
     depth := 0; endTime := Some (1000 + d)%Z; duration := Some d;
     status := Some s; statusText := Some "";
     responseHeaders := Some []; responseSize := Some Zero |}.

Definition enhancedSample : list EnhancedCall :=
  [ {| apiCall := answered "https://x.com/" 1200 200; frontendImpact := JUndefined |};
    {| apiCall := answered "https://x.com/" 1500 500; frontendImpact := JUndefined |};
    {| apiCall := answered "https://x.com/a" 300 200; frontendImpact := JUndefined |} ].

(** Options that ask for more than the route grants. *)
Definition greedy : Options :=
  {| opt_maxPages := Truthy (Js.Finite 500); opt_maxDepth := Truthy (Js.Finite 40) |}.

(** A budget that is a number of at most [cap], or minus infinity. *)
Definition cappedBy (m : Js.Number) (cap : Q) : Prop :=
  match m with
  | Js.Finite q => (q <= cap)%Q
  | Js.MinusInfinity => True
  | Js.NaN | Js.PlusInfinity => False
  end.

(** The route's view of the crawler's records before the correlator has
    a [frontendImpact] for them. *)
Definition plain (call : ApiCall) : EnhancedCall :=
  {| apiCall := call; frontendImpact := JUndefined |}.

End ServerTerms.

Module QueryLogTerms.
Import QueryLog.
Local Open Scope list_scope.

(** The durations of the resolved executions of the queries with key
    [k], in order. *)
Fixpoint durationsOf (trim : string -> string) (k : string)
    (executions : list (string * QueryOutcome)) : list Q :=
  match executions with
  | [] => []
  | (q, Resolved d) :: rest =>
      if String.eqb (trim q) k then d :: durationsOf trim k rest
      else durationsOf trim k rest
  | (_, Rejected _) :: rest => durationsOf trim k rest
  end.

Definition sumQ (l : list Q) : Q := fold_right Qplus 0%Q l.

(** What a log entry says, given the durations recorded under its key. *)
Definition summarises (k : string) (ds : list Q) (entry : option Log) : Prop :=
  match entry with
  | Some log =>
      query log = k /\ calls log = Z.of_nat (length ds) /\ (0 < calls log)%Z /\
      (total_time log == sumQ ds)%Q /\
      (avg_time log == total_time log / inject_Z (calls log))%Q
  | None => ds = []
  end.

(** A stand-in for [trim] that removes one leading blank. *)
Definition trimOne (s : string) : string :=
  match s with
  | String " " s' => s'
  | _ => s
  end.

Definition sampleExecutions : list (string * QueryOutcome) :=
  [ ("SELECT 1", Resolved 5003%Q); (" SELECT 1", Resolved 5010%Q);
    ("SELECT 2", Rejected "ER_NO_SUCH_TABLE"); ("SELECT 3", Resolved 5001%Q) ].

End QueryLogTerms.

(* ===================================================================== *)
(** * Properties of the API classifier *)
(* ===================================================================== *)

Module ClassifierFacts.
Import Classifier ClassifierSpec.

Lemma match_here_digits anchored p a s :
  match_here anchored (Digits :: p) (a :: s) =
  is_digit a && (match_here anchored p s || match_here anchored (Digits :: p) s).
Proof. reflexivity. Qed.

Lemma match_here_sound anchored p : forall s,
  match_here anchored p s = true ->
  exists mid post, s = (mid ++ post)%list /\ Matches p mid /\
                   (anchored = true -> post = []).
Proof.
  induction p as [|[c|] p IH]; intros s H.
  - exists [], s. split; [reflexivity|]. split; [constructor|].
    intros ->. simpl in H. destruct s; [reflexivity | discriminate].
  - destruct s as [|a s]; simpl in H; [discriminate|].
    apply andb_prop in H as [Hc H].
    destruct (IH _ H) as (mid & post & -> & Hm & Hp).
    exists (a :: mid), post. repeat split; auto. by constructor.
  - induction s as [|a s IHs]; [discriminate|].
    rewrite match_here_digits in H.
    apply andb_prop in H as [Hd H].
    apply orb_prop in H as [H|H].
    + destruct (IH _ H) as (mid & post & -> & Hm & Hp).
      exists ([a] ++ mid)%list, post. repeat split; auto.
      constructor; [discriminate | simpl; by rewrite Hd | done].
    + destruct (IHs H) as (mid & post & -> & Hm & Hp).
      inversion Hm as [| |p' ds s' Hne Hds Hs']; subst.
      exists ((a :: ds) ++ s')%list, post.
      split; [reflexivity|]. split; [|done].
      constructor; [discriminate | simpl; by rewrite Hd | done].
Qed.

Lemma match_here_digits_run anchored p ds rest :
  ds <> [] -> forallb is_digit ds = true ->
  match_here anchored p rest = true ->
  match_here anchored (Digits :: p) (ds ++ rest) = true.
Proof.
  intros Hne Hds Hrest. induction ds as [|d ds IH]; [done|].
  simpl in Hds. apply andb_prop in Hds as [Hd Hds].
  change ((d :: ds) ++ rest)%list with (d :: (ds ++ rest))%list.
  rewrite match_here_digits, Hd, andb_true_l.
  destruct ds as [|d' ds].
  - cbn [app]. by rewrite Hrest.
  - rewrite IH; [apply orb_true_r | discriminate | done].
Qed.

Lemma match_here_complete anchored p mid post :
  Matches p mid -> (anchored = true -> post = []) ->
  match_here anchored p (mid ++ post) = true.
Proof.
  intros Hm Hp. induction Hm as [|c p a s Hc Hm IH|p ds s Hne Hds Hm IH].
  - simpl. destruct anchored; [|reflexivity]. by rewrite Hp.
  - simpl. by rewrite Hc, IH.
  - rewrite <- app_assoc. by apply match_here_digits_run.
Qed.

Lemma search_here anchored p s :
  match_here anchored p s = true -> search anchored p s = true.
Proof. intros H. destruct s; simpl; by rewrite H. Qed.

Lemma search_cons anchored p a s :
  search anchored p s = true -> search anchored p (a :: s) = true.
Proof. intros H. simpl. rewrite H. apply orb_true_r. Qed.

Lemma search_spec anchored p s :
  search anchored p s = true <->
  exists pre mid post, s = (pre ++ mid ++ post)%list /\ Matches p mid /\
                       (anchored = true -> post = []).
Proof.
  split.
  - induction s as [|a s IH]; simpl; intros H.
    + rewrite orb_false_r in H.
      destruct (match_here_sound _ _ _ H) as (mid & post & E & Hm & Hp).
      exists [], mid, post. auto.
    + apply orb_prop in H as [H|H].
      * destruct (match_here_sound _ _ _ H) as (mid & post & E & Hm & Hp).
        exists [], mid, post. auto.
      * destruct (IH H) as (pre & mid & post & -> & Hm & Hp).
        exists (a :: pre), mid, post. auto.
  - intros (pre & mid & post & -> & Hm & Hp).
    induction pre as [|a pre IH].
    + apply search_here, (match_here_complete _ _ mid post); assumption.
    + apply search_cons, IH.
Qed.

Lemma Matches_app p1 p2 mid :
  Matches (p1 ++ p2) mid <->
  exists m1 m2, mid = (m1 ++ m2)%list /\ Matches p1 m1 /\ Matches p2 m2.
Proof.
  split.
  - revert mid. induction p1 as [|[c|] p1 IH]; intros mid H.
    + exists [], mid. repeat split; [constructor | exact H].
    + inversion H as [|c' p' a s Hc Hs|]; subst.
      destruct (IH _ Hs) as (m1 & m2 & -> & H1 & H2).
      exists (a :: m1), m2. repeat split; [by constructor | done].
    + inversion H as [| |p' ds s Hne Hds Hs]; subst.
      destruct (IH _ Hs) as (m1 & m2 & -> & H1 & H2).
      exists (ds ++ m1)%list, m2.
      split; [by rewrite app_assoc|]. split; [by constructor | done].
  - intros (m1 & m2 & -> & H1 & H2).
    induction H1 as [|c p a s Hc H1 IH|p ds s Hne Hds H1 IH]; simpl.
    + exact H2.
    + by constructor.
    + rewrite <- app_assoc. by constructor.
Qed.

Lemma ci_eqb_true a c : ci_eqb a c = true <-> canonicalize a = canonicalize c.
Proof. apply Ascii.eqb_eq. Qed.

Lemma Matches_lits l mid :
  Matches (map Lit l) mid <-> sameIgnoringCase mid l.
Proof.
  unfold sameIgnoringCase. revert mid.
  induction l as [|c l IH]; intros mid; simpl.
  - split.
    + inversion 1. reflexivity.
    + destruct mid; [constructor | discriminate].
  - split.
    + inversion 1 as [|c' p' a s Hc Hs|]; subst. simpl.
      f_equal; [by apply ci_eqb_true | by apply IH].
    + destruct mid as [|a mid]; [discriminate|]. simpl. intros [= Ha Hm].
      constructor; [by apply ci_eqb_true | by apply IH].
Qed.

Lemma Matches_digits ds :
  Matches [Digits] ds <-> ds <> [] /\ forallb is_digit ds = true.
Proof.
  split.
  - inversion 1 as [| |p' ds' s Hne Hds Hs]; subst.
    inversion Hs; subst. rewrite app_nil_r. tauto.
  - intros [Hne Hds]. rewrite <- (app_nil_r ds).
    constructor; [done | done | constructor].
Qed.

Lemma test_contains url needle :
  test (Regex (lits needle) false) url = true <-> containsIgnoringCase url needle.
Proof.
  unfold test, containsIgnoringCase, lits, chars. simpl. rewrite search_spec.
  split.
  - intros (pre & mid & post & E & Hm & _). exists pre, mid, post.
    split; [done | by apply Matches_lits].
  - intros (pre & mid & post & E & Hm). exists pre, mid, post.
    split; [done|]. split; [by apply Matches_lits | done].
Qed.

Lemma test_endsWith url suffix :
  test (Regex (lits suffix) true) url = true <-> endsWithIgnoringCase url suffix.
Proof.
  unfold test, endsWithIgnoringCase, lits, chars. simpl. rewrite search_spec.
  split.
  - intros (pre & mid & post & E & Hm & Hp). exists pre, mid.
    rewrite (Hp eq_refl), app_nil_r in E.
    split; [done | by apply Matches_lits].
  - intros (pre & suf & E & Hm). exists pre, suf, [].
    rewrite app_nil_r.
    split; [done|]. split; [by apply Matches_lits | done].
Qed.

Lemma test_version url :
  test (Regex (lits "/v" ++ Digits :: lits "/") false) url = true <->
  hasVersionSegment url.
Proof.
  unfold test, hasVersionSegment. cbn [atoms anchored_end].
  rewrite search_spec. fold (chars url).
  change (Digits :: lits "/") with ([Digits] ++ lits "/")%list.
  split.
  - intros (pre & mid & post & E & Hm & _).
    apply Matches_app in Hm as (v & m2 & -> & Hv & Hm).
    apply Matches_app in Hm as (ds & slash & -> & Hds & Hs).
    apply Matches_lits in Hv, Hs. apply Matches_digits in Hds as [Hne Hds].
    exists pre, v, ds, slash, post.
    rewrite E, <- !app_assoc. done.
  - intros (pre & v & ds & slash & post & E & Hv & Hne & Hds & Hs).
    exists pre, (v ++ ds ++ slash)%list, post.
    split; [by rewrite E, <- !app_assoc|]. split; [|done].
    apply Matches_app. exists v, (ds ++ slash)%list.
    split; [done|]. split; [by apply Matches_lits|].
    apply Matches_app. exists ds, slash.
    split; [done|]. split; [by apply Matches_digits | by apply Matches_lits].
Qed.

Lemma isApiRequest_iff url resourceType :
  isApiRequest url resourceType = true <->
  resourceType = "xhr" \/ resourceType = "fetch" \/ urlLooksLikeApi url.
Proof.
  unfold isApiRequest, urlLooksLikeApi, apiPatterns. cbn [existsb].
  rewrite orb_false_r, !orb_true_iff, !String.eqb_eq.
  rewrite !test_contains, test_endsWith, test_version. tauto.
Qed.

(** The converse direction of the rule with every comparison made
    case-insensitive: what [isApiRequest] accepts, the rule accepts. *)
Lemma isApiRequest_classifySpec url resourceType :
  isApiRequest url resourceType = true -> classifySpec url resourceType.
Proof.
  rewrite isApiRequest_iff. unfold classifySpec.
  intros [-> | [-> | H]].
  - left. reflexivity.
  - right. left. reflexivity.
  - right. right. exact H.
Qed.

(** C5, as stated, fails: the resource type is compared with [===], so
    an upper-case resource type on a URL of no API shape is rejected
    although the all-case-insensitive rule accepts it. *)
Lemma isApiRequest_resourceType_is_case_sensitive :
  ~ (isApiRequest "https://x.com/static/logo.png" "XHR" = true <->
     classifySpec "https://x.com/static/logo.png" "XHR").
Proof.
  intros [_ H].
  assert (Hs : classifySpec "https://x.com/static/logo.png" "XHR")
    by (left; reflexivity).
  specialize (H Hs). vm_compute in H. discriminate.
Qed.

(** C5 (amended): [isApiRequest] is true exactly when the resource type
    is the string xhr or fetch (compared as is), or the URL contains,
    ignoring case, /api/, /graphql, /rest/ or /v<digits>/, or ends,
    ignoring case, in .json; and the three examples of the
    specification evaluate as it says. *)
Theorem isApiRequest_classifies :
  (forall url resourceType,
      isApiRequest url resourceType = true <->
      resourceType = "xhr" \/ resourceType = "fetch" \/ urlLooksLikeApi url) /\
  isApiRequest "https://x.com/api/users" "xhr" = true /\
  isApiRequest "https://x.com/static/logo.png" "other" = false /\
  isApiRequest "https://x.com/data.json" "other" = true.
Proof.
  split; [exact isApiRequest_iff|].
  repeat split; vm_compute; reflexivity.
Qed.

(** The filter of analyzeApiCalls is a different predicate: it compares
    the capitalised resource types and has no .json rule. *)
Example analyzerFilter_differs :
  analyzerFilter "https://x.com/data.json" "other" = false /\
  analyzerFilter "https://x.com/api/users" "xhr" = true /\
  analyzerFilter "https://x.com/static/logo.png" "XHR" = true.
Proof. repeat split; vm_compute; reflexivity. Qed.
End ClassifierFacts.

(* ===================================================================== *)
(** * Properties of the timing estimator *)
(* ===================================================================== *)

Module TimingFacts.
Import Js Timing TimingSpec.
Local Open Scope Q_scope.

Lemma Math_round_mono x y : x <= y -> (Math_round x <= Math_round y)%Z.
Proof.
  intros H. unfold Math_round. apply Qfloor_resp_le. lra.
Qed.

Lemma Math_round_Z z : Math_round (inject_Z z) = z.
Proof.
  unfold Math_round, Qfloor, inject_Z, Qplus. simpl.
  symmetry. apply Z.div_unique with (r := 1%Z); lia.
Qed.

Lemma Math_round_between (lo hi : Z) x :
  inject_Z lo <= x -> x <= inject_Z hi ->
  (lo <= Math_round x <= hi)%Z.
Proof.
  intros Hlo Hhi. split.
  - rewrite <- (Math_round_Z lo). by apply Math_round_mono.
  - rewrite <- (Math_round_Z hi). by apply Math_round_mono.
Qed.

Lemma truthy_Some q : truthy (Some q) = true <-> ~ q == 0.
Proof.
  simpl. rewrite negb_true_iff, <- not_true_iff_false, Qeq_bool_iff. tauto.
Qed.

Lemma ensureMinimum_range t rnd' :
  (t <= 0)%Z -> 0 <= rnd' -> rnd' < 1 ->
  ensureMinimum t rnd' = Math_round (20 + rnd' * 80) /\
  (20 <= ensureMinimum t rnd' <= 100)%Z.
Proof.
  intros Ht H0 H1. unfold ensureMinimum.
  apply Z.leb_le in Ht. rewrite Ht. split; [reflexivity|].
  apply Math_round_between; unfold inject_Z; lra.
Qed.

Lemma ensureMinimum_positive t rnd' :
  0 <= rnd' -> rnd' < 1 -> (0 < ensureMinimum t rnd')%Z.
Proof.
  intros H0 H1. destruct (Z.leb_spec t 0) as [Ht|Ht].
  - destruct (ensureMinimum_range t rnd' Ht H0 H1) as [_ ?]. lia.
  - unfold ensureMinimum. apply Z.leb_gt in Ht. by rewrite Ht; apply Z.leb_gt.
Qed.

Lemma sizeTime_range x : 10 <= Qmax 10 (Qmin 500 x) <= 500.
Proof.
  split.
  - apply Q.le_max_l.
  - apply Q.max_lub; [lra | apply Q.le_min_l].
Qed.

Lemma fallbackChain_method1 call rnd e s :
  endTime call = Some e -> startTime call = Some s ->
  ~ e == 0 -> ~ s == 0 ->
  fallbackChain call rnd = Math_round (e - s).
Proof.
  intros He Hs He0 Hs0. unfold fallbackChain. rewrite He, Hs.
  apply truthy_Some in He0, Hs0. rewrite He0, Hs0. reflexivity.
Qed.

Lemma timeTaken_method1 call rnd rnd' e s :
  endTime call = Some e -> startTime call = Some s ->
  ~ e == 0 -> ~ s == 0 -> (0 < Math_round (e - s))%Z ->
  timeTaken call rnd rnd' = Math_round (e - s).
Proof.
  intros He Hs He0 Hs0 Hpos. unfold timeTaken.
  rewrite (fallbackChain_method1 call rnd e s) by assumption.
  unfold ensureMinimum. apply Z.leb_gt in Hpos. by rewrite Hpos.
Qed.

Lemma fallbackChain_estimate_range u size rnd :
  0 <= rnd -> rnd < 1 ->
  (60 <= fallbackChain (onlyTransferSize u size) rnd <= 650)%Z.
Proof.
  intros H0 H1. unfold fallbackChain, onlyTransferSize. cbn [endTime startTime
    networkEndTime networkRequestTime responseReceivedTime requestTime
    finished started timing truthy andb].
  set (sizeTime := Qmax 10 _).
  assert (Hs : 10 <= sizeTime <= 500) by apply sizeTime_range.
  apply Math_round_between; unfold inject_Z; lra.
Qed.

(** C3, as stated, fails: both timestamps are present, and the output is
    not the rounded difference (which is 0) but the substituted value. *)
Lemma timeTaken_instant_call_is_substituted :
  endTime instantCall = Some 150 /\ startTime instantCall = Some 150 /\
  timeTaken instantCall (1 # 2) (1 # 2) <> Math_round (150 - 150).
Proof. repeat split. vm_compute. discriminate. Qed.

Lemma absent_falsy field : absent field -> truthy field = false.
Proof.
  intros Habs. destruct field as [q|]; [|reflexivity].
  simpl. destruct (Qeq_bool q 0) eqn:E; [reflexivity|].
  exfalso. apply (Habs q). split; [reflexivity|].
  intros Hq. apply Qeq_bool_iff in Hq. congruence.
Qed.

Lemma notBoth_falsy field field' :
  notBoth field field' -> truthy field && truthy field' = false.
Proof.
  intros [H|H]; rewrite (absent_falsy _ H); [reflexivity | apply andb_false_r].
Qed.

Lemma present_truthy field value :
  present field value -> truthy field = true /\ num field = value.
Proof.
  intros [-> Hv]. split; [by apply truthy_Some | reflexivity].
Qed.

Lemma ensureMinimum_postCondition computed rnd' :
  ensureMinimum computed rnd' = postCondition computed rnd'.
Proof.
  unfold ensureMinimum, postCondition.
  destruct (Z.leb_spec computed 0), (Z.ltb_spec 0 computed); try reflexivity; lia.
Qed.

Lemma size_is_transferSizeOrResourceSize call :
  num (or_else (transferSize call) (or_else (resourceSize call) (Some 0)))
  == transferSizeOrResourceSize call.
Proof.
  unfold transferSizeOrResourceSize, or_else.
  destruct (transferSize call) as [t|], (resourceSize call) as [r|]; simpl;
    try destruct (Qeq_bool t 0) eqn:Et; simpl;
    try destruct (Qeq_bool r 0) eqn:Er; simpl; try reflexivity;
    apply Qeq_bool_iff in Er; by rewrite Er.
Qed.

Lemma Math_round_proper x y : x == y -> Math_round x = Math_round y.
Proof.
  intros H. unfold Math_round. apply Qfloor_comp. by rewrite H.
Qed.

(** C3 (amended): the estimator applies rules 1 to 4 in strict order,
    using the first one whose two fields are both present and non-zero:
    [round(endTime - startTime)], then
    [round(networkEndTime - networkRequestTime)], then
    [round((responseReceivedTime - requestTime) * 1000)], then
    [round(finished - started)]; when none of them applies, a [timing]
    sub-object with both fields present and non-zero gives
    [round(receiveHeadersEnd - requestTime)], and a record with no
    [timing] sub-object gets the estimate
    [round(50 + clamp(size / 1000, 10, 500) + random * 100)]; a computed
    value [<= 0] is replaced by [round(20 + random * 80)], in [20, 100].
    In particular, when [endTime] and [startTime] are both present and
    non-zero and their rounded difference is positive, the output is
    [round(endTime - startTime)] whatever the other fields and the draws
    are, so [endTime = 200], [startTime = 150] yields exactly 50. *)
Theorem timeTaken_uses_endTime_startTime_first :
  (forall call rnd rnd' e s,
      endTime call = Some e -> startTime call = Some s ->
      ~ e == 0 -> ~ s == 0 -> (0 < Math_round (e - s))%Z ->
      timeTaken call rnd rnd' = Math_round (e - s)) /\
  (forall call rnd rnd',
      endTime call = Some 200 -> startTime call = Some 150 ->
      timeTaken call rnd rnd' = 50%Z) /\
  (forall call rnd rnd' e s,
      endTime call = Some e -> startTime call = Some s ->
      ~ e == 0 -> ~ s == 0 -> (Math_round (e - s) <= 0)%Z ->
      0 <= rnd' -> rnd' < 1 ->
      timeTaken call rnd rnd' = Math_round (20 + rnd' * 80) /\
      (20 <= timeTaken call rnd rnd' <= 100)%Z) /\
  (forall call rnd rnd' e s,
      present (endTime call) e -> present (startTime call) s ->
      timeTaken call rnd rnd' = postCondition (Math_round (e - s)) rnd') /\
  (forall call rnd rnd' e s,
      notBoth (endTime call) (startTime call) ->
      present (networkEndTime call) e -> present (networkRequestTime call) s ->
      timeTaken call rnd rnd' = postCondition (Math_round (e - s)) rnd') /\
  (forall call rnd rnd' e s,
      notBoth (endTime call) (startTime call) ->
      notBoth (networkEndTime call) (networkRequestTime call) ->
      present (responseReceivedTime call) e -> present (requestTime call) s ->
      timeTaken call rnd rnd'
      = postCondition (Math_round ((e - s) * 1000)) rnd') /\
  (forall call rnd rnd' e s,
      notBoth (endTime call) (startTime call) ->
      notBoth (networkEndTime call) (networkRequestTime call) ->
      notBoth (responseReceivedTime call) (requestTime call) ->
      present (finished call) e -> present (started call) s ->
      timeTaken call rnd rnd' = postCondition (Math_round (e - s)) rnd') /\
  (forall call rnd rnd' sub e s,
      notBoth (endTime call) (startTime call) ->
      notBoth (networkEndTime call) (networkRequestTime call) ->
      notBoth (responseReceivedTime call) (requestTime call) ->
      notBoth (finished call) (started call) ->
      timing call = Some sub ->
      present (receiveHeadersEnd sub) e -> present (timing_requestTime sub) s ->
      timeTaken call rnd rnd' = postCondition (Math_round (e - s)) rnd') /\
  (forall call rnd rnd',
      notBoth (endTime call) (startTime call) ->
      notBoth (networkEndTime call) (networkRequestTime call) ->
      notBoth (responseReceivedTime call) (requestTime call) ->
      notBoth (finished call) (started call) ->
      timing call = None ->
      timeTaken call rnd rnd'
      = postCondition
          (Math_round
             (50 + clamp (transferSizeOrResourceSize call / 1000) 10 500
              + rnd * 100))
          rnd') /\
  (forall computed rnd',
      ((0 < computed)%Z -> postCondition computed rnd' = computed) /\
      ((computed <= 0)%Z -> 0 <= rnd' -> rnd' < 1 ->
       postCondition computed rnd' = Math_round (20 + rnd' * 80) /\
       (20 <= postCondition computed rnd' <= 100)%Z)).
Proof.
  split; [exact timeTaken_method1|]. split; [|split].
  - intros call rnd rnd' He Hs.
    rewrite (timeTaken_method1 call rnd rnd' 200 150); try assumption;
      try reflexivity; discriminate.
  - intros call rnd rnd' e s He Hs He0 Hs0 Hle H0 H1. unfold timeTaken.
    rewrite (fallbackChain_method1 call rnd e s) by assumption.
    by apply ensureMinimum_range.
  - repeat split.
    + intros call rnd rnd' e s [He He0] [Hs Hs0]. unfold timeTaken.
      rewrite (fallbackChain_method1 call rnd e s) by assumption.
      apply ensureMinimum_postCondition.
    + intros call rnd rnd' e s N1 He Hs.
      apply present_truthy in He as [Te Ne], Hs as [Ts Ns].
      unfold timeTaken, fallbackChain.
      rewrite (notBoth_falsy _ _ N1), Te, Ts, Ne, Ns.
      apply ensureMinimum_postCondition.
    + intros call rnd rnd' e s N1 N2 He Hs.
      apply present_truthy in He as [Te Ne], Hs as [Ts Ns].
      unfold timeTaken, fallbackChain.
      rewrite (notBoth_falsy _ _ N1), (notBoth_falsy _ _ N2), Te, Ts, Ne, Ns.
      apply ensureMinimum_postCondition.
    + intros call rnd rnd' e s N1 N2 N3 He Hs.
      apply present_truthy in He as [Te Ne], Hs as [Ts Ns].
      unfold timeTaken, fallbackChain.
      rewrite (notBoth_falsy _ _ N1), (notBoth_falsy _ _ N2),
        (notBoth_falsy _ _ N3), Te, Ts, Ne, Ns.
      apply ensureMinimum_postCondition.
    + intros call rnd rnd' sub e s N1 N2 N3 N4 Hsub He Hs.
      apply present_truthy in He as [Te Ne], Hs as [Ts Ns].
      unfold timeTaken, fallbackChain.
      rewrite (notBoth_falsy _ _ N1), (notBoth_falsy _ _ N2),
        (notBoth_falsy _ _ N3), (notBoth_falsy _ _ N4), Hsub, Te, Ts, Ne, Ns.
      apply ensureMinimum_postCondition.
    + intros call rnd rnd' N1 N2 N3 N4 Hsub.
      unfold timeTaken, fallbackChain.
      rewrite (notBoth_falsy _ _ N1), (notBoth_falsy _ _ N2),
        (notBoth_falsy _ _ N3), (notBoth_falsy _ _ N4), Hsub.
      rewrite ensureMinimum_postCondition. f_equal.
      apply Math_round_proper. unfold clamp.
      by rewrite (size_is_transferSizeOrResourceSize call).
    + intros Hpos. unfold postCondition. apply Z.ltb_lt in Hpos. by rewrite Hpos.
    + rewrite <- ensureMinimum_postCondition.
      by apply ensureMinimum_range.
    + rewrite <- ensureMinimum_postCondition.
      by apply ensureMinimum_range.
    + rewrite <- ensureMinimum_postCondition.
      by apply ensureMinimum_range.
Qed.

Lemma timeTaken_uses_endTime_startTime_first_witness :
  timeTaken exampleCall (1 # 2) (1 # 2) = 50%Z /\
  timeTaken secondsCall (1 # 2) (1 # 2) = 250%Z /\
  timeTaken subObjectCall (1 # 2) (1 # 2) = 20%Z.
Proof.
  destruct timeTaken_uses_endTime_startTime_first
    as (_ & Hexample & _ & _ & _ & Hrule3 & _ & Hrule5 & _).
  split; [|split].
  - apply (Hexample exampleCall); reflexivity.
  - apply (Hrule3 secondsCall (1 # 2) (1 # 2) (5 # 4) 1).
    + left. intros value [Heq Hv]. injection Heq as <-. by apply Hv.
    + left. intros value [Heq _]. discriminate Heq.
    + split; [reflexivity | discriminate].
    + split; [reflexivity | discriminate].
  - apply (Hrule5 subObjectCall (1 # 2) (1 # 2)
             {| receiveHeadersEnd := Some 30; timing_requestTime := Some 10 |}
             30 10).
    + left. intros value [Heq _]. discriminate Heq.
    + left. intros value [Heq _]. discriminate Heq.
    + left. intros value [Heq _]. discriminate Heq.
    + left. intros value [Heq _]. discriminate Heq.
    + reflexivity.
    + split; [reflexivity | discriminate].
    + split; [reflexivity | discriminate].
Defined.

(** C4: the callback never yields a non-positive duration: the [try]
    block replaces a chain value [<= 0] by [round(20 + random * 80)],
    which lies in [20, 100], the [catch] block yields
    [round(50 + random * 100)]; and a record with only a transfer size of
    100000 gets an estimate in [60, 650]. The draws are values of
    [Math.random()], in [0, 1). *)
Theorem timeTaken_is_positive :
  (forall pathname call rnd rnd' rnd'',
      0 <= rnd' -> rnd' < 1 -> 0 <= rnd'' -> rnd'' < 1 ->
      (0 < callbackTimeTaken pathname call rnd rnd' rnd'')%Z) /\
  (forall call rnd rnd',
      0 <= rnd' -> rnd' < 1 -> (fallbackChain call rnd <= 0)%Z ->
      timeTaken call rnd rnd' = Math_round (20 + rnd' * 80) /\
      (20 <= timeTaken call rnd rnd' <= 100)%Z) /\
  (forall u rnd rnd',
      0 <= rnd -> rnd < 1 ->
      (60 <= timeTaken (onlyTransferSize u 100000) rnd rnd' <= 650)%Z /\
      (0 < timeTaken (onlyTransferSize u 100000) rnd rnd')%Z).
Proof.
  split; [|split].
  - intros pathname call rnd rnd' rnd'' H0 H1 H0' H1'.
    unfold callbackTimeTaken. destruct (pathname (url call)).
    + by apply ensureMinimum_positive.
    + assert (50 <= Math_round (50 + rnd'' * 100) <= 150)%Z
        by (apply Math_round_between; unfold inject_Z; lra).
      lia.
  - intros call rnd rnd' H0 H1 Hle. by apply ensureMinimum_range.
  - intros u rnd rnd' H0 H1.
    pose proof (fallbackChain_estimate_range u 100000 rnd H0 H1) as Hr.
    unfold timeTaken, ensureMinimum.
    destruct (Z.leb_spec (fallbackChain (onlyTransferSize u 100000) rnd) 0); lia.
Qed.

Lemma timeTaken_is_positive_witness :
  (0 < callbackTimeTaken (fun _ => None) exampleCall (1 # 2) (1 # 2) (1 # 2))%Z /\
  (timeTaken instantCall (1 # 2) (1 # 2) = Math_round (20 + (1 # 2) * 80) /\
   (20 <= timeTaken instantCall (1 # 2) (1 # 2) <= 100)%Z) /\
  ((60 <= timeTaken (onlyTransferSize "https://x.com/big" 100000) (1 # 2) (1 # 2) <= 650)%Z /\
   (0 < timeTaken (onlyTransferSize "https://x.com/big" 100000) (1 # 2) (1 # 2))%Z).
Proof.
  destruct timeTaken_is_positive as (H1 & H2 & H3).
  split; [|split].
  - apply H1; vm_compute; congruence.
  - apply H2; vm_compute; congruence.
  - apply H3; vm_compute; congruence.
Defined.
End TimingFacts.

(* ===================================================================== *)
(** * Properties of the crawl scheduler *)
(* ===================================================================== *)

Module CrawlerFacts.
Import Js Classifier Crawler CrawlerSpec.
Local Open Scope nat_scope.
Local Open Scope list_scope.

Section WithBrowser.
Variable browser : string -> PageLoad.

Lemma Set_has_true x s : Set_has x s = true <-> x ∈ s.
Proof. unfold Set_has. apply bool_decide_eq_true. Qed.

Lemma Set_has_false x s : Set_has x s = false <-> x ∉ s.
Proof. unfold Set_has. apply bool_decide_eq_false. Qed.

Lemma Set_add_new x s : x ∉ s -> Set_add x s = s ++ [x].
Proof. intros H. unfold Set_add. apply Set_has_false in H. by rewrite H. Qed.

(** Enqueuing links touches only [discoveredUrls] and the queue. *)
Lemma enqueueLinks_frame currentUrl depth ls : forall c q,
  let st := fold_left (enqueueLink currentUrl depth) ls (c, q) in
  maxPages st.1 = maxPages c /\ maxDepth st.1 = maxDepth c /\
  visitedUrls st.1 = visitedUrls c /\ pageData st.1 = pageData c /\
  apiCalls st.1 = apiCalls c.
Proof.
  induction ls as [|l ls IH]; intros c q; simpl; [done|].
  destruct (negb (Set_has (link_url l) (visitedUrls c)) &&
            negb (bool_decide (link_url l ∈ discoveredUrls c))).
  - specialize (IH (set_discoveredUrls c ({[link_url l]} ∪ discoveredUrls c))
                   (q ++ [ {| q_url := link_url l; q_depth := depth + 1;
                              q_parentUrl := Some currentUrl |} ])).
    simpl in IH. exact IH.
  - apply IH.
Qed.

(** What a visit does to the state the budgets speak of. *)
Lemma visitPage_effect c entry rest :
  let st := visitPage browser c entry rest in
  maxPages st.1 = maxPages c /\ maxDepth st.1 = maxDepth c /\
  visitedUrls st.1 = Set_add (q_url entry) (visitedUrls c) /\
  exists p, pageData st.1 = <[q_url entry := p]> (pageData c) /\
            page_depth p = q_depth entry.
Proof.
  unfold visitPage. destruct (browser (q_url entry)) as [evs msg|evs info later].
  - simpl. repeat split; eauto.
  - match goal with |- context [fold_left ?f ?ls (?c0, ?q0)] =>
      pose proof (enqueueLinks_frame (q_url entry) (q_depth entry) ls c0 q0) as H
    end.
    simpl in H |- *. destruct H as (H1 & H2 & H3 & H4 & H5).
    rewrite H1, H2, H3, H4. repeat split; eauto.
Qed.

(** ** The comparisons of the loop, in plain arithmetic *)

Lemma Number_lt_pagesWithin n m :
  Number_lt (Number_of_nat n) m = true -> pagesWithin (S n) m.
Proof.
  destruct m as [q| | |]; simpl; try done.
  intros H. right. apply negb_true_iff, not_true_iff_false in H.
  rewrite Qle_bool_iff in H. apply Qnot_le_lt in H.
  rewrite Nat2Z.inj_succ, <- Z.add_1_r, inject_Z_plus.
  change (inject_Z 1) with 1%Q. lra.
Qed.

Lemma Number_lt_notAbove d m :
  Number_lt m (Number_of_nat d) = false -> notAbove d m.
Proof.
  destruct m as [q| | |]; simpl; try done.
  intros H. apply negb_false_iff, Qle_bool_iff in H. exact H.
Qed.

Lemma Number_lt_admitsOne m :
  Number_lt (Number_of_nat 0) m = true <-> admitsOne m.
Proof.
  destruct m as [q| | |]; simpl; try done.
  rewrite negb_true_iff, <- not_true_iff_false, Qle_bool_iff.
  change (inject_Z (Z.of_nat 0)) with 0%Q.
  split; [apply Qnot_le_lt | apply Qlt_not_le].
Qed.

Lemma Number_lt_pageBound n m :
  Number_lt (Number_of_nat n) m = true -> m <> PlusInfinity -> n < pageBound m.
Proof.
  destruct m as [q| | |]; simpl; try done.
  intros H _. apply negb_true_iff, not_true_iff_false in H.
  rewrite Qle_bool_iff in H. apply Qnot_le_lt in H.
  assert (Hc : (q <= inject_Z (Qceiling q))%Q) by apply Qle_ceiling.
  assert (Hlt : (inject_Z (Z.of_nat n) < inject_Z (Qceiling q))%Q) by lra.
  rewrite <- Zlt_Qlt in Hlt. lia.
Qed.

(** A whole budget bounds the number of pages. *)
Lemma pagesWithin_whole n (k : nat) :
  pagesWithin n (Number_of_nat k) -> n <= k.
Proof.
  simpl. intros [->|H]; [lia|].
  change 1%Q with (inject_Z 1) in H.
  rewrite <- inject_Z_plus, <- Zlt_Qlt in H. lia.
Qed.

(** A whole depth budget bounds the depth. *)
Lemma notAbove_whole d (k : nat) : notAbove d (Number_of_nat k) -> d <= k.
Proof. simpl. rewrite <- Zle_Qle. lia. Qed.

Lemma visitPage_withinBudgets c entry rest :
  withinBudgets c ->
  Number_lt (Number_of_nat (length (visitedUrls c))) (maxPages c) = true ->
  q_url entry ∉ visitedUrls c ->
  Number_lt (maxDepth c) (Number_of_nat (q_depth entry)) = false ->
  withinBudgets (visitPage browser c entry rest).1.
Proof.
  intros (Hlen & Hnd & Hdepth) Hlt Hnew Hd.
  destruct (visitPage_effect c entry rest) as (Hp & Hm & Hv & p & Hpd & Hpdepth).
  unfold withinBudgets. rewrite Hp, Hm, Hv, Hpd, (Set_add_new _ _ Hnew).
  split; [|split].
  - rewrite length_app, Nat.add_1_r. by apply Number_lt_pagesWithin.
  - apply NoDup_app. split; [done|]. split; [|apply NoDup_singleton].
    intros x Hx Hx'. apply list_elem_of_singleton in Hx'. by subst.
  - intros u Hu. apply elem_of_app in Hu as [Hu|Hu].
    + destruct (decide (u = q_url entry)) as [->|Hne]; [done|].
      rewrite lookup_insert_ne by done. by apply Hdepth.
    + apply list_elem_of_singleton in Hu as ->.
      exists p. rewrite lookup_insert_eq. split; [done|].
      rewrite Hpdepth. by apply Number_lt_notAbove.
Qed.

Lemma crawlStep_withinBudgets c q c' q' :
  withinBudgets c -> crawlStep browser c q = Some (c', q') ->
  withinBudgets c' /\ maxPages c' = maxPages c /\ maxDepth c' = maxDepth c.
Proof.
  intros Hinv Hstep. unfold crawlStep in Hstep.
  destruct q as [|entry rest]; [discriminate|].
  destruct (Number_lt (Number_of_nat (length (visitedUrls c))) (maxPages c))
    eqn:Hlt; [|discriminate].
  destruct (Set_has (q_url entry) (visitedUrls c)) eqn:Hhas; simpl in Hstep.
  { by inversion Hstep; subst. }
  destruct (Number_lt (maxDepth c) (Number_of_nat (q_depth entry))) eqn:Hd.
  { by inversion Hstep; subst. }
  apply Set_has_false in Hhas.
  destruct (visitPage_effect c entry rest) as (Hp & Hm & _).
  inversion Hstep as [Hst]. rewrite Hst in *. simpl in *.
  split; [|done].
  pose proof (visitPage_withinBudgets c entry rest Hinv Hlt Hhas Hd) as H.
  by rewrite Hst in H.
Qed.

Lemma crawlLoop_done fuel c q :
  crawlStep browser c q = None -> crawlLoop browser fuel c q = Some c.
Proof. intros H. destruct fuel; cbn -[crawlStep]; by rewrite H. Qed.

Lemma crawlLoop_step fuel c q c1 q1 :
  crawlStep browser c q = Some (c1, q1) ->
  crawlLoop browser (S fuel) c q = crawlLoop browser fuel c1 q1.
Proof. intros H. cbn -[crawlStep]. by rewrite H. Qed.

Lemma crawlLoop_withinBudgets fuel : forall c q c',
  withinBudgets c -> crawlLoop browser fuel c q = Some c' ->
  withinBudgets c' /\ maxPages c' = maxPages c /\ maxDepth c' = maxDepth c.
Proof.
  induction fuel as [|fuel IH]; intros c q c' Hinv Hloop;
    destruct (crawlStep browser c q) as [[c1 q1]|] eqn:Hstep;
    try (rewrite (crawlLoop_done _ _ _ Hstep) in Hloop; by inversion Hloop; subst).
  { cbn -[crawlStep] in Hloop. rewrite Hstep in Hloop. discriminate. }
  rewrite (crawlLoop_step _ _ _ _ _ Hstep) in Hloop.
  destruct (crawlStep_withinBudgets _ _ _ _ Hinv Hstep) as (Hinv1 & Hp & Hm).
  destruct (IH _ _ _ Hinv1 Hloop) as (? & ? & ?).
  split; [done|]. split; congruence.
Qed.

(** The crawler the loop ends with does not depend on the fuel. *)
Lemma crawlLoop_fuel_irrelevant fuel1 : forall fuel2 c q c1 c2,
  crawlLoop browser fuel1 c q = Some c1 ->
  crawlLoop browser fuel2 c q = Some c2 -> c1 = c2.
Proof.
  induction fuel1 as [|fuel1 IH]; intros fuel2 c q c1 c2 H1 H2;
    destruct (crawlStep browser c q) as [[c' q']|] eqn:Hstep;
    try (rewrite (crawlLoop_done _ _ _ Hstep) in H1;
         rewrite (crawlLoop_done _ _ _ Hstep) in H2; congruence).
  { cbn -[crawlStep] in H1. rewrite Hstep in H1. discriminate. }
  destruct fuel2 as [|fuel2].
  { cbn -[crawlStep] in H2. rewrite Hstep in H2. discriminate. }
  rewrite (crawlLoop_step _ _ _ _ _ Hstep) in H1.
  rewrite (crawlLoop_step _ _ _ _ _ Hstep) in H2. by eapply IH.
Qed.

(** The loop ends when the page budget is not infinite: a turn either
    drops the head of the queue or adds a URL to [visitedUrls], whose
    size the budget bounds. *)
Lemma crawlLoop_terminates : forall n c q,
  maxPages c <> PlusInfinity ->
  pageBound (maxPages c) - length (visitedUrls c) <= n ->
  exists fuel c', crawlLoop browser fuel c q = Some c'.
Proof.
  induction n as [|n IHn]; intros c q Hfin Hn.
  - exists 0, c. apply crawlLoop_done. unfold crawlStep.
    destruct q as [|entry rest]; [done|].
    destruct (Number_lt (Number_of_nat (length (visitedUrls c))) (maxPages c))
      eqn:Hlt; [|done].
    apply Number_lt_pageBound in Hlt; [lia | done].
  - induction q as [|entry rest IHq].
    + exists 0, c. reflexivity.
    + destruct (crawlStep browser c (entry :: rest)) as [[c1 q1]|] eqn:Hstep.
      2: { exists 0, c. by apply crawlLoop_done. }
      assert (exists fuel c', crawlLoop browser fuel c1 q1 = Some c') as (fuel & c' & H).
      { unfold crawlStep in Hstep.
        destruct (Number_lt (Number_of_nat (length (visitedUrls c))) (maxPages c))
          eqn:Hlt; [|discriminate].
        destruct (Set_has (q_url entry) (visitedUrls c)) eqn:Hhas; simpl in Hstep.
        { inversion Hstep; subst. exact IHq. }
        destruct (Number_lt (maxDepth c) (Number_of_nat (q_depth entry))).
        { inversion Hstep; subst. exact IHq. }
        apply Set_has_false in Hhas.
        destruct (visitPage_effect c entry rest) as (Hp & _ & Hv & _).
        inversion Hstep as [Hst]. rewrite Hst in *. simpl in *.
        apply Number_lt_pageBound in Hlt; [|done].
        apply IHn; [by rewrite Hp|].
        rewrite Hp, Hv, (Set_add_new _ _ Hhas), length_app. simpl. lia. }
      exists (S fuel), c'. by rewrite (crawlLoop_step _ _ _ _ _ Hstep).
Qed.

Lemma crawlWebsite_withinBudgets fuel c baseUrl c' r :
  withinBudgets c -> crawlWebsite browser fuel c baseUrl = Some (c', r) ->
  pagesWithin (length (r_visitedUrls r)) (maxPages c) /\
  NoDup (r_visitedUrls r) /\
  forall u, u ∈ r_visitedUrls r ->
    exists p, r_pageData r !! u = Some p /\ notAbove (page_depth p) (maxDepth c).
Proof.
  intros Hinv Hrun. unfold crawlWebsite in Hrun.
  destruct (crawlLoop browser fuel c _) as [c1|] eqn:Hloop; [|discriminate].
  inversion Hrun; subst. simpl.
  destruct (crawlLoop_withinBudgets _ _ _ _ Hinv Hloop) as ((H1 & H2 & H3) & Hp & Hm).
  rewrite <- Hp, <- Hm. done.
Qed.

Lemma new_WebsiteCrawler_withinBudgets options :
  withinBudgets (new_WebsiteCrawler options).
Proof.
  unfold withinBudgets. simpl. split; [|split; [constructor|]].
  - by destruct (or_default (opt_maxPages options) 20); simpl; auto.
  - intros u Hu. by apply elem_of_nil in Hu.
Qed.

(** With [maxPages = -1] the loop admits no page. *)
Lemma crawlWebsite_negative_budget_visits_nothing :
  exists c r,
    crawlWebsite demoSite 10 (new_WebsiteCrawler minusOnePage) "https://x.com/"
    = Some (c, r) /\
    maxPages (new_WebsiteCrawler minusOnePage) = Finite (-1) /\
    r_visitedUrls r = [] /\ totalPages r = 0.
Proof.
  eexists. eexists. split; [vm_compute; reflexivity|]. by repeat split.
Qed.

(** C1, as stated, fails: the budgets are kept as given, and with
    [maxPages = 2.5] the loop admits a third page, since 2 < 2.5. *)
Lemma crawlWebsite_fractional_budget_admits_a_third_page :
  exists c r,
    crawlWebsite demoSite 10 (new_WebsiteCrawler twoAndAHalfPages) "https://x.com/"
    = Some (c, r) /\
    maxPages (new_WebsiteCrawler twoAndAHalfPages) = Finite (5 # 2) /\
    r_visitedUrls r = ["https://x.com/"; "https://x.com/a"; "https://x.com/b"] /\
    ~ (inject_Z (Z.of_nat (length (r_visitedUrls r))) <= 5 # 2)%Q.
Proof.
  eexists. eexists. split; [vm_compute; reflexivity|].
  split; [reflexivity|]. split; [reflexivity|].
  vm_compute. intros H. by apply H.
Qed.

(** C1 (amended): a run of [crawlWebsite] on a new crawler ends when
    [maxPages] is not infinite, and in what it returns [visitedUrls]
    holds no URL twice, every URL in it was dequeued at a depth that is
    not above [maxDepth] (the depth [pageData] records for it), and the
    number of its entries is 0 or less than [maxPages + 1]: at most
    [maxPages] for a whole budget, one more for a fractional one, none
    for a negative one. *)
Theorem crawlWebsite_respects_budgets options baseUrl :
  let crawler := new_WebsiteCrawler options in
  (maxPages crawler <> PlusInfinity ->
   exists fuel c r, crawlWebsite browser fuel crawler baseUrl = Some (c, r)) /\
  (forall fuel c r,
      crawlWebsite browser fuel crawler baseUrl = Some (c, r) ->
      NoDup (r_visitedUrls r) /\
      (forall u, u ∈ r_visitedUrls r ->
         exists p, r_pageData r !! u = Some p /\
                   notAbove (page_depth p) (maxDepth crawler)) /\
      pagesWithin (length (r_visitedUrls r)) (maxPages crawler) /\
      (forall k : nat, maxPages crawler = Number_of_nat k ->
         length (r_visitedUrls r) <= k) /\
      (forall q, maxPages crawler = Finite q -> (q <= 0)%Q ->
         r_visitedUrls r = []) /\
      (forall k : nat, maxDepth crawler = Number_of_nat k ->
         forall u p, u ∈ r_visitedUrls r -> r_pageData r !! u = Some p ->
           page_depth p <= k)).
Proof.
  intros crawler. split.
  - intros Hfin.
    destruct (crawlLoop_terminates (pageBound (maxPages crawler)) crawler
                [ {| q_url := baseUrl; q_depth := 0; q_parentUrl := None |} ])
      as (fuel & c & H); [done | lia |].
    exists fuel, c, (generateCrawlResults c). unfold crawlWebsite. by rewrite H.
  - intros fuel c r H.
    destruct (crawlWebsite_withinBudgets fuel crawler baseUrl c r
                (new_WebsiteCrawler_withinBudgets options) H)
      as (Hpages & Hnd & Hdepth).
    split; [done|]. split; [done|]. split; [done|]. split; [|split].
    + intros k Hk. rewrite Hk in Hpages. by apply pagesWithin_whole.
    + intros q Hq Hle. rewrite Hq in Hpages. simpl in Hpages.
      destruct Hpages as [H0|Hlt].
      * by apply length_zero_iff_nil.
      * destruct (r_visitedUrls r) as [|u l]; [done|]. exfalso.
        simpl length in Hlt. rewrite Nat2Z.inj_succ, <- Z.add_1_r, inject_Z_plus in Hlt.
        change (inject_Z 1) with 1%Q in Hlt.
        assert (0 <= inject_Z (Z.of_nat (length l)))%Q
          by (change 0%Q with (inject_Z 0); rewrite <- Zle_Qle; lia).
        lra.
    + intros k Hk u p Hu Hp. destruct (Hdepth u Hu) as (p' & Hp' & Hle).
      rewrite Hp in Hp'. inversion Hp'; subst p'. rewrite Hk in Hle.
      by apply notAbove_whole.
Qed.

(** C7 (amended): when the budgets admit the seed and the navigation
    to it fails, [crawlWebsite] still returns; the seed was added to
    [visitedUrls] before the navigation, so [totalPages] is 1,
    [pageData] holds the seed's error record, and no API call and no
    other page is recorded. *)
Theorem crawlWebsite_failed_seed options baseUrl events message fuel :
  admitsOne (maxPages (new_WebsiteCrawler options)) ->
  notAbove 0 (maxDepth (new_WebsiteCrawler options)) ->
  browser baseUrl = LoadFailed events message ->
  exists c r,
    crawlWebsite browser (S fuel) (new_WebsiteCrawler options) baseUrl = Some (c, r) /\
    totalPages r = 1 /\
    r_visitedUrls r = [baseUrl] /\
    r_pageData r = {[ baseUrl := PageError message 0 None ]} /\
    r_apiCalls r = [] /\ totalApiCalls r = 0.
Proof.
  intros Hpages Hdepth Hfail.
  set (crawler := new_WebsiteCrawler options) in *.
  set (seed := {| q_url := baseUrl; q_depth := 0; q_parentUrl := None |}).
  set (c1 := set_pageData (set_visitedUrls crawler [baseUrl])
               (<[baseUrl := PageError message 0 None]> ∅)).
  assert (Hstep : crawlStep browser crawler [seed] = Some (c1, [])).
  { apply Number_lt_admitsOne in Hpages.
    assert (Hd : Number_lt (maxDepth crawler) (Number_of_nat 0) = false).
    { destruct (maxDepth crawler) as [q| | |]; simpl in *; try done.
      apply negb_false_iff, Qle_bool_iff. exact Hdepth. }
    unfold crawlStep. cbn [visitedUrls crawler new_WebsiteCrawler length q_depth seed q_url].
    change (length (@nil string)) with 0.
    rewrite Hpages. cbn [Set_has bool_decide].
    replace (Set_has baseUrl []) with false
      by (symmetry; apply Set_has_false, not_elem_of_nil).
    cbn [orb]. rewrite Hd.
    unfold visitPage, Set_add. cbn [q_url q_depth q_parentUrl seed].
    rewrite Hfail.
    replace (Set_has baseUrl (visitedUrls crawler)) with false
      by (symmetry; apply Set_has_false, not_elem_of_nil).
    reflexivity. }
  exists c1, (generateCrawlResults c1). split.
  - unfold crawlWebsite. fold seed.
    rewrite (crawlLoop_step _ _ _ _ _ Hstep), crawlLoop_done; done.
  - repeat split.
Qed.

(** With budgets that do not admit the seed, the loop visits nothing:
    no navigation is attempted, and the run returns an empty result. *)
Lemma crawlWebsite_seed_not_admitted options baseUrl fuel :
  ~ (admitsOne (maxPages (new_WebsiteCrawler options)) /\
     notAbove 0 (maxDepth (new_WebsiteCrawler options))) ->
  crawlWebsite browser (S fuel) (new_WebsiteCrawler options) baseUrl
  = Some (new_WebsiteCrawler options,
          generateCrawlResults (new_WebsiteCrawler options)) /\
  totalPages (generateCrawlResults (new_WebsiteCrawler options)) = 0 /\
  r_visitedUrls (generateCrawlResults (new_WebsiteCrawler options)) = [].
Proof.
  intros Hno. split; [|by split].
  set (crawler := new_WebsiteCrawler options) in *.
  set (seed := {| q_url := baseUrl; q_depth := 0; q_parentUrl := None |}).
  unfold crawlWebsite. fold seed.
  destruct (Number_lt (Number_of_nat 0) (maxPages crawler)) eqn:E.
  - assert (Hd : Number_lt (maxDepth crawler) (Number_of_nat 0) = true).
    { destruct (Number_lt (maxDepth crawler) (Number_of_nat 0)) eqn:D; [done|].
      exfalso. apply Hno.
      split; [by apply Number_lt_admitsOne | by apply Number_lt_notAbove]. }
    assert (Hstep : crawlStep browser crawler [seed] = Some (crawler, [])).
    { unfold crawlStep.
      change (length (visitedUrls crawler)) with 0. rewrite E.
      change (q_depth seed) with 0. by rewrite Hd, orb_true_r. }
    rewrite (crawlLoop_step _ _ _ _ _ Hstep), crawlLoop_done; done.
  - rewrite crawlLoop_done; [done|]. unfold crawlStep.
    change (length (visitedUrls crawler)) with 0. by rewrite E.
Qed.
End WithBrowser.

(** C1 on the sample site with the default budgets. *)
Lemma crawlWebsite_respects_budgets_witness :
  exists c r,
    crawlWebsite demoSite 10 (new_WebsiteCrawler defaults) "https://x.com/" = Some (c, r) /\
    r_visitedUrls r = ["https://x.com/"; "https://x.com/a"; "https://x.com/b"] /\
    NoDup (r_visitedUrls r) /\
    (forall u, u ∈ r_visitedUrls r ->
       exists p, r_pageData r !! u = Some p /\ notAbove (page_depth p) (Finite 3)) /\
    pagesWithin (length (r_visitedUrls r)) (Finite 20) /\
    length (r_visitedUrls r) <= 20.
Proof.
  eexists. eexists. split; [vm_compute; reflexivity|].
  split; [reflexivity|].
  destruct (proj2 (crawlWebsite_respects_budgets demoSite defaults "https://x.com/") 10
              _ _ ltac:(vm_compute; reflexivity))
    as (Hnd & Hdepth & Hpages & Hwhole & _).
  split; [exact Hnd|]. split; [exact Hdepth|]. split; [exact Hpages|].
  apply (Hwhole 20). reflexivity.
Defined.

(** C7, as stated, fails: on a site where every navigation fails the
    run returns, and [totalPages] is 1, not 0. *)
Lemma crawlWebsite_dead_site_counts_the_seed :
  option_map (fun cr => totalPages cr.2)
    (crawlWebsite deadSite 5 (new_WebsiteCrawler defaults) "https://x.com/")
  = Some 1.
Proof. vm_compute. reflexivity. Qed.

Lemma crawlWebsite_failed_seed_witness :
  exists c r,
    crawlWebsite deadSite 5 (new_WebsiteCrawler defaults) "https://x.com/" = Some (c, r) /\
    totalPages r = 1 /\
    r_visitedUrls r = ["https://x.com/"] /\
    r_pageData r = {[ "https://x.com/" := PageError "net::ERR_NAME_NOT_RESOLVED" 0 None ]} /\
    r_apiCalls r = [] /\ totalApiCalls r = 0.
Proof.
  apply (crawlWebsite_failed_seed deadSite defaults "https://x.com/" []
           "net::ERR_NAME_NOT_RESOLVED" 4).
  - reflexivity.
  - vm_compute. discriminate.
  - reflexivity.
Defined.

(** ** The response handler *)

Lemma list_find_first {A} (P : A -> Prop) `{forall x, Decision (P x)}
    (pre : list A) (x : A) (post : list A) :
  Forall (fun y => ~ P y) pre -> P x ->
  list_find P (pre ++ x :: post) = Some (length pre, x).
Proof.
  intros Hpre Hx. apply list_find_Some. split; [|split; [done|]].
  - by rewrite lookup_app_r, Nat.sub_diag.
  - intros j y Hj Hlt. rewrite lookup_app_l in Hj by done.
    rewrite Forall_forall in Hpre. apply Hpre.
    by apply list_elem_of_lookup_2 with j.
Qed.

Lemma onResponse_first_match apiCallsForPage response now pre call post :
  isApiRequest (req_url (resp_request response))
               (req_resourceType (resp_request response)) = true ->
  apiCallsForPage = pre ++ call :: post ->
  Forall (fun c => ~ sameCall (resp_request response) c) pre ->
  sameCall (resp_request response) call ->
  onResponse apiCallsForPage response now
  = pre ++ resolve response now call :: post.
Proof.
  intros Hapi -> Hpre Hcall. unfold onResponse. rewrite Hapi.
  rewrite (list_find_first _ pre call post Hpre Hcall).
  rewrite <- (Nat.add_0_r (length pre)), alter_app_r. reflexivity.
Qed.

Lemma onResponse_no_match apiCallsForPage response now :
  Forall (fun c => ~ sameCall (resp_request response) c) apiCallsForPage ->
  onResponse apiCallsForPage response now = apiCallsForPage.
Proof.
  intros Hnone. unfold onResponse.
  assert (list_find (sameCall (resp_request response)) apiCallsForPage = None)
    as -> by by apply list_find_None.
  by destruct (isApiRequest _ _).
Qed.

(** C2, as stated, fails: with two records in flight for one
    (url, method), the first response resolves the first record, and the
    second response resolves that record again; the second record keeps
    [status] undefined, where the most-recent-unresolved rule would have
    filled it. *)
Lemma onResponse_resolves_a_resolved_record :
  let afterFirst := runEvents "https://x.com/" 0 twoInFlight [] in
  let afterSecond := onResponse afterFirst lateResponse 1500 in
  afterFirst = [resolvedCall; inFlight "id2" 1010] /\
  map status afterFirst = [Some 200%Z; None] /\
  map status afterSecond = [Some 500%Z; None] /\
  map endTime afterSecond = [Some 1500%Z; None] /\
  map status (onResponseSpec afterFirst lateResponse 1500)
    = [Some 200%Z; Some 500%Z].
Proof. vm_compute. repeat split. Qed.

(** C2 (amended): a response to an API-classified request is matched
    against the first record of the page, in request order, that has the
    same (url, method), resolved or not; that record's [endTime],
    [status] and [responseHeaders], with [duration], [statusText] and
    [responseSize], are assigned from the response, its other fields
    and every other record stay as they are. So with two records in
    flight for one (url, method), a second response overwrites the first
    record again and leaves the second as it was. *)
Theorem onResponse_resolves_first_match :
  (forall apiCallsForPage response now pre call post,
      isApiRequest (req_url (resp_request response))
                   (req_resourceType (resp_request response)) = true ->
      apiCallsForPage = pre ++ call :: post ->
      Forall (fun c => ~ sameCall (resp_request response) c) pre ->
      sameCall (resp_request response) call ->
      onResponse apiCallsForPage response now
      = pre ++
        {| id := id call; url := url call; method := method call;
           headers := headers call; postData := postData call;
           resourceType := resourceType call; startTime := startTime call;
           page := page call; depth := depth call;
           endTime := Some now;
           duration := Some (now - startTime call)%Z;
           status := Some (resp_status response);
           statusText := Some (resp_statusText response);
           responseHeaders := Some (resp_headers response);
           responseSize :=
             Some match header_lookup "content-length" (resp_headers response) with
                  | Some text => if String.eqb text "" then Zero else HeaderText text
                  | None => Zero
                  end |}
        :: post) /\
  (forall pre call post first now1 second now2,
      isApiRequest (req_url (resp_request first))
                   (req_resourceType (resp_request first)) = true ->
      resp_request second = resp_request first ->
      Forall (fun c => ~ sameCall (resp_request first) c) pre ->
      sameCall (resp_request first) call ->
      onResponse (onResponse (pre ++ call :: post) first now1) second now2
      = pre ++
        {| id := id call; url := url call; method := method call;
           headers := headers call; postData := postData call;
           resourceType := resourceType call; startTime := startTime call;
           page := page call; depth := depth call;
           endTime := Some now2;
           duration := Some (now2 - startTime call)%Z;
           status := Some (resp_status second);
           statusText := Some (resp_statusText second);
           responseHeaders := Some (resp_headers second);
           responseSize :=
             Some match header_lookup "content-length" (resp_headers second) with
                  | Some text => if String.eqb text "" then Zero else HeaderText text
                  | None => Zero
                  end |}
        :: post).
Proof.
  split.
  - intros apiCallsForPage response now pre call post Hapi Hl Hpre Hcall.
    by rewrite (onResponse_first_match _ _ now pre call post Hapi Hl Hpre Hcall).
  - intros pre call post first now1 second now2 Hapi Hreq Hpre Hcall.
    rewrite (onResponse_first_match _ _ now1 pre call post Hapi eq_refl Hpre Hcall).
    rewrite (onResponse_first_match _ second now2 pre (resolve first now1 call) post);
      rewrite ?Hreq; done.
Qed.

Lemma onResponse_resolves_first_match_witness :
  onResponse [resolvedCall; inFlight "id2" 1010] lateResponse 1500
  = [ {| id := "id1"; url := "https://x.com/api/orders"; method := "GET";
         headers := []; postData := None; resourceType := "fetch";
         startTime := 1000; page := "https://x.com/"; depth := 0;
         endTime := Some 1500%Z; duration := Some 500%Z;
         status := Some 500%Z; statusText := Some "Internal Server Error";
         responseHeaders := Some [("content-length", "12")];
         responseSize := Some (HeaderText "12") |};
      inFlight "id2" 1010 ] /\
  onResponse
    (onResponse [inFlight "id1" 1000; inFlight "id2" 1010]
                (ordersResponse 200 "OK") 1200)
    lateResponse 1500
  = [ {| id := "id1"; url := "https://x.com/api/orders"; method := "GET";
         headers := []; postData := None; resourceType := "fetch";
         startTime := 1000; page := "https://x.com/"; depth := 0;
         endTime := Some 1500%Z; duration := Some 500%Z;
         status := Some 500%Z; statusText := Some "Internal Server Error";
         responseHeaders := Some [("content-length", "12")];
         responseSize := Some (HeaderText "12") |};
      inFlight "id2" 1010 ].
Proof.
  destruct onResponse_resolves_first_match as [Hfirst Hagain]. split.
  - apply (Hfirst [resolvedCall; inFlight "id2" 1010] lateResponse 1500%Z
             [] resolvedCall [inFlight "id2" 1010]).
    + vm_compute. reflexivity.
    + reflexivity.
    + constructor.
    + split; reflexivity.
  - apply (Hagain [] (inFlight "id1" 1000) [inFlight "id2" 1010]
             (ordersResponse 200 "OK") 1200%Z lateResponse 1500%Z).
    + vm_compute. reflexivity.
    + reflexivity.
    + constructor.
    + split; reflexivity.
Defined.
End CrawlerFacts.

(* ===================================================================== *)
(** * Properties of the impact correlator *)
(* ===================================================================== *)

Module CorrelatorFacts.
Import Correlator CorrelatorSpec.
Local Open Scope list_scope.

Section WithPage.
Variable Page : Type.
Variable evaluateMetrics : M Page Metrics.
Variable evaluateSimulation : JsObject -> M Page unit.
Variable waitForTimeout : JsValue -> M Page unit.
Variable goto : string -> M Page unit.

Local Abbreviation measure :=
  (measure Page evaluateMetrics evaluateSimulation waitForTimeout).
Local Abbreviation enhance :=
  (enhance Page evaluateMetrics evaluateSimulation waitForTimeout).
Local Abbreviation forEachCall :=
  (forEachCall Page evaluateMetrics evaluateSimulation waitForTimeout).
Local Abbreviation analyzeApiImpact :=
  (analyzeApiImpact Page evaluateMetrics evaluateSimulation waitForTimeout goto).

Lemma measure_enriches apiCall page o page' :
  measure apiCall page = (Returned o, page') -> enriches apiCall o.
Proof.
  unfold Correlator.measure, simulateApiCall, capturePerformanceMetrics, bind, ret.
  intros H.
  repeat match type of H with
         | context [match ?m ?p with _ => _ end] =>
             destruct (m p) as [[?|?] ?]; try discriminate
         end.
  inversion H; subst. eexists. reflexivity.
Qed.

Lemma enhance_thrown apiCall page message page' :
  measure apiCall page = (Thrown message, page') ->
  enhance apiCall page
  = (Returned (withFrontendImpact apiCall (errorImpact message)), page').
Proof. intros H. unfold Correlator.enhance, try_catch. by rewrite H. Qed.

Lemma enhance_returned apiCall page o page' :
  measure apiCall page = (Returned o, page') ->
  enhance apiCall page = (Returned o, page').
Proof. intros H. unfold Correlator.enhance, try_catch. by rewrite H. Qed.

(** The loop body never throws. *)
Lemma enhance_total apiCall page :
  exists o page', enhance apiCall page = (Returned o, page') /\ enriches apiCall o.
Proof.
  destruct (measure apiCall page) as [[o|message] page'] eqn:H.
  - exists o, page'. split; [by apply enhance_returned|].
    by apply measure_enriches in H.
  - exists (withFrontendImpact apiCall (errorImpact message)), page'.
    split; [by apply enhance_thrown|]. by eexists.
Qed.

Lemma forEachCall_cons apiCall rest acc page o page' :
  enhance apiCall page = (Returned o, page') ->
  forEachCall (apiCall :: rest) acc page = forEachCall rest (acc ++ [o]) page'.
Proof. intros H. cbn [Correlator.forEachCall]. unfold bind. by rewrite H. Qed.

(** The loop pushes one record per call, in order, after what was
    there. *)
Lemma forEachCall_total apiCalls : forall acc page,
  exists outs page',
    forEachCall apiCalls acc page = (Returned (acc ++ outs), page') /\
    Forall2 enriches apiCalls outs.
Proof.
  induction apiCalls as [|apiCall rest IH]; intros acc page.
  - exists [], page. rewrite app_nil_r. split; [reflexivity | constructor].
  - destruct (enhance_total apiCall page) as (o & page1 & He & Ho).
    destruct (IH (acc ++ [o]) page1) as (outs & page' & Hr & Hf).
    exists (o :: outs), page'. split; [|by constructor].
    rewrite (forEachCall_cons _ _ _ _ _ _ He), Hr, <- app_assoc. reflexivity.
Qed.



Lemma analyzeApiImpact_goto apiCalls pageUrl page page0 :
  goto pageUrl page = (Returned tt, page0) ->
  analyzeApiImpact apiCalls pageUrl page = forEachCall apiCalls [] page0.
Proof. intros H. unfold Correlator.analyzeApiImpact, bind. by rewrite H. Qed.

(** Where the [try] block throws: the first snapshot, or the
    simulation after it. *)
Lemma measure_capture_throws apiCall page message page' :
  evaluateMetrics page = (Thrown message, page') ->
  measure apiCall page = (Thrown message, page').
Proof.
  intros H. unfold Correlator.measure, capturePerformanceMetrics, bind.
  by rewrite H.
Qed.

Lemma measure_simulation_throws apiCall page m page1 message page' :
  evaluateMetrics page = (Returned m, page1) ->
  evaluateSimulation apiCall page1 = (Thrown message, page') ->
  measure apiCall page = (Thrown message, page').
Proof.
  intros H1 H2.
  unfold Correlator.measure, simulateApiCall, capturePerformanceMetrics, bind.
  by rewrite H1, H2.
Qed.


(** C10: once the page is open, [analyzeApiImpact] returns one record
    per input call, in the input's order; each is its input with
    [frontendImpact] set, so every other field reads as in the input. *)
Theorem analyzeApiImpact_frame apiCalls pageUrl page page0 :
  goto pageUrl page = (Returned tt, page0) ->
  exists out page',
    analyzeApiImpact apiCalls pageUrl page = (Returned out, page') /\
    length out = length apiCalls /\
    Forall2 (fun apiCall enhanced =>
               (exists v, enhanced = <["frontendImpact" := v]> apiCall) /\
               is_Some (enhanced !! "frontendImpact") /\
               forall k, k <> "frontendImpact" -> enhanced !! k = apiCall !! k)
            apiCalls out.
Proof.
  intros Hgoto.
  destruct (forEachCall_total apiCalls [] page0) as (out & page' & Hrun & Hf).
  exists out, page'. split; [by rewrite (analyzeApiImpact_goto _ _ _ _ Hgoto)|].
  split; [symmetry; by eapply Forall2_length|].
  eapply Forall2_impl; [exact Hf|].
  intros c o [v ->]. split; [by exists v|]. split.
  - rewrite lookup_insert_eq. by eexists.
  - intros k Hk. by rewrite lookup_insert_ne.
Qed.
End WithPage.


Lemma analyzeApiImpact_frame_witness :
  exists out page',
    analyzeApiImpact nat sampleEvaluateMetrics sampleEvaluateSimulation sampleWait
      sampleGoto [usersCall; brokenCall; ordersCall] "https://x.com/" 0%nat
    = (Returned out, page') /\
    length out = length [usersCall; brokenCall; ordersCall] /\
    Forall2 (fun apiCall enhanced =>
               (exists v, enhanced = <["frontendImpact" := v]> apiCall) /\
               is_Some (enhanced !! "frontendImpact") /\
               forall k, k <> "frontendImpact" -> enhanced !! k = apiCall !! k)
            [usersCall; brokenCall; ordersCall] out.
Proof.
  apply (analyzeApiImpact_frame nat sampleEvaluateMetrics sampleEvaluateSimulation
           sampleWait sampleGoto _ "https://x.com/" 0%nat 0%nat).
  reflexivity.
Defined.
End CorrelatorFacts.

(* ===================================================================== *)
(** * Properties of the alert engine *)
(* ===================================================================== *)

Module AlertsFacts.
Import Js Alerts AlertsSpec.
Local Open Scope nat_scope.
Local Open Scope list_scope.

Ltac block :=
  unfold pushesAtMostOne;
  repeat match goal with
         | |- context [match ?x with _ => _ end] => destruct x
         end;
  first [ by left | right; eexists; repeat split ].

Lemma checkFCP_block d :
  pushesAtMostOne "Core Web Vitals" "First Contentful Paint (FCP)" (checkFCP d).
Proof. unfold checkFCP. block. Qed.

Lemma checkLCP_block d :
  pushesAtMostOne "Core Web Vitals" "Largest Contentful Paint (LCP)" (checkLCP d).
Proof. unfold checkLCP. block. Qed.

Lemma checkCLS_block d :
  pushesAtMostOne "Core Web Vitals" "Cumulative Layout Shift (CLS)" (checkCLS d).
Proof. unfold checkCLS. block. Qed.

Lemma checkTTI_block d :
  pushesAtMostOne "Performance" "Time to Interactive (TTI)" (checkTTI d).
Proof. unfold checkTTI. block. Qed.

Lemma checkTBT_block d :
  pushesAtMostOne "Performance" "Total Blocking Time (TBT)" (checkTBT d).
Proof. unfold checkTBT. block. Qed.

Lemma checkSI_block d :
  pushesAtMostOne "Performance" "Speed Index (SI)" (checkSI d).
Proof. unfold checkSI. block. Qed.

Lemma checkPerformance_block s :
  pushesAtMostOne "Overall" "Performance Score" (checkPerformance s).
Proof. unfold checkPerformance. block. Qed.

Lemma checkAccessibility_block s :
  pushesAtMostOne "Accessibility" "Accessibility Score" (checkAccessibility s).
Proof. unfold checkAccessibility. block. Qed.

Lemma checkSlowApiCalls_block calls :
  pushesAtMostOne "API Performance" "Slow API Calls" (checkSlowApiCalls calls).
Proof. unfold checkSlowApiCalls. block. Qed.

Lemma checkErrorRate_block calls :
  pushesAtMostOne "API Reliability" "API Error Rate" (checkErrorRate calls).
Proof. unfold checkErrorRate. block. Qed.

Lemma checkPayloads_block calls :
  pushesAtMostOne "API Efficiency" "Large API Payloads" (checkPayloads calls).
Proof. unfold checkPayloads. block. Qed.

Lemma forMetric_app m l1 l2 : forMetric m (l1 ++ l2) = forMetric m l1 ++ forMetric m l2.
Proof. apply List.filter_app. Qed.

Lemma forMetric_block c m m' block :
  pushesAtMostOne c m block -> length (forMetric m' block) <= indicator m m'.
Proof.
  intros [-> | (alert & -> & _ & Hm)]; simpl; [lia|].
  unfold indicator. rewrite Hm. destruct (String.eqb m m'); simpl; lia.
Qed.

Lemma metric_names_distinct m' :
  indicator "First Contentful Paint (FCP)" m'
  + indicator "Largest Contentful Paint (LCP)" m'
  + indicator "Cumulative Layout Shift (CLS)" m'
  + indicator "Time to Interactive (TTI)" m'
  + indicator "Total Blocking Time (TBT)" m'
  + indicator "Speed Index (SI)" m'
  + indicator "Performance Score" m'
  + indicator "Accessibility Score" m'
  + indicator "Slow API Calls" m'
  + indicator "API Error Rate" m'
  + indicator "Large API Payloads" m' <= 1.
Proof.
  unfold indicator.
  repeat match goal with
         | |- context [String.eqb ?n m'] =>
             destruct (String.eqb_spec n m'); [subst m'; vm_compute; lia|]
         end.
  lia.
Qed.

Lemma generatePerformanceAlerts_forMetric lighthouseResults apiResults m :
  length (forMetric m (generatePerformanceAlerts lighthouseResults apiResults)) <= 1.
Proof.
  pose proof (metric_names_distinct m) as Hd.
  assert (Hlh : forall lh,
    length (forMetric m (checkFCP (lh_details lh)))
    + length (forMetric m (checkLCP (lh_details lh)))
    + length (forMetric m (checkCLS (lh_details lh)))
    + length (forMetric m (checkTTI (lh_details lh)))
    + length (forMetric m (checkTBT (lh_details lh)))
    + length (forMetric m (checkSI (lh_details lh)))
    + length (forMetric m (checkPerformance (performance lh)))
    + length (forMetric m (checkAccessibility (accessibility lh)))
    <= indicator "First Contentful Paint (FCP)" m
       + indicator "Largest Contentful Paint (LCP)" m
       + indicator "Cumulative Layout Shift (CLS)" m
       + indicator "Time to Interactive (TTI)" m
       + indicator "Total Blocking Time (TBT)" m
       + indicator "Speed Index (SI)" m
       + indicator "Performance Score" m
       + indicator "Accessibility Score" m).
  { intros lh.
    pose proof (forMetric_block _ _ m _ (checkFCP_block (lh_details lh))).
    pose proof (forMetric_block _ _ m _ (checkLCP_block (lh_details lh))).
    pose proof (forMetric_block _ _ m _ (checkCLS_block (lh_details lh))).
    pose proof (forMetric_block _ _ m _ (checkTTI_block (lh_details lh))).
    pose proof (forMetric_block _ _ m _ (checkTBT_block (lh_details lh))).
    pose proof (forMetric_block _ _ m _ (checkSI_block (lh_details lh))).
    pose proof (forMetric_block _ _ m _ (checkPerformance_block (performance lh))).
    pose proof (forMetric_block _ _ m _ (checkAccessibility_block (accessibility lh))).
    lia. }
  assert (Hapi : forall calls,
    length (forMetric m (checkSlowApiCalls calls))
    + length (forMetric m (checkErrorRate calls))
    + length (forMetric m (checkPayloads calls))
    <= indicator "Slow API Calls" m + indicator "API Error Rate" m
       + indicator "Large API Payloads" m).
  { intros calls.
    pose proof (forMetric_block _ _ m _ (checkSlowApiCalls_block calls)).
    pose proof (forMetric_block _ _ m _ (checkErrorRate_block calls)).
    pose proof (forMetric_block _ _ m _ (checkPayloads_block calls)).
    lia. }
  unfold generatePerformanceAlerts. cbv zeta.
  destruct lighthouseResults as [lh|];
    destruct apiResults as [[[calls|]]|];
    cbn [apiCalls];
    try destruct (0 <? length calls);
    rewrite ?forMetric_app, ?length_app;
    change (length (forMetric m [])) with 0;
    try specialize (Hlh lh); try specialize (Hapi calls);
    lia.
Qed.

(** ** The error-rate block *)

Lemma inCategory_app c l1 l2 :
  inCategory c (l1 ++ l2) = inCategory c l1 ++ inCategory c l2.
Proof. apply List.filter_app. Qed.

Lemma inCategory_other c c' m block :
  pushesAtMostOne c m block -> c <> c' -> inCategory c' block = [].
Proof.
  intros [-> | (alert & -> & Hc & _)] Hne; simpl; [done|].
  rewrite Hc. by destruct (String.eqb_spec c c').
Qed.

Lemma inCategory_same c m block :
  pushesAtMostOne c m block -> inCategory c block = block.
Proof.
  intros [-> | (alert & -> & Hc & _)]; simpl; [done|].
  by rewrite Hc, String.eqb_refl.
Qed.

(** With API calls in the input, the API Reliability alerts are the ones
    the error-rate block pushes. *)
Lemma inCategory_reliability lighthouseResults calls :
  calls <> [] ->
  inCategory "API Reliability"
    (generatePerformanceAlerts lighthouseResults (Some {| apiCalls := Some calls |}))
  = checkErrorRate calls.
Proof.
  intros Hne. unfold generatePerformanceAlerts. cbv zeta. cbn [apiCalls].
  assert ((0 <? length calls) = true) as ->
    by (apply Nat.ltb_lt; destruct calls; [done | simpl; lia]).
  destruct lighthouseResults as [lh|]; rewrite !inCategory_app;
    rewrite ?(inCategory_other _ _ _ _ (checkFCP_block _)),
            ?(inCategory_other _ _ _ _ (checkLCP_block _)),
            ?(inCategory_other _ _ _ _ (checkCLS_block _)),
            ?(inCategory_other _ _ _ _ (checkTTI_block _)),
            ?(inCategory_other _ _ _ _ (checkTBT_block _)),
            ?(inCategory_other _ _ _ _ (checkSI_block _)),
            ?(inCategory_other _ _ _ _ (checkPerformance_block _)),
            ?(inCategory_other _ _ _ _ (checkAccessibility_block _)),
            ?(inCategory_other _ _ _ _ (checkSlowApiCalls_block _)),
            ?(inCategory_other _ _ _ _ (checkPayloads_block _)),
            (inCategory_same _ _ _ (checkErrorRate_block _)) by discriminate;
    by rewrite ?app_nil_r.
Qed.

Lemma checkErrorRate_3_of_40 calls :
  length calls = 40 -> length (errorCalls calls) = 3 ->
  exists alert,
    checkErrorRate calls = [alert] /\
    type alert = Warning /\ metric alert = "API Error Rate" /\
    value alert = "7.5%" /\ threshold alert = "5.0%".
Proof.
  intros Hn Hk. unfold checkErrorRate. cbv zeta.
  fold (errorCalls calls). rewrite Hn, Hk.
  eexists. split; [reflexivity|]. repeat split.
Qed.

Lemma checkErrorRate_5_of_40 calls :
  length calls = 40 -> length (errorCalls calls) = 5 ->
  exists alert,
    checkErrorRate calls = [alert] /\
    type alert = Critical /\ metric alert = "API Error Rate" /\
    value alert = "12.5%" /\ threshold alert = "10.0%".
Proof.
  intros Hn Hk. unfold checkErrorRate. cbv zeta.
  fold (errorCalls calls). rewrite Hn, Hk.
  eexists. split; [reflexivity|]. repeat split.
Qed.

(** ** The alerts about one metric *)

Lemma forMetric_other c m m' block :
  pushesAtMostOne c m block -> m <> m' -> forMetric m' block = [].
Proof.
  intros [-> | (alert & -> & _ & Hm)] Hne; simpl; [done|].
  rewrite Hm. by destruct (String.eqb_spec m m').
Qed.

Lemma forMetric_same c m block :
  pushesAtMostOne c m block -> forMetric m block = block.
Proof.
  intros [-> | (alert & -> & _ & Hm)]; simpl; [done|].
  by rewrite Hm, String.eqb_refl.
Qed.

Ltac other_blocks :=
  rewrite !forMetric_app;
  rewrite ?(forMetric_other _ _ _ _ (checkFCP_block _)),
          ?(forMetric_other _ _ _ _ (checkLCP_block _)),
          ?(forMetric_other _ _ _ _ (checkCLS_block _)),
          ?(forMetric_other _ _ _ _ (checkTTI_block _)),
          ?(forMetric_other _ _ _ _ (checkTBT_block _)),
          ?(forMetric_other _ _ _ _ (checkSI_block _)),
          ?(forMetric_other _ _ _ _ (checkPerformance_block _)),
          ?(forMetric_other _ _ _ _ (checkAccessibility_block _)),
          ?(forMetric_other _ _ _ _ (checkSlowApiCalls_block _)),
          ?(forMetric_other _ _ _ _ (checkErrorRate_block _)),
          ?(forMetric_other _ _ _ _ (checkPayloads_block _)) by discriminate.

Ltac same_block :=
  rewrite ?(forMetric_same _ _ _ (checkFCP_block _)),
          ?(forMetric_same _ _ _ (checkLCP_block _)),
          ?(forMetric_same _ _ _ (checkCLS_block _)),
          ?(forMetric_same _ _ _ (checkTTI_block _)),
          ?(forMetric_same _ _ _ (checkTBT_block _)),
          ?(forMetric_same _ _ _ (checkSI_block _)),
          ?(forMetric_same _ _ _ (checkPerformance_block _)),
          ?(forMetric_same _ _ _ (checkAccessibility_block _)),
          ?(forMetric_same _ _ _ (checkSlowApiCalls_block _)),
          ?(forMetric_same _ _ _ (checkErrorRate_block _)),
          ?(forMetric_same _ _ _ (checkPayloads_block _)).

Lemma api_alerts lighthouseResults calls :
  calls <> [] ->
  let alerts :=
    generatePerformanceAlerts lighthouseResults
      (Some {| Alerts.apiCalls := Some calls |}) in
  forMetric "Slow API Calls" alerts = checkSlowApiCalls calls /\
  forMetric "API Error Rate" alerts = checkErrorRate calls /\
  forMetric "Large API Payloads" alerts = checkPayloads calls.
Proof.
  intros Hne alerts. subst alerts.
  unfold generatePerformanceAlerts. cbv zeta. cbn [Alerts.apiCalls].
  assert ((0 <? length calls)%nat = true) as ->
    by (apply Nat.ltb_lt; destruct calls; [done | simpl; lia]).
  split; [|split]; destruct lighthouseResults as [lh|]; other_blocks;
    same_block; by rewrite ?app_nil_r.
Qed.

Lemma lighthouse_blocks lh apiResults :
  let alerts := generatePerformanceAlerts (Some lh) apiResults in
  forMetric "First Contentful Paint (FCP)" alerts = checkFCP (lh_details lh) /\
  forMetric "Largest Contentful Paint (LCP)" alerts = checkLCP (lh_details lh) /\
  forMetric "Cumulative Layout Shift (CLS)" alerts = checkCLS (lh_details lh) /\
  forMetric "Time to Interactive (TTI)" alerts = checkTTI (lh_details lh) /\
  forMetric "Total Blocking Time (TBT)" alerts = checkTBT (lh_details lh) /\
  forMetric "Speed Index (SI)" alerts = checkSI (lh_details lh) /\
  forMetric "Performance Score" alerts = checkPerformance (performance lh) /\
  forMetric "Accessibility Score" alerts = checkAccessibility (accessibility lh).
Proof.
  intros alerts. subst alerts.
  unfold generatePerformanceAlerts. cbv zeta.
  destruct apiResults as [[[calls|]]|]; cbn [Alerts.apiCalls];
    try destruct (0 <? length calls)%nat;
    repeat split; other_blocks; same_block; by rewrite ?app_nil_r.
Qed.

(** ** The policy of each block *)

Ltac timing_policy lh field :=
  unfold raw, whenPresent, policy;
  destruct (lh_details lh) as [d|]; [|reflexivity];
  destruct (field d) as [x|]; [|reflexivity];
  cbv [truthy num Alerts.geq critical warning thresholds.fcp thresholds.lcp
       thresholds.cls thresholds.tti thresholds.tbt thresholds.si];
  try (destruct (Qeq_bool x 0); [reflexivity|]; cbv [negb]);
  repeat match goal with
         | |- context [Qle_bool ?a x] => destruct (Qle_bool a x)
         end;
  reflexivity.

Lemma checkFCP_policy lh :
  map type (checkFCP (lh_details lh))
  = whenPresent (raw fcpRaw lh) (fun x => policy (Qle_bool 3000 x) (Qle_bool 2000 x)).
Proof. unfold checkFCP. timing_policy lh fcpRaw. Qed.

Lemma checkLCP_policy lh :
  map type (checkLCP (lh_details lh))
  = whenPresent (raw lcpRaw lh) (fun x => policy (Qle_bool 4000 x) (Qle_bool 2500 x)).
Proof. unfold checkLCP. timing_policy lh lcpRaw. Qed.

Lemma checkCLS_policy lh :
  map type (checkCLS (lh_details lh))
  = match raw clsRaw lh with
    | Some x => policy (Qle_bool 0.25 x) (Qle_bool 0.1 x)
    | None => []
    end.
Proof. unfold checkCLS. timing_policy lh clsRaw. Qed.

Lemma checkTTI_policy lh :
  map type (checkTTI (lh_details lh))
  = whenPresent (raw ttiRaw lh) (fun x => policy (Qle_bool 7300 x) (Qle_bool 3800 x)).
Proof. unfold checkTTI. timing_policy lh ttiRaw. Qed.

Lemma checkTBT_policy lh :
  map type (checkTBT (lh_details lh))
  = whenPresent (raw tbtRaw lh) (fun x => policy (Qle_bool 600 x) (Qle_bool 300 x)).
Proof. unfold checkTBT. timing_policy lh tbtRaw. Qed.

Lemma checkSI_policy lh :
  map type (checkSI (lh_details lh))
  = whenPresent (raw siRaw lh) (fun x => policy (Qle_bool 5800 x) (Qle_bool 3400 x)).
Proof. unfold checkSI. timing_policy lh siRaw. Qed.

Lemma checkPerformance_policy s :
  map type (checkPerformance s)
  = match s with
    | ScoreUndefined => []
    | ScoreNull => [Critical]
    | ScoreNum x => policy (Qle_bool x 0.5) (Qle_bool x 0.7)
    end.
Proof.
  unfold checkPerformance, policy. destruct s as [| |x]; try reflexivity.
  cbv [score_num Alerts.leq critical warning thresholds.performance].
  destruct (Qle_bool x 0.5); [reflexivity|].
  destruct (Qle_bool x 0.7); reflexivity.
Qed.

Lemma checkAccessibility_policy s :
  map type (checkAccessibility s)
  = match s with
    | ScoreUndefined => []
    | ScoreNull => [Critical]
    | ScoreNum x => policy (Qle_bool x 0.5) (Qle_bool x 0.7)
    end.
Proof.
  unfold checkAccessibility, policy. destruct s as [| |x]; try reflexivity.
  cbv [score_num Alerts.leq critical warning thresholds.accessibility].
  destruct (Qle_bool x 0.5); [reflexivity|].
  destruct (Qle_bool x 0.7); reflexivity.
Qed.

Lemma filter_nonempty {A} (f : A -> bool) (l : list A) :
  (0 <? length (List.filter f l)) = existsb f l.
Proof.
  induction l as [|x l IH]; [reflexivity|]. simpl.
  destruct (f x); [reflexivity | exact IH].
Qed.

Lemma existsb_pointwise {A} (f g : A -> bool) (l : list A) :
  (forall x, f x = g x) -> existsb f l = existsb g l.
Proof.
  intros H. induction l as [|x l IH]; [reflexivity|]. simpl. by rewrite H, IH.
Qed.

Lemma geq_whole (t a : Z) : Alerts.geq (inject_Z t) (inject_Z a) = (a <=? t)%Z.
Proof.
  unfold Alerts.geq, Qle_bool, inject_Z. simpl. by rewrite !Z.mul_1_r.
Qed.

Lemma lt_whole (t a : Z) : Alerts.lt (inject_Z t) (inject_Z a) = (t <? a)%Z.
Proof.
  unfold Alerts.lt. fold (Alerts.geq (inject_Z t) (inject_Z a)).
  rewrite geq_whole. apply eq_sym, Z.ltb_antisym.
Qed.

Lemma checkSlowApiCalls_policy calls :
  map type (checkSlowApiCalls calls)
  = policy (existsb (fun call => (1000 <=? timeTaken call)%Z) calls)
           (existsb (fun call => (500 <=? timeTaken call)%Z
                                 && (timeTaken call <? 1000)%Z) calls).
Proof.
  unfold checkSlowApiCalls, policy. cbv zeta. rewrite !filter_nonempty.
  rewrite (existsb_pointwise _ (fun call => (1000 <=? timeTaken call)%Z))
    by (intros call; apply (geq_whole _ 1000)).
  rewrite (existsb_pointwise
             (fun call => Alerts.geq _ _ && _)
             (fun call => (500 <=? timeTaken call)%Z && (timeTaken call <? 1000)%Z))
    by (intros call; f_equal; [apply (geq_whole _ 500) | apply (lt_whole _ 1000)]).
  destruct (existsb _ calls); [reflexivity|].
  destruct (existsb _ calls); reflexivity.
Qed.

Lemma sizeOf_transferred a call :
  Qle_bool a (sizeOf call) = Qle_bool a (transferred call).
Proof.
  unfold sizeOf, transferred, or_else.
  destruct (rawData call) as [data|]; [|reflexivity].
  destruct (transferSize data) as [size|]; [|reflexivity]. simpl.
  destruct (Qeq_bool size 0) eqn:E; [|reflexivity]. simpl.
  apply Qeq_bool_iff in E. by rewrite E.
Qed.

Lemma checkPayloads_policy calls :
  map type (checkPayloads calls)
  = policy (existsb (fun call => Qle_bool (5 * 1024 * 1024) (transferred call)) calls)
           (existsb (fun call => Qle_bool (1024 * 1024) (transferred call)
                                 && negb (Qle_bool (5 * 1024 * 1024) (transferred call)))
                    calls).
Proof.
  unfold checkPayloads, policy. cbv zeta. rewrite !filter_nonempty.
  rewrite (existsb_pointwise _
             (fun call => Qle_bool (5 * 1024 * 1024) (transferred call)))
    by (intros call; apply sizeOf_transferred).
  rewrite (existsb_pointwise
             (fun call => Alerts.geq _ _ && _)
             (fun call => Qle_bool (1024 * 1024) (transferred call)
                          && negb (Qle_bool (5 * 1024 * 1024) (transferred call))))
    by (intros call; unfold Alerts.lt; f_equal; [|f_equal]; apply sizeOf_transferred).
  destruct (existsb _ calls); [reflexivity|].
  destruct (existsb _ calls); reflexivity.
Qed.

Lemma rate_at_least (a b : positive) (e n : nat) :
  0 < n ->
  Qle_bool (Zpos a # b) (inject_Z (Z.of_nat e) / inject_Z (Z.of_nat n))
  = (Zpos a * Z.of_nat n <=? Zpos b * Z.of_nat e)%Z.
Proof.
  intros Hn.
  assert (Hq : (0 < inject_Z (Z.of_nat n))%Q)
    by (change 0%Q with (inject_Z 0); rewrite <- Zlt_Qlt; lia).
  apply eq_true_iff_eq. rewrite Qle_bool_iff, Z.leb_le. split.
  - intros H. apply (Qmult_le_compat_r _ _ (inject_Z (Z.of_nat n))) in H;
      [|by apply Qlt_le_weak].
    rewrite Qmult_comm, (Qmult_comm (_ / _)), Qmult_div_r in H
      by (intros E; rewrite E in Hq; by apply Qlt_irrefl in Hq).
    unfold Qle, Qmult, inject_Z in H. simpl in H. lia.
  - intros H. apply Qle_shift_div_l; [done|].
    unfold Qle, Qmult, inject_Z. simpl. lia.
Qed.

Lemma checkErrorRate_policy calls :
  calls <> [] ->
  let e := length (errorCalls calls) in
  let n := length calls in
  map type (checkErrorRate calls)
  = if e =? 0 then [] else policy (n <=? 10 * e) (n <=? 20 * e).
Proof.
  intros Hne e n.
  assert (Hn : 0 < n) by (subst n; destruct calls; [done | simpl; lia]).
  unfold checkErrorRate, policy. cbv zeta. fold (errorCalls calls). fold e. fold n.
  destruct (Nat.eqb_spec e 0) as [->|He]; [reflexivity|].
  assert ((0 <? e) = true) as -> by (apply Nat.ltb_lt; lia).
  unfold Alerts.geq.
  change (critical apiThresholds.errorRate) with (1 # 10)%Q.
  change (warning apiThresholds.errorRate) with (5 # 100)%Q.
  rewrite !rate_at_least by done.
  destruct (Nat.leb_spec n (10 * e)).
  - assert ((1 * Z.of_nat n <=? 10 * Z.of_nat e)%Z = true) as ->
      by (apply Z.leb_le; lia).
    reflexivity.
  - assert ((1 * Z.of_nat n <=? 10 * Z.of_nat e)%Z = false) as ->
      by (apply Z.leb_gt; lia).
    destruct (Nat.leb_spec n (20 * e)).
    + assert ((5 * Z.of_nat n <=? 100 * Z.of_nat e)%Z = true) as ->
        by (apply Z.leb_le; lia).
      reflexivity.
    + assert ((5 * Z.of_nat n <=? 100 * Z.of_nat e)%Z = false) as ->
        by (apply Z.leb_gt; lia).
      reflexivity.
Qed.

Lemma lighthouse_metric_absent apiResults m :
  In m lighthouseMetrics ->
  forMetric m (generatePerformanceAlerts None apiResults) = [].
Proof.
  intros Hin. unfold generatePerformanceAlerts. cbv zeta.
  destruct apiResults as [[[calls|]]|]; cbn [Alerts.apiCalls];
    try destruct (0 <? length calls)%nat; try reflexivity;
    simpl in Hin; intuition subst; by other_blocks.
Qed.

Lemma api_metric_absent lighthouseResults m :
  In m apiMetrics ->
  forMetric m (generatePerformanceAlerts lighthouseResults None) = [] /\
  forMetric m (generatePerformanceAlerts lighthouseResults
                 (Some {| apiCalls := None |})) = [] /\
  forMetric m (generatePerformanceAlerts lighthouseResults
                 (Some {| apiCalls := Some [] |})) = [].
Proof.
  intros Hin. unfold generatePerformanceAlerts. cbv zeta. cbn [Alerts.apiCalls length Nat.ltb Nat.leb].
  destruct lighthouseResults as [lh|]; [|done].
  simpl in Hin; intuition subst; by other_blocks.
Qed.

(** C6: for every input and every metric, the critical threshold is
    tested first and the warning threshold only when the critical one
    did not fire, so the alert list holds at most one alert about that
    metric. Block by block: FCP at 3000 and 2000 ms, LCP at 4000 and
    2500, TTI at 7300 and 3800, TBT at 600 and 300, SI at 5800 and 3400,
    for a raw value that is there and not zero; CLS at 0.25 and 0.1 for
    a raw value that is there; the performance and accessibility scores
    at or below 0.5 and 0.7 ([null] counting as 0); some call of at
    least 1000 ms, else some call of at least 500 ms; an error rate of
    at least a tenth, else of at least a twentieth, when there is a
    call with a status of 400 or more; some payload of at least 5 MB,
    else one of at least 1 MB. A metric whose part of the input is missing
    raises nothing. A call set with 3 errors in 40 calls yields exactly
    one API Reliability alert, a warning with threshold 5.0%, and one
    with 5 errors in 40 yields exactly one, a critical with threshold
    10.0%, hence no warning beside it. *)
Theorem alerts_one_per_metric :
  (forall lighthouseResults apiResults m,
      length (forMetric m (generatePerformanceAlerts lighthouseResults apiResults)) <= 1) /\
  (forall lighthouseResults calls,
      length calls = 40 -> length (errorCalls calls) = 3 ->
      exists alert,
        inCategory "API Reliability"
          (generatePerformanceAlerts lighthouseResults
             (Some {| apiCalls := Some calls |})) = [alert] /\
        type alert = Warning /\ metric alert = "API Error Rate" /\
        value alert = "7.5%" /\ threshold alert = "5.0%") /\
  (forall lighthouseResults calls,
      length calls = 40 -> length (errorCalls calls) = 5 ->
      exists alert,
        inCategory "API Reliability"
          (generatePerformanceAlerts lighthouseResults
             (Some {| apiCalls := Some calls |})) = [alert] /\
        type alert = Critical /\ metric alert = "API Error Rate" /\
        value alert = "12.5%" /\ threshold alert = "10.0%") /\
  (forall lh apiResults,
      let alerts := generatePerformanceAlerts (Some lh) apiResults in
      severities "First Contentful Paint (FCP)" alerts
      = whenPresent (raw fcpRaw lh)
          (fun x => policy (Qle_bool 3000 x) (Qle_bool 2000 x)) /\
      severities "Largest Contentful Paint (LCP)" alerts
      = whenPresent (raw lcpRaw lh)
          (fun x => policy (Qle_bool 4000 x) (Qle_bool 2500 x)) /\
      severities "Cumulative Layout Shift (CLS)" alerts
      = match raw clsRaw lh with
        | Some x => policy (Qle_bool 0.25 x) (Qle_bool 0.1 x)
        | None => []
        end /\
      severities "Time to Interactive (TTI)" alerts
      = whenPresent (raw ttiRaw lh)
          (fun x => policy (Qle_bool 7300 x) (Qle_bool 3800 x)) /\
      severities "Total Blocking Time (TBT)" alerts
      = whenPresent (raw tbtRaw lh)
          (fun x => policy (Qle_bool 600 x) (Qle_bool 300 x)) /\
      severities "Speed Index (SI)" alerts
      = whenPresent (raw siRaw lh)
          (fun x => policy (Qle_bool 5800 x) (Qle_bool 3400 x)) /\
      severities "Performance Score" alerts
      = match performance lh with
        | ScoreUndefined => []
        | ScoreNull => [Critical]
        | ScoreNum x => policy (Qle_bool x 0.5) (Qle_bool x 0.7)
        end /\
      severities "Accessibility Score" alerts
      = match accessibility lh with
        | ScoreUndefined => []
        | ScoreNull => [Critical]
        | ScoreNum x => policy (Qle_bool x 0.5) (Qle_bool x 0.7)
        end) /\
  (forall lighthouseResults calls,
      calls <> [] ->
      let alerts :=
        generatePerformanceAlerts lighthouseResults
          (Some {| apiCalls := Some calls |}) in
      let e := length (errorCalls calls) in
      let n := length calls in
      severities "Slow API Calls" alerts
      = policy (existsb (fun call => (1000 <=? timeTaken call)%Z) calls)
               (existsb (fun call => (500 <=? timeTaken call)%Z
                                     && (timeTaken call <? 1000)%Z) calls) /\
      severities "API Error Rate" alerts
      = (if e =? 0 then [] else policy (n <=? 10 * e) (n <=? 20 * e)) /\
      severities "Large API Payloads" alerts
      = policy (existsb (fun call =>
                           Qle_bool (5 * 1024 * 1024) (transferred call)) calls)
               (existsb (fun call =>
                           Qle_bool (1024 * 1024) (transferred call)
                           && negb (Qle_bool (5 * 1024 * 1024) (transferred call)))
                        calls)) /\
  (forall apiResults m,
      In m lighthouseMetrics ->
      severities m (generatePerformanceAlerts None apiResults) = []) /\
  (forall lighthouseResults m,
      In m apiMetrics ->
      severities m (generatePerformanceAlerts lighthouseResults None) = [] /\
      severities m (generatePerformanceAlerts lighthouseResults
                      (Some {| apiCalls := None |})) = [] /\
      severities m (generatePerformanceAlerts lighthouseResults
                      (Some {| apiCalls := Some [] |})) = []).
Proof.
  split; [exact generatePerformanceAlerts_forMetric|].
  split; [|split; [|split; [|split; [|split]]]].
  - intros lh calls Hn Hk. rewrite inCategory_reliability.
    + by apply checkErrorRate_3_of_40.
    + intros ->. discriminate.
  - intros lh calls Hn Hk. rewrite inCategory_reliability.
    + by apply checkErrorRate_5_of_40.
    + intros ->. discriminate.
  - intros lh apiResults alerts. subst alerts. unfold severities.
    destruct (lighthouse_blocks lh apiResults)
      as (-> & -> & -> & -> & -> & -> & -> & ->).
    repeat split;
      [ apply checkFCP_policy | apply checkLCP_policy | apply checkCLS_policy
      | apply checkTTI_policy | apply checkTBT_policy | apply checkSI_policy
      | apply checkPerformance_policy | apply checkAccessibility_policy ].
  - intros lh calls Hne alerts e n. subst alerts. unfold severities.
    destruct (api_alerts lh calls Hne) as (-> & -> & ->).
    repeat split;
      [ apply checkSlowApiCalls_policy | by apply checkErrorRate_policy
      | apply checkPayloads_policy ].
  - intros apiResults m Hin. unfold severities.
    by rewrite lighthouse_metric_absent.
  - intros lh m Hin. unfold severities.
    destruct (api_metric_absent lh m Hin) as (-> & -> & ->). done.
Qed.

Lemma alerts_one_per_metric_witness :
  length (forMetric "API Error Rate"
            (generatePerformanceAlerts (Some slowPaints)
               (Some {| apiCalls := Some (callsWithErrors 5 40) |}))) <= 1 /\
  (exists alert,
      inCategory "API Reliability"
        (generatePerformanceAlerts (Some slowPaints)
           (Some {| apiCalls := Some (callsWithErrors 3 40) |})) = [alert] /\
      type alert = Warning /\ metric alert = "API Error Rate" /\
      value alert = "7.5%" /\ threshold alert = "5.0%") /\
  (exists alert,
      inCategory "API Reliability"
        (generatePerformanceAlerts (Some slowPaints)
           (Some {| apiCalls := Some (callsWithErrors 5 40) |})) = [alert] /\
      type alert = Critical /\ metric alert = "API Error Rate" /\
      value alert = "12.5%" /\ threshold alert = "10.0%") /\
  severities "First Contentful Paint (FCP)"
    (generatePerformanceAlerts (Some allWarnings) None) = [Warning] /\
  severities "Largest Contentful Paint (LCP)"
    (generatePerformanceAlerts (Some slowPaints) None) = [Critical] /\
  severities "Slow API Calls"
    (generatePerformanceAlerts None (Some {| apiCalls := Some [slowCall] |}))
  = [Critical] /\
  severities "Large API Payloads"
    (generatePerformanceAlerts None (Some {| apiCalls := Some [slowCall] |}))
  = [Warning].
Proof.
  destruct alerts_one_per_metric as (H1 & H2 & H3 & H4 & H5 & _).
  split; [apply H1|]. split; [|split; [|split; [|split; [|split]]]].
  - apply H2; reflexivity.
  - apply H3; reflexivity.
  - apply (H4 allWarnings None).
  - apply (H4 slowPaints None).
  - apply (H5 None [slowCall]). discriminate.
  - apply (H5 None [slowCall]). discriminate.
Defined.

(** ** Order of the alerts *)

Lemma filter_sublist {A} (f : A -> bool) (l : list A) :
  List.filter f l `sublist_of` l.
Proof.
  induction l as [|x l IH]; simpl; [constructor|].
  destruct (f x); by constructor.
Qed.

Lemma critical_or_warning (alerts : list Alert) :
  List.filter isCritical alerts ++ List.filter isWarning alerts ≡ₚ alerts.
Proof.
  unfold isCritical, isWarning.
  induction alerts as [|alert alerts IH]; simpl; [done|].
  destruct (type alert); simpl.
  - by constructor.
  - rewrite <- Permutation_middle. by constructor.
Qed.

Lemma isCritical_type alerts i a :
  List.filter isCritical alerts !! i = Some a -> type a = Critical.
Proof.
  intros H. apply list_elem_of_lookup_2, list_elem_of_In, filter_In in H as [_ H].
  unfold isCritical in H. by destruct (type a).
Qed.

Lemma isWarning_type alerts i a :
  List.filter isWarning alerts !! i = Some a -> type a = Warning.
Proof.
  intros H. apply list_elem_of_lookup_2, list_elem_of_In, filter_In in H as [_ H].
  unfold isWarning in H. by destruct (type a).
Qed.

Lemma display_order_criticalFirst alerts :
  criticalFirst (List.filter isCritical alerts ++ List.filter isWarning alerts).
Proof.
  intros i j a b Ha Hb Hwa Hcb.
  destruct (decide (i < length (List.filter isCritical alerts))) as [Hi|Hi].
  { rewrite lookup_app_l in Ha by done.
    apply isCritical_type in Ha. congruence. }
  destruct (decide (j < length (List.filter isCritical alerts))) as [Hj|Hj]; [lia|].
  rewrite lookup_app_r in Hb by lia.
  apply isWarning_type in Hb. congruence.
Qed.

(** ** The order of generation *)

Lemma block_metrics c m block :
  pushesAtMostOne c m block -> map metric block `sublist_of` [m].
Proof.
  intros [-> | (alert & -> & _ & <-)]; simpl; [apply sublist_nil_l | done].
Qed.

Lemma lighthouse_order lh :
  map metric
    (checkFCP (lh_details lh) ++ checkLCP (lh_details lh)
     ++ checkCLS (lh_details lh) ++ checkTTI (lh_details lh)
     ++ checkTBT (lh_details lh) ++ checkSI (lh_details lh)
     ++ checkPerformance (performance lh)
     ++ checkAccessibility (accessibility lh))
  `sublist_of` lighthouseMetrics.
Proof.
  rewrite !map_app.
  change lighthouseMetrics with
    (["First Contentful Paint (FCP)"] ++ ["Largest Contentful Paint (LCP)"]
     ++ ["Cumulative Layout Shift (CLS)"] ++ ["Time to Interactive (TTI)"]
     ++ ["Total Blocking Time (TBT)"] ++ ["Speed Index (SI)"]
     ++ ["Performance Score"] ++ ["Accessibility Score"]).
  repeat apply sublist_app; eapply block_metrics;
    [ apply checkFCP_block | apply checkLCP_block | apply checkCLS_block
    | apply checkTTI_block | apply checkTBT_block | apply checkSI_block
    | apply checkPerformance_block | apply checkAccessibility_block ].
Qed.

Lemma api_order calls :
  map metric (checkSlowApiCalls calls ++ checkErrorRate calls ++ checkPayloads calls)
  `sublist_of` apiMetrics.
Proof.
  rewrite !map_app.
  change apiMetrics with
    (["Slow API Calls"] ++ ["API Error Rate"] ++ ["Large API Payloads"]).
  repeat apply sublist_app; eapply block_metrics;
    [ apply checkSlowApiCalls_block | apply checkErrorRate_block
    | apply checkPayloads_block ].
Qed.

Lemma generatePerformanceAlerts_in_checkOrder lighthouseResults apiResults :
  map metric (generatePerformanceAlerts lighthouseResults apiResults)
  `sublist_of` checkOrder.
Proof.
  unfold generatePerformanceAlerts, checkOrder. cbv zeta.
  destruct lighthouseResults as [lh|];
    destruct apiResults as [[[calls|]]|]; cbn [Alerts.apiCalls];
    try destruct (0 <? length calls)%nat;
    rewrite ?app_nil_l.
  all: try (apply sublist_inserts_r; apply lighthouse_order).
  all: try (apply sublist_inserts_l; apply api_order).
  all: try apply sublist_nil_l.
  rewrite map_app.
  apply sublist_app; [apply lighthouse_order | apply api_order].
Qed.

(** ** The displayed text *)

Lemma string_append_assoc (s1 s2 s3 : string) :
  ((s1 ++ s2) ++ s3 = s1 ++ (s2 ++ s3))%string.
Proof.
  induction s1 as [|c s1 IH]; [reflexivity|].
  change (String c ((s1 ++ s2) ++ s3) = String c (s1 ++ (s2 ++ s3)))%string.
  by rewrite IH.
Qed.

Lemma string_append_empty (s : string) : (s ++ "" = s)%string.
Proof.
  induction s as [|c s IH]; [reflexivity|].
  change (String c (s ++ "") = String c s)%string. by rewrite IH.
Qed.

Lemma concat_pieces_cons (piece : string) (pieces : list string) :
  String.concat "" (piece :: pieces) = (piece ++ String.concat "" pieces)%string.
Proof.
  destruct pieces as [|piece' pieces];
    [symmetry; apply string_append_empty | reflexivity].
Qed.

Lemma concat_pieces_app (pieces pieces' : list string) :
  String.concat "" (pieces ++ pieces')
  = (String.concat "" pieces ++ String.concat "" pieces')%string.
Proof.
  induction pieces as [|piece pieces IH]; [reflexivity|].
  rewrite <- app_comm_cons, !concat_pieces_cons, IH.
  by rewrite string_append_assoc.
Qed.

Lemma formatSection_heading title group :
  formatSection title group
  = (heading title group ++ String.concat "" (imap formatAlert group))%string.
Proof.
  unfold formatSection, heading. destruct group as [|alert group]; [reflexivity|].
  change (0 <? length (alert :: group)) with true. cbv iota.
  by rewrite !string_append_assoc.
Qed.

Lemma formatAlertsForDisplay_text alerts :
  alerts <> [] ->
  formatAlertsForDisplay (Some alerts)
  = String.concat ""
      (heading "CRITICAL ALERTS" (List.filter isCritical alerts)
       :: imap formatAlert (List.filter isCritical alerts)
       ++ heading "WARNING ALERTS" (List.filter isWarning alerts)
       :: imap formatAlert (List.filter isWarning alerts)
       ++ [summaryLines (length alerts)
             (length (List.filter isCritical alerts))
             (length (List.filter isWarning alerts))]).
Proof.
  intros Hne. destruct alerts as [|alert alerts]; [done|].
  unfold formatAlertsForDisplay.
  change (criticalAlerts (alert :: alerts))
    with (List.filter isCritical (alert :: alerts)).
  change (warningAlerts (alert :: alerts))
    with (List.filter isWarning (alert :: alerts)).
  rewrite !formatSection_heading.
  rewrite concat_pieces_cons, concat_pieces_app, concat_pieces_cons,
    concat_pieces_app, concat_pieces_cons.
  unfold summaryLines. cbn [String.concat].
  by rewrite !string_append_assoc, ?string_append_empty.
Qed.

(** C8, as stated, fails: the list [generatePerformanceAlerts] returns
    is in the order of its checks, and a warning (FCP) comes before a
    critical alert (LCP). *)
Lemma generatePerformanceAlerts_not_criticalFirst :
  ~ criticalFirst (generatePerformanceAlerts (Some slowPaints) None).
Proof.
  intros H.
  assert (Hlt : 1 < 0); [|lia].
  eapply (H 0 1); vm_compute; reflexivity.
Qed.

(** C8 (amended): the list [generatePerformanceAlerts] returns is in
    generation order, the fixed order of its checks, and is not grouped
    by severity. The grouping is made by [formatAlertsForDisplay]: its
    text is, in this order, the heading of the critical alerts, one
    entry for each critical alert, the heading of the warning alerts,
    one entry for each warning alert, and the summary with the three
    counts. In that sequence every critical alert precedes every warning
    alert, each group keeps the order of generation, and no alert is
    lost or repeated. *)
Theorem formatAlertsForDisplay_groups_by_severity lighthouseResults apiResults :
  let alerts := generatePerformanceAlerts lighthouseResults apiResults in
  let critical := List.filter isCritical alerts in
  let warning := List.filter isWarning alerts in
  let shown := critical ++ warning in
  map metric alerts `sublist_of` checkOrder /\
  formatAlertsForDisplay (Some alerts)
  = match alerts with
    | [] => "No performance alerts detected. Your website is performing well!"
    | _ :: _ =>
        String.concat ""
          (heading "CRITICAL ALERTS" critical
           :: imap formatAlert critical
           ++ heading "WARNING ALERTS" warning
           :: imap formatAlert warning
           ++ [summaryLines (length alerts) (length critical) (length warning)])
    end /\
  criticalFirst shown /\
  critical `sublist_of` alerts /\
  warning `sublist_of` alerts /\
  shown ≡ₚ alerts.
Proof.
  intros alerts critical warning shown.
  split; [apply generatePerformanceAlerts_in_checkOrder|].
  split.
  { subst critical warning. destruct alerts as [|alert rest] eqn:E; [reflexivity|].
    by apply formatAlertsForDisplay_text. }
  split; [apply display_order_criticalFirst|].
  split; [apply filter_sublist|]. split; [apply filter_sublist|].
  apply critical_or_warning.
Qed.
End AlertsFacts.

(* ===================================================================== *)
(** * Crawler: what holds at every turn of the loop *)
(* ===================================================================== *)

Module CrawlInvariants.
Import Js Classifier Crawler CrawlerSpec CrawlerFacts CrawlTerms.
Local Open Scope nat_scope.
Local Open Scope list_scope.

(** ** The handlers *)

Lemma onRequest_eq u d calls request newId now :
  onRequest u d calls request newId now =
  if isApiRequest (req_url request) (req_resourceType request)
  then calls ++ [ {| id := newId; url := req_url request;
                     method := req_method request; headers := req_headers request;
                     postData := req_postData request;
                     resourceType := req_resourceType request;
                     startTime := now; page := u; depth := d;
                     endTime := None; duration := None; status := None;
                     statusText := None; responseHeaders := None;
                     responseSize := None |} ]
  else calls.
Proof. reflexivity. Qed.

Lemma onResponse_cases calls response now :
  onResponse calls response now = calls \/
  exists i call, calls !! i = Some call /\
                 sameCall (resp_request response) call /\
                 onResponse calls response now = alter (resolve response now) i calls.
Proof.
  unfold onResponse. destruct (isApiRequest _ _); [|by left].
  destruct (list_find _ calls) as [[i call]|] eqn:E; [|by left].
  apply list_find_Some in E as (Hi & Hs & _). right. by exists i, call.
Qed.

Lemma handle_length u d calls ev :
  length calls <= length (handle u d calls ev).
Proof.
  destruct ev as [request newId now|response now]; simpl.
  - rewrite onRequest_eq. destruct (isApiRequest _ _); [|done].
    rewrite length_app. lia.
  - destruct (onResponse_cases calls response now) as [->|(i & call & _ & _ & ->)];
      [done|]. by rewrite length_alter.
Qed.

Lemma runEvents_cons u d ev events calls :
  runEvents u d (ev :: events) calls = runEvents u d events (handle u d calls ev).
Proof. reflexivity. Qed.

Lemma runEvents_length u d events : forall calls,
  length calls <= length (runEvents u d events calls).
Proof.
  induction events as [|ev events IH]; intros calls; simpl; [done|].
  etrans; [apply (handle_length u d calls ev)|]. apply IH.
Qed.

Lemma handle_recordedOn u d calls ev :
  Forall (recordedOn u d) calls -> Forall (recordedOn u d) (handle u d calls ev).
Proof.
  intros H. destruct ev as [request newId now|response now]; simpl.
  - rewrite onRequest_eq. destruct (isApiRequest _ _) eqn:E; [|done].
    apply Forall_app. split; [done|]. by repeat constructor.
  - destruct (onResponse_cases calls response now) as [->|(i & call & _ & _ & ->)];
      [done|].
    apply Forall_alter; [done|]. intros c _ Hc. exact Hc.
Qed.

Lemma runEvents_recordedOn u d events : forall calls,
  Forall (recordedOn u d) calls -> Forall (recordedOn u d) (runEvents u d events calls).
Proof.
  induction events as [|ev events IH]; intros calls H; simpl; [done|].
  by apply IH, handle_recordedOn.
Qed.

Lemma handle_ids u d calls ev :
  map id (handle u d calls ev) = map id calls ++ observedIds [ev].
Proof.
  destruct ev as [request newId now|response now]; simpl.
  - rewrite onRequest_eq. destruct (isApiRequest _ _).
    + by rewrite map_app.
    + by rewrite app_nil_r.
  - rewrite app_nil_r.
    destruct (onResponse_cases calls response now) as [->|(i & call & Hi & _ & ->)];
      [done|].
    apply list_eq. intros j. rewrite !list_lookup_fmap.
    destruct (decide (i = j)) as [->|Hne].
    + rewrite list_lookup_alter_eq, Hi. reflexivity.
    + by rewrite list_lookup_alter_ne.
Qed.

Lemma observedIds_cons ev events :
  observedIds (ev :: events) = observedIds [ev] ++ observedIds events.
Proof.
  destruct ev as [request newId now|response now]; simpl; [|done].
  by destruct (isApiRequest _ _).
Qed.

Lemma runEvents_ids_from u d events : forall calls,
  map id (runEvents u d events calls) = map id calls ++ observedIds events.
Proof.
  induction events as [|ev events IH]; intros calls.
  - simpl. by rewrite app_nil_r.
  - rewrite runEvents_cons, IH, handle_ids, (observedIds_cons ev events), <- app_assoc.
    reflexivity.
Qed.

Lemma handle_keeps_unmatched u d calls ev i call :
  calls !! i = Some call ->
  (forall response now, ev = OnResponse response now ->
     ~ sameCall (resp_request response) call) ->
  handle u d calls ev !! i = Some call.
Proof.
  intros Hi Hev. destruct ev as [request newId now|response now]; simpl.
  - rewrite onRequest_eq. destruct (isApiRequest _ _); [|done].
    by apply lookup_app_l_Some.
  - destruct (onResponse_cases calls response now) as [->|(j & c & Hj & Hs & ->)];
      [done|].
    destruct (decide (j = i)) as [->|Hne].
    + rewrite Hi in Hj. inversion Hj; subst. by destruct (Hev response now eq_refl).
    + by rewrite list_lookup_alter_ne.
Qed.


Lemma runEvents_keeps_unmatched_from u d events : forall calls i call,
  calls !! i = Some call ->
  (forall response now, OnResponse response now ∈ events ->
     ~ sameCall (resp_request response) call) ->
  runEvents u d events calls !! i = Some call.
Proof.
  induction events as [|ev events IH]; intros calls i call Hi Hno; [done|].
  rewrite runEvents_cons. apply IH.
  - apply handle_keeps_unmatched; [done|].
    intros response now ->. apply (Hno response now). apply list_elem_of_here.
  - intros response now Hin. apply (Hno response now). by apply list_elem_of_further.
Qed.

(** ** Lists that never go down *)

Lemma nondecreasing_app l1 l2 :
  nondecreasing (l1 ++ l2) <->
  nondecreasing l1 /\ nondecreasing l2 /\
  Forall (fun x => Forall (fun y => x <= y) l2) l1.
Proof.
  induction l1 as [|x l1 IH]; simpl.
  - split; [intros H; repeat split; [done | constructor] | tauto].
  - rewrite Forall_app, IH, Forall_cons. tauto.
Qed.

Lemma nondecreasing_replicate n x : nondecreasing (replicate n x).
Proof.
  induction n as [|n IH]; simpl; [done|]. split; [|done].
  apply Forall_forall. intros y Hy. apply elem_of_replicate in Hy as [-> _]. done.
Qed.

(** ** One visit *)

Section WithBrowser.
Variable browser : string -> PageLoad.

Lemma enqueueLinks_spec u d ls : forall c q,
  exists newUrls,
    fold_left (enqueueLink u d) ls (c, q)
    = (set_discoveredUrls c (list_to_set newUrls ∪ discoveredUrls c),
       q ++ map (childEntry u d) newUrls).
Proof.
  induction ls as [|l ls IH]; intros c q.
  - exists []. simpl. rewrite app_nil_r, union_empty_l_L. by destruct c.
  - simpl. destruct (negb (Set_has (link_url l) (visitedUrls c)) &&
                     negb (bool_decide (link_url l ∈ discoveredUrls c))).
    + fold (childEntry u d (link_url l)).
      destruct (IH (set_discoveredUrls c ({[link_url l]} ∪ discoveredUrls c))
                   (q ++ [childEntry u d (link_url l)])) as (newUrls & ->).
      exists (link_url l :: newUrls). simpl.
      rewrite <- app_assoc. f_equal. unfold set_discoveredUrls. simpl.
      f_equal. apply set_eq. intros y. rewrite !elem_of_union. tauto.
    + apply IH.
Qed.

(** Everything a visit changes. *)
Lemma visitPage_spec c entry rest :
  exists p newUrls pushed discovered,
    visitPage browser c entry rest
    = ({| maxPages := maxPages c; maxDepth := maxDepth c;
          visitedUrls := Set_add (q_url entry) (visitedUrls c);
          discoveredUrls := discovered;
          pageData := <[q_url entry := p]> (pageData c);
          apiCalls := apiCalls c ++ pushed |},
       rest ++ map (childEntry (q_url entry) (q_depth entry)) newUrls) /\
    page_depth p = q_depth entry /\
    page_parent p = q_parentUrl entry /\
    length pushed = page_apiCalls (Some p) /\
    Forall (recordedOn (q_url entry) (q_depth entry)) pushed.
Proof.
  unfold visitPage. destruct (browser (q_url entry)) as [evs msg|evs info later].
  - exists (PageError msg (q_depth entry) (q_parentUrl entry)), [], [],
      (discoveredUrls c).
    simpl. rewrite !app_nil_r. repeat split. constructor.
  - set (calls := runEvents (q_url entry) (q_depth entry) evs []).
    set (pushed := take (length calls)
                     (runEvents (q_url entry) (q_depth entry) later calls)).
    match goal with |- context [fold_left _ _ (?c0, _)] => set (c1 := c0) end.
    destruct (enqueueLinks_spec (q_url entry) (q_depth entry) (links info) c1 rest)
      as (newUrls & ->).
    exists (PageOk info (length (links info)) (q_depth entry) (q_parentUrl entry)
              (length calls)), newUrls, pushed,
      (list_to_set newUrls ∪ discoveredUrls c).
    split; [reflexivity|]. repeat split.
    + unfold pushed. simpl. apply length_take_le, runEvents_length.
    + unfold pushed. apply Forall_take, runEvents_recordedOn.
      unfold calls. apply runEvents_recordedOn. constructor.
Qed.


Lemma belowParent_insert pd u p parent d :
  pd !! u = None -> belowParent pd parent d ->
  belowParent (<[u := p]> pd) parent d.
Proof.
  intros Hu. destruct parent as [P|]; simpl; [|done].
  intros (pp & HP & Hd). exists pp. split; [|done].
  rewrite lookup_insert_ne; [done|]. intros ->. congruence.
Qed.

Lemma depthOf_insert_ne pd u p v :
  u <> v -> depthOf (<[u := p]> pd) v = depthOf pd v.
Proof. intros Hne. unfold depthOf. by rewrite lookup_insert_ne. Qed.

Lemma depthOf_insert_eq pd u p : depthOf (<[u := p]> pd) u = page_depth p.
Proof. unfold depthOf. by rewrite lookup_insert_eq. Qed.

Lemma map_depthOf_insert pd u p l :
  u ∉ l -> map (depthOf (<[u := p]> pd)) l = map (depthOf pd) l.
Proof.
  intros Hu. apply map_ext_in. intros v Hv. apply depthOf_insert_ne.
  intros ->. by apply Hu, list_elem_of_In.
Qed.

Lemma sum_list_with_ext_in {A} (f g : A -> nat) l :
  (forall x, x ∈ l -> f x = g x) -> sum_list_with f l = sum_list_with g l.
Proof.
  induction l as [|x l IH]; intros H; simpl; [done|].
  rewrite (H x), IH; [done | | apply list_elem_of_here].
  intros y Hy. by apply H, list_elem_of_further.
Qed.

Lemma map_childEntry_depth u d l :
  map q_depth (map (childEntry u d) l) = replicate (length l) (d + 1).
Proof. induction l as [|x l IH]; simpl; [done|]. by rewrite IH. Qed.

Lemma skip_invariant c entry rest :
  crawlInvariant c (entry :: rest) -> crawlInvariant c rest.
Proof.
  intros [Hdom Hpages Hqueue Hcalls Hcount Hbv Hbq Hbetween Hgap].
  split; try done.
  - by inversion Hqueue.
  - by destruct Hbq.
  - eapply Forall_impl; [exact Hbetween|]. intros u Hu. by inversion Hu.
  - destruct rest as [|e2 rest]; [done|].
    simpl in Hbq. destruct Hbq as [Hhead _].
    inversion Hhead as [|? ? He2 _]; subst.
    inversion Hgap as [|? ? _ Hrest]; subst.
    eapply Forall_impl; [exact Hrest|]. intros e' He'. simpl in He'. lia.
Qed.

Lemma visit_invariant c entry rest :
  crawlInvariant c (entry :: rest) ->
  q_url entry ∉ visitedUrls c ->
  crawlInvariant (visitPage browser c entry rest).1 (visitPage browser c entry rest).2.
Proof.
  intros [Hdom Hpages Hqueue Hcalls Hcount Hbv Hbq Hbetween Hgap] Hnew.
  destruct (visitPage_spec c entry rest)
    as (p & newUrls & pushed & discovered & -> & Hpd & Hpp & Hlen & Hpushed).
  set (u := q_url entry) in *. set (d := q_depth entry) in *.
  assert (Hnone : pageData c !! u = None).
  { apply eq_None_not_Some. intros H. by apply Hnew, Hdom. }
  rewrite (Set_add_new _ _ Hnew).
  inversion Hqueue as [|? ? Hentry Hrestq]; subst.
  simpl in Hbq. destruct Hbq as [Hhead Hbq].
  assert (Hrest_ge : Forall (fun e => d <= q_depth e) rest).
  { apply Forall_forall. intros e He. rewrite Forall_forall in Hhead.
    apply Hhead, list_elem_of_fmap. by exists e. }
  assert (Hrest_le : Forall (fun e => q_depth e <= d + 1) rest).
  { by inversion Hgap. }
  assert (Hvis_le : Forall (fun v => depthOf (pageData c) v <= d) (visitedUrls c)).
  { eapply Forall_impl; [exact Hbetween|]. intros v Hv. by inversion Hv. }
  split; simpl.
  - intros v. rewrite elem_of_app, list_elem_of_singleton, Hdom.
    destruct (decide (u = v)) as [<-|Hne].
    + rewrite lookup_insert_eq. split; [by eexists | by right].
    + rewrite lookup_insert_ne by done. split; [intros [?|?]; [done | by subst] | by left].
  - intros v pv Hv. destruct (decide (u = v)) as [<-|Hne].
    + rewrite lookup_insert_eq in Hv. inversion Hv; subst pv.
      rewrite Hpd, Hpp. by apply belowParent_insert.
    + rewrite lookup_insert_ne in Hv by done.
      apply belowParent_insert; [done|]. by eapply Hpages.
  - apply Forall_app. split.
    + eapply Forall_impl; [exact Hrestq|]. intros e He.
      by apply belowParent_insert.
    + apply Forall_forall. intros e He.
      apply list_elem_of_fmap in He as (v & -> & _). simpl.
      exists p. rewrite lookup_insert_eq. split; [done | lia].
  - apply Forall_app. split.
    + eapply Forall_impl; [exact Hcalls|]. intros call (Hapi & pc & Hpc & Hd).
      split; [done|]. exists pc. split; [|done].
      rewrite lookup_insert_ne; [done|]. intros E. rewrite <- E in Hpc. congruence.
    + eapply Forall_impl; [exact Hpushed|]. intros call (Hapi & Hpage & Hd).
      split; [done|]. exists p. rewrite Hpage, lookup_insert_eq. split; [done|].
      by rewrite Hpd, Hd.
  - rewrite length_app, sum_list_with_app. simpl.
    rewrite lookup_insert_eq, Hlen, Hcount, Nat.add_0_r. f_equal.
    apply sum_list_with_ext_in. intros v Hv.
    rewrite lookup_insert_ne; [done|]. by intros ->.
  - rewrite map_app, (map_depthOf_insert _ _ _ _ Hnew). simpl.
    rewrite depthOf_insert_eq, Hpd.
    apply nondecreasing_app. split; [done|]. split; [by simpl|].
    apply Forall_fmap. eapply Forall_impl; [exact Hvis_le|].
    intros v Hv. simpl. by constructor.
  - rewrite map_app, map_childEntry_depth.
    apply nondecreasing_app. split; [done|]. split; [apply nondecreasing_replicate|].
    apply Forall_fmap. eapply Forall_impl; [exact Hrest_le|].
    intros e He. simpl. apply Forall_forall. intros y Hy.
    apply elem_of_replicate in Hy as [-> _]. done.
  - apply Forall_app. split.
    + rewrite Forall_forall in Hbetween, Hvis_le |- *. intros v Hv.
      rewrite (depthOf_insert_ne _ _ _ v) by (intros ->; done).
      apply Forall_app. split.
      * specialize (Hbetween v Hv). by inversion Hbetween.
      * apply Forall_forall. intros e He.
        apply list_elem_of_fmap in He as (w & -> & _). simpl.
        specialize (Hvis_le v Hv). simpl in Hvis_le. lia.
    + constructor; [|constructor]. rewrite depthOf_insert_eq, Hpd.
      apply Forall_app. split; [done|].
      apply Forall_forall. intros e He.
      apply list_elem_of_fmap in He as (w & -> & _). simpl. lia.
  - destruct rest as [|e2 rest]; simpl.
    + destruct newUrls as [|w newUrls]; simpl; [done|].
      constructor; [simpl; lia|]. apply Forall_forall. intros e He.
      apply list_elem_of_fmap in He as (w' & -> & _). simpl. lia.
    + inversion Hrest_ge as [|? ? He2 _]; subst.
      constructor; [simpl; lia|]. apply Forall_app. split.
      * inversion Hrest_le as [|? ? _ Hr]; subst.
        eapply Forall_impl; [exact Hr|]. intros e' He'. simpl in He'. lia.
      * apply Forall_forall. intros e He.
        apply list_elem_of_fmap in He as (w' & -> & _). simpl. lia.
Qed.

Lemma crawlStep_invariant c q c' q' :
  crawlInvariant c q -> crawlStep browser c q = Some (c', q') ->
  crawlInvariant c' q'.
Proof.
  intros Hinv Hstep. unfold crawlStep in Hstep.
  destruct q as [|entry rest]; [discriminate|].
  destruct (Number_lt (Number_of_nat (length (visitedUrls c))) (maxPages c));
    [|discriminate].
  destruct (Set_has (q_url entry) (visitedUrls c)) eqn:Hhas; simpl in Hstep.
  { inversion Hstep; subst. by eapply skip_invariant. }
  destruct (Number_lt (maxDepth c) (Number_of_nat (q_depth entry))).
  { inversion Hstep; subst. by eapply skip_invariant. }
  apply Set_has_false in Hhas.
  pose proof (visit_invariant c entry rest Hinv Hhas) as H.
  inversion Hstep as [Hst]. by rewrite Hst in H.
Qed.

Lemma crawlLoop_invariant fuel : forall c q c',
  crawlInvariant c q -> crawlLoop browser fuel c q = Some c' ->
  exists q', crawlInvariant c' q'.
Proof.
  induction fuel as [|fuel IH]; intros c q c' Hinv Hloop;
    destruct (crawlStep browser c q) as [[c1 q1]|] eqn:Hstep;
    try (rewrite (crawlLoop_done _ _ _ _ Hstep) in Hloop;
         inversion Hloop; subst; by exists q).
  { cbn -[crawlStep] in Hloop. rewrite Hstep in Hloop. discriminate. }
  rewrite (crawlLoop_step _ _ _ _ _ _ Hstep) in Hloop.
  eapply IH; [|exact Hloop]. by eapply crawlStep_invariant.
Qed.

Lemma new_crawlInvariant options baseUrl :
  crawlInvariant (new_WebsiteCrawler options)
    [ {| q_url := baseUrl; q_depth := 0; q_parentUrl := None |} ].
Proof.
  split; simpl.
  - intros u. rewrite lookup_empty. split; [by intros ?%elem_of_nil | by intros [? ?]].
  - intros u p H. by rewrite lookup_empty in H.
  - constructor; [reflexivity | constructor].
  - constructor.
  - reflexivity.
  - exact I.
  - split; [constructor | exact I].
  - constructor.
  - constructor; [simpl; lia | constructor].
Qed.

(** The crawler a run on a new crawler ends with. *)
Lemma crawlWebsite_invariant options baseUrl fuel c r :
  crawlWebsite browser fuel (new_WebsiteCrawler options) baseUrl = Some (c, r) ->
  r = generateCrawlResults c /\
  (exists q, crawlInvariant c q) /\
  withinBudgets c /\
  maxPages c = maxPages (new_WebsiteCrawler options) /\
  maxDepth c = maxDepth (new_WebsiteCrawler options).
Proof.
  unfold crawlWebsite. intros H.
  destruct (crawlLoop browser fuel _ _) as [c1|] eqn:Hloop; [|discriminate].
  inversion H; subst. split; [done|]. split.
  - eapply crawlLoop_invariant; [|exact Hloop]. apply new_crawlInvariant.
  - eapply crawlLoop_withinBudgets; [|exact Hloop].
    apply new_WebsiteCrawler_withinBudgets.
Qed.


(** X1: in the result of a run on a new crawler, every page record hangs
    below its parent: a record without [parentUrl] has depth 0, and a
    record with [parentUrl = P] has a record for [P] whose depth is one
    less. *)
Theorem crawl_child_depth_is_parent_depth_plus_1 options baseUrl fuel c r :
  crawlWebsite browser fuel (new_WebsiteCrawler options) baseUrl = Some (c, r) ->
  forall u p, r_pageData r !! u = Some p ->
    match page_parent p with
    | None => page_depth p = 0
    | Some P => exists pp, r_pageData r !! P = Some pp /\
                           page_depth p = page_depth pp + 1
    end.
Proof.
  intros Hrun u p Hp.
  destruct (crawlWebsite_invariant _ _ _ _ _ Hrun) as (-> & (q & Hinv) & _).
  exact (inv_pages _ _ Hinv u p Hp).
Qed.

(** X2: the result holds exactly one page record per visited URL: a URL
    is in [visitedUrls] if and only if [pageData] has a record for it, and
    [totalPages] is the number of records. *)
Theorem crawl_one_record_per_visited_url options baseUrl fuel c r :
  crawlWebsite browser fuel (new_WebsiteCrawler options) baseUrl = Some (c, r) ->
  (forall u, u ∈ r_visitedUrls r <-> is_Some (r_pageData r !! u)) /\
  totalPages r = size (r_pageData r).
Proof.
  intros Hrun.
  destruct (crawlWebsite_invariant _ _ _ _ _ Hrun)
    as (-> & (q & Hinv) & (_ & Hnd & _) & _).
  pose proof (inv_domain _ _ Hinv) as Hdom. simpl. split; [exact Hdom|].
  rewrite <- size_dom, <- (size_list_to_set (C := gset string) _ Hnd).
  f_equal. apply set_eq. intros u.
  rewrite elem_of_list_to_set, elem_of_dom. apply Hdom.
Qed.

(** X3: every API call in the result was accepted by the classifier and
    belongs to a visited page: its [page] is in [visitedUrls], and its
    [depth] is the depth recorded for that page, not above [maxDepth]. *)
Theorem crawl_api_calls_belong_to_visited_pages options baseUrl fuel c r :
  crawlWebsite browser fuel (new_WebsiteCrawler options) baseUrl = Some (c, r) ->
  forall call, call ∈ r_apiCalls r ->
    isApiRequest (url call) (resourceType call) = true /\
    page call ∈ r_visitedUrls r /\
    (exists p, r_pageData r !! page call = Some p /\ page_depth p = depth call) /\
    notAbove (depth call) (maxDepth (new_WebsiteCrawler options)) /\
    (forall k : nat, maxDepth (new_WebsiteCrawler options) = Number_of_nat k ->
       depth call <= k).
Proof.
  intros Hrun call Hcall.
  destruct (crawlWebsite_invariant _ _ _ _ _ Hrun)
    as (-> & (q & Hinv) & (_ & _ & Hdepth) & _ & Hmax).
  pose proof (inv_calls _ _ Hinv) as Hcalls. simpl in *.
  rewrite Forall_forall in Hcalls.
  destruct (Hcalls call Hcall) as (Hapi & p & Hp & Hd).
  assert (Hv : page call ∈ visitedUrls c) by (apply (inv_domain _ _ Hinv); eauto).
  split; [done|]. split; [done|]. split; [eauto|].
  destruct (Hdepth _ Hv) as (p' & Hp' & Hle). rewrite Hp in Hp'.
  inversion Hp'; subst. rewrite Hd, Hmax in Hle. split; [done|].
  intros k Hk. rewrite Hk in Hle. by apply notAbove_whole.
Qed.

(** X4: [totalApiCalls] is the sum, over the visited URLs, of the
    [apiCalls] counts stored in their page records (0 for a failed page). *)
Theorem crawl_totalApiCalls_is_sum_of_page_counts options baseUrl fuel c r :
  crawlWebsite browser fuel (new_WebsiteCrawler options) baseUrl = Some (c, r) ->
  totalApiCalls r
  = sum_list_with (fun u => page_apiCalls (r_pageData r !! u)) (r_visitedUrls r).
Proof.
  intros Hrun.
  destruct (crawlWebsite_invariant _ _ _ _ _ Hrun) as (-> & (q & Hinv) & _).
  exact (inv_count _ _ Hinv).
Qed.

(** X5: the crawl is breadth-first: along [visitedUrls], in the order the
    pages were visited, the recorded depth never goes down. *)
Theorem crawl_visits_in_depth_order options baseUrl fuel c r :
  crawlWebsite browser fuel (new_WebsiteCrawler options) baseUrl = Some (c, r) ->
  nondecreasing (map (depthOf (r_pageData r)) (r_visitedUrls r)).
Proof.
  intros Hrun.
  destruct (crawlWebsite_invariant _ _ _ _ _ Hrun) as (-> & (q & Hinv) & _).
  exact (inv_bfs_visited _ _ Hinv).
Qed.

(** X6: [maxDepthReached] is -Infinity only when no page was visited;
    otherwise it is the depth of some visited page, no page record is
    deeper, and it is not above [maxDepth]. *)
Theorem crawl_maxDepthReached_is_deepest_page options baseUrl fuel c r :
  crawlWebsite browser fuel (new_WebsiteCrawler options) baseUrl = Some (c, r) ->
  match maxDepthReached r with
  | None => r_visitedUrls r = []
  | Some d =>
      notAbove d (maxDepth (new_WebsiteCrawler options)) /\
      (forall k : nat, maxDepth (new_WebsiteCrawler options) = Number_of_nat k ->
         d <= k) /\
      (exists u p, u ∈ r_visitedUrls r /\ r_pageData r !! u = Some p /\
                   page_depth p = d) /\
      (forall u p, r_pageData r !! u = Some p -> page_depth p <= d)
  end.
Proof.
  intros Hrun.
  destruct (crawlWebsite_invariant _ _ _ _ _ Hrun)
    as (-> & (q & Hinv) & (_ & _ & Hdepth) & _ & Hmax).
  pose proof (inv_domain _ _ Hinv) as Hdom.
  unfold generateCrawlResults. cbn [maxDepthReached r_visitedUrls r_pageData].
  remember ((fun kv => page_depth kv.2) <$> map_to_list (pageData c)) as ds eqn:E.
  destruct ds as [|d0 ds].
  - symmetry in E. apply fmap_nil_inv, map_to_list_empty_iff in E.
    destruct (visitedUrls c) as [|u l]; [done|].
    assert (Hu : is_Some (pageData c !! u)) by (apply Hdom, list_elem_of_here).
    rewrite E, lookup_empty in Hu. by destruct Hu.
  - assert (Hin : max_list (d0 :: ds) ∈ d0 :: ds) by by apply max_list_elem_of.
    rewrite E in Hin at 2.
    apply list_elem_of_fmap in Hin as ([u p] & Hmaxd & Hup).
    apply elem_of_map_to_list in Hup.
    change (max_list (d0 :: ds) = page_depth p) in Hmaxd.
    assert (Hv : u ∈ visitedUrls c) by (apply Hdom; eauto).
    assert (Hle : notAbove (max_list (d0 :: ds)) (maxDepth (new_WebsiteCrawler options))).
    { destruct (Hdepth _ Hv) as (p' & Hp' & Hle). rewrite Hup in Hp'.
      inversion Hp'; subst. rewrite Hmaxd, <- Hmax. exact Hle. }
    split; [exact Hle|]. split; [|split].
    + intros k Hk. rewrite Hk in Hle. by apply notAbove_whole.
    + exists u, p. done.
    + intros v pv Hpv. apply max_list_elem_of_le. rewrite E.
      apply list_elem_of_fmap. exists (v, pv). split; [done|].
      by apply elem_of_map_to_list.
Qed.

End WithBrowser.

(** X7: the records of a page are in request order: after any events,
    their ids are the ids of the records there before followed by the ids
    drawn for the API-classified requests, in the order of the requests;
    responses add, drop and move nothing. *)
Theorem runEvents_keeps_request_order u d events calls :
  map id (runEvents u d events calls) = map id calls ++ observedIds events /\
  length (runEvents u d events calls) = length calls + length (observedIds events).
Proof.
  pose proof (runEvents_ids_from u d events calls) as H. split; [exact H|].
  apply (f_equal length) in H. by rewrite length_app, !length_map in H.
Qed.

(** X8: a record is left as it is by every event that is not a response
    to its own (url, method): with no such response among the events, the
    record stays at its place unchanged, so its [status] stays undefined
    if it was. *)
Theorem runEvents_leaves_unanswered_records u d events calls i call :
  calls !! i = Some call ->
  Forall (fun ev => ~ answers call ev) events ->
  runEvents u d events calls !! i = Some call.
Proof.
  intros Hi Hno. apply runEvents_keeps_unmatched_from; [done|].
  intros response now Hin. rewrite Forall_forall in Hno.
  exact (Hno _ Hin).
Qed.

Lemma runEvents_leaves_unanswered_records_witness :
  runEvents "https://x.com/" 0
    [ OnRequest ordersRequest "id3" 1300; OnResponse usersResponse 1400 ]
    [ inFlight "id1" 1000 ] !! 0
  = Some (inFlight "id1" 1000).
Proof.
  apply runEvents_leaves_unanswered_records; [reflexivity|].
  apply (bool_decide_unpack _). vm_compute. exact I.
Defined.

Lemma crawl_child_depth_is_parent_depth_plus_1_witness :
  exists c r,
    crawlWebsite demoSite 10 (new_WebsiteCrawler defaults) "https://x.com/" = Some (c, r) /\
    forall u p, r_pageData r !! u = Some p ->
      match page_parent p with
      | None => page_depth p = 0
      | Some P => exists pp, r_pageData r !! P = Some pp /\
                             page_depth p = page_depth pp + 1
      end.
Proof.
  eexists. eexists. split; [vm_compute; reflexivity|].
  eapply (crawl_child_depth_is_parent_depth_plus_1 demoSite defaults "https://x.com/" 10).
  vm_compute. reflexivity.
Defined.

Lemma crawl_one_record_per_visited_url_witness :
  exists c r,
    crawlWebsite demoSite 10 (new_WebsiteCrawler defaults) "https://x.com/" = Some (c, r) /\
    (forall u, u ∈ r_visitedUrls r <-> is_Some (r_pageData r !! u)) /\
    totalPages r = size (r_pageData r).
Proof.
  eexists. eexists. split; [vm_compute; reflexivity|].
  eapply (crawl_one_record_per_visited_url demoSite defaults "https://x.com/" 10).
  vm_compute. reflexivity.
Defined.

Lemma crawl_api_calls_belong_to_visited_pages_witness :
  exists c r,
    crawlWebsite demoSite 10 (new_WebsiteCrawler defaults) "https://x.com/" = Some (c, r) /\
    forall call, call ∈ r_apiCalls r ->
      isApiRequest (url call) (resourceType call) = true /\
      page call ∈ r_visitedUrls r /\
      (exists p, r_pageData r !! page call = Some p /\ page_depth p = depth call) /\
      notAbove (depth call) (maxDepth (new_WebsiteCrawler defaults)) /\
      (forall k : nat, maxDepth (new_WebsiteCrawler defaults) = Number_of_nat k ->
         depth call <= k).
Proof.
  eexists. eexists. split; [vm_compute; reflexivity|].
  eapply (crawl_api_calls_belong_to_visited_pages demoSite defaults "https://x.com/" 10).
  vm_compute. reflexivity.
Defined.

Lemma crawl_totalApiCalls_is_sum_of_page_counts_witness :
  exists c r,
    crawlWebsite demoSite 10 (new_WebsiteCrawler defaults) "https://x.com/" = Some (c, r) /\
    totalApiCalls r = 2 /\
    totalApiCalls r
    = sum_list_with (fun u => page_apiCalls (r_pageData r !! u)) (r_visitedUrls r).
Proof.
  eexists. eexists. split; [vm_compute; reflexivity|]. split; [reflexivity|].
  eapply (crawl_totalApiCalls_is_sum_of_page_counts demoSite defaults "https://x.com/" 10).
  vm_compute. reflexivity.
Defined.

Lemma crawl_visits_in_depth_order_witness :
  exists c r,
    crawlWebsite demoSite 10 (new_WebsiteCrawler defaults) "https://x.com/" = Some (c, r) /\
    map (depthOf (r_pageData r)) (r_visitedUrls r) = [0; 1; 1] /\
    nondecreasing (map (depthOf (r_pageData r)) (r_visitedUrls r)).
Proof.
  eexists. eexists. split; [vm_compute; reflexivity|]. split; [reflexivity|].
  eapply (crawl_visits_in_depth_order demoSite defaults "https://x.com/" 10).
  vm_compute. reflexivity.
Defined.

Lemma crawl_maxDepthReached_is_deepest_page_witness :
  exists c r,
    crawlWebsite demoSite 10 (new_WebsiteCrawler defaults) "https://x.com/" = Some (c, r) /\
    match maxDepthReached r with
    | None => r_visitedUrls r = []
    | Some d =>
        notAbove d (maxDepth (new_WebsiteCrawler defaults)) /\
        (forall k : nat, maxDepth (new_WebsiteCrawler defaults) = Number_of_nat k ->
           d <= k) /\
        (exists u p, u ∈ r_visitedUrls r /\ r_pageData r !! u = Some p /\
                     page_depth p = d) /\
        (forall u p, r_pageData r !! u = Some p -> page_depth p <= d)
    end.
Proof.
  eexists. eexists. split; [vm_compute; reflexivity|].
  eapply (crawl_maxDepthReached_is_deepest_page demoSite defaults "https://x.com/" 10).
  vm_compute. reflexivity.
Defined.

End CrawlInvariants.

(* ===================================================================== *)
(** * Classifier: the analyzer's filter *)
(* ===================================================================== *)

Module FilterFacts.
Import Classifier ClassifierSpec ClassifierFacts FilterTerms.
Local Open Scope list_scope.

Lemma prefixb_spec p : forall s,
  prefixb p s = true <-> exists post, s = p ++ post.
Proof.
  induction p as [|c p IH]; intros s; simpl.
  - split; [by exists s | done].
  - destruct s as [|a s].
    + split; [done | by intros [post ?]].
    + rewrite andb_true_iff, Ascii.eqb_eq, IH. split.
      * intros [-> [post ->]]. by exists post.
      * intros [post [= -> ->]]. split; [done | by exists post].
Qed.

Lemma includes_from_spec p s :
  includes_from p s = true <-> exists pre post, s = pre ++ p ++ post.
Proof.
  induction s as [|a s IH]; simpl.
  - rewrite orb_false_r, prefixb_spec. split.
    + intros [post E]. by exists [], post.
    + intros (pre & post & E). destruct pre; [by exists post|discriminate].
  - rewrite orb_true_iff, prefixb_spec, IH. split.
    + intros [[post E]|(pre & post & ->)].
      * by exists [], post.
      * by exists (a :: pre), post.
    + intros (pre & post & E). destruct pre as [|b pre].
      * left. by exists post.
      * right. injection E as -> ->. by exists pre, post.
Qed.

Lemma includes_spec url needle :
  includes url needle = true <-> containsExactly url needle.
Proof. unfold includes, containsExactly, chars. apply includes_from_spec. Qed.

Lemma analyzerFilter_iff url resourceType :
  analyzerFilter url resourceType = true <->
  resourceType = "XHR" \/ resourceType = "Fetch" \/
  containsExactly url "/api/" \/ containsExactly url "/graphql" \/
  containsExactly url "/rest/" \/ containsExactly url "/v1/" \/
  containsExactly url "/v2/".
Proof.
  unfold analyzerFilter.
  rewrite !orb_true_iff, !String.eqb_eq, !includes_spec. tauto.
Qed.

Lemma containsExactly_ignoring_case url needle :
  containsExactly url needle -> containsIgnoringCase url needle.
Proof. intros (pre & post & E). by exists pre, (chars needle), post. Qed.

Lemma containsExactly_version url (digit : ascii) :
  is_digit digit = true ->
  (exists pre post, chars url = pre ++ chars "/v" ++ [digit] ++ chars "/" ++ post) ->
  hasVersionSegment url.
Proof.
  intros Hd (pre & post & E).
  exists pre, (chars "/v"), [digit], (chars "/"), post.
  split; [exact E|]. split; [done|]. split; [done|]. split; [|done].
  simpl. by rewrite Hd.
Qed.

(** X9: whatever the analyzer's filter accepts for the shape of its URL
    (a resource type other than XHR and Fetch), the crawler's classifier
    accepts too, whatever resource type it is given. *)
Theorem analyzerFilter_url_rule_within_isApiRequest url resourceType resourceType' :
  analyzerFilter url resourceType = true ->
  resourceType <> "XHR" -> resourceType <> "Fetch" ->
  isApiRequest url resourceType' = true.
Proof.
  intros H Hx Hf. apply analyzerFilter_iff in H.
  apply isApiRequest_iff. right. right. unfold urlLooksLikeApi.
  destruct H as [?|[?|[H|[H|[H|[H|H]]]]]]; try done.
  - left. by apply containsExactly_ignoring_case.
  - right. left. by apply containsExactly_ignoring_case.
  - right. right. left. by apply containsExactly_ignoring_case.
  - right. right. right. left.
    apply (containsExactly_version url "1"); [reflexivity | exact H].
  - right. right. right. left.
    apply (containsExactly_version url "2"); [reflexivity | exact H].
Qed.

Lemma analyzerFilter_url_rule_within_isApiRequest_witness :
  isApiRequest "https://x.com/shop/v2/items" "document" = true.
Proof.
  apply (analyzerFilter_url_rule_within_isApiRequest _ "Script");
    [vm_compute; reflexivity | discriminate | discriminate].
Defined.

End FilterFacts.

(* ===================================================================== *)
(** * Timing: the logged method, and formatBytes *)
(* ===================================================================== *)

Module TimingMethodFacts.
Import Js Timing TimingSpec TimingFacts TimingTerms.
Local Open Scope Q_scope.

Lemma getTimingMethod_estimated call :
  getTimingMethod call = "estimated" ->
  truthy (endTime call) && truthy (startTime call) = false /\
  truthy (networkEndTime call) && truthy (networkRequestTime call) = false /\
  truthy (responseReceivedTime call) && truthy (requestTime call) = false /\
  truthy (finished call) && truthy (started call) = false /\
  timing call = None.
Proof.
  unfold getTimingMethod.
  destruct (truthy (endTime call) && truthy (startTime call)); [discriminate|].
  destruct (truthy (networkEndTime call) && truthy (networkRequestTime call));
    [discriminate|].
  destruct (truthy (responseReceivedTime call) && truthy (requestTime call));
    [discriminate|].
  destruct (truthy (finished call) && truthy (started call)); [discriminate|].
  destruct (timing call); [discriminate|]. done.
Qed.

Lemma fallbackChain_estimated_range call rnd :
  getTimingMethod call = "estimated" -> 0 <= rnd -> rnd < 1 ->
  (60 <= fallbackChain call rnd <= 650)%Z.
Proof.
  intros H H0 H1.
  destruct (getTimingMethod_estimated call H) as (E1 & E2 & E3 & E4 & E5).
  unfold fallbackChain. rewrite E1, E2, E3, E4, E5.
  set (sizeTime := Qmax 10 _).
  assert (Hs : 10 <= sizeTime <= 500) by apply sizeTime_range.
  apply Math_round_between; unfold inject_Z; lra.
Qed.

Lemma fallbackChain_measured call r1 r2 :
  getTimingMethod call <> "estimated" ->
  fallbackChain call r1 = fallbackChain call r2.
Proof.
  unfold getTimingMethod, fallbackChain.
  destruct (truthy (endTime call) && truthy (startTime call)); [done|].
  destruct (truthy (networkEndTime call) && truthy (networkRequestTime call)); [done|].
  destruct (truthy (responseReceivedTime call) && truthy (requestTime call)); [done|].
  destruct (truthy (finished call) && truthy (started call)); [done|].
  destruct (timing call); [done|]. intros H. by destruct H.
Qed.

(** X10: the method name logged for a call is "estimated" exactly for the
    size-based values: when it is "estimated" the duration is an estimate
    in [60, 650], and when it is anything else the value of the fallback
    chain does not depend on the random draw. *)
Theorem getTimingMethod_marks_the_estimates :
  (forall call rnd rnd',
      getTimingMethod call = "estimated" -> 0 <= rnd -> rnd < 1 ->
      (60 <= timeTaken call rnd rnd' <= 650)%Z) /\
  (forall call r1 r2,
      getTimingMethod call <> "estimated" ->
      fallbackChain call r1 = fallbackChain call r2).
Proof.
  split; [|exact fallbackChain_measured].
  intros call rnd rnd' H H0 H1.
  pose proof (fallbackChain_estimated_range call rnd H H0 H1) as Hr.
  unfold timeTaken, ensureMinimum.
  destruct (Z.leb_spec (fallbackChain call rnd) 0); lia.
Qed.

Lemma getTimingMethod_marks_the_estimates_witness :
  (60 <= timeTaken (onlyTransferSize "https://x.com/big" 100000) (1 # 2) (1 # 2) <= 650)%Z /\
  fallbackChain exampleCall 0 = fallbackChain exampleCall (1 # 2).
Proof.
  destruct getTimingMethod_marks_the_estimates as [H1 H2]. split.
  - apply H1; vm_compute; congruence.
  - apply H2. vm_compute. congruence.
Defined.

(** X11: a call that has a [timing] object without both of its fields,
    and no other pair of timestamps, is logged as "timing object" although
    its duration is the random substitute [round(20 + random * 80)]. *)
Theorem timing_object_label_on_a_substituted_value call t rnd rnd' :
  truthy (endTime call) && truthy (startTime call) = false ->
  truthy (networkEndTime call) && truthy (networkRequestTime call) = false ->
  truthy (responseReceivedTime call) && truthy (requestTime call) = false ->
  truthy (finished call) && truthy (started call) = false ->
  timing call = Some t ->
  truthy (receiveHeadersEnd t) && truthy (timing_requestTime t) = false ->
  0 <= rnd' -> rnd' < 1 ->
  getTimingMethod call = "timing object" /\
  timeTaken call rnd rnd' = Math_round (20 + rnd' * 80) /\
  (20 <= timeTaken call rnd rnd' <= 100)%Z.
Proof.
  intros E1 E2 E3 E4 E5 E6 H0 H1.
  split; [unfold getTimingMethod; by rewrite E1, E2, E3, E4, E5|].
  unfold timeTaken, fallbackChain. rewrite E1, E2, E3, E4, E5, E6.
  by apply ensureMinimum_range.
Qed.

Lemma timing_object_label_on_a_substituted_value_witness :
  getTimingMethod halfTimedCall = "timing object" /\
  timeTaken halfTimedCall (1 # 2) (1 # 2) = Math_round (20 + (1 # 2) * 80) /\
  (20 <= timeTaken halfTimedCall (1 # 2) (1 # 2) <= 100)%Z.
Proof.
  apply (timing_object_label_on_a_substituted_value halfTimedCall
           {| receiveHeadersEnd := Some 30; timing_requestTime := None |});
    try reflexivity; vm_compute; congruence.
Defined.

End TimingMethodFacts.

Module FormatBytesFacts.
Import Js.

(** [Z.log2 bytes / 10] is the floor of the logarithm of [bytes] in base
    1024. *)
Lemma log1024 bytes i :
  0 <= i -> 1024 ^ i <= bytes < 1024 ^ (i + 1) -> Z.log2 bytes / 10 = i.
Proof.
  intros Hi [Hlo Hhi].
  assert (H1024 : forall k, 0 <= k -> 1024 ^ k = 2 ^ (10 * k)).
  { intros k Hk. change 1024 with (2 ^ 10). rewrite <- Z.pow_mul_r; lia. }
  rewrite H1024 in Hlo, Hhi by lia.
  assert (Hpos : 0 < bytes).
  { pose proof (Z.pow_pos_nonneg 2 (10 * i)). lia. }
  apply Z.log2_le_pow2 in Hlo; [|done].
  apply Z.log2_lt_pow2 in Hhi; [|done].
  symmetry. apply Z.div_unique with (r := Z.log2 bytes - 10 * i); lia.
Qed.

Lemma formatBytes_in_range bytes i :
  0 <= i <= 3 -> 1024 ^ i <= bytes < 1024 ^ (i + 1) ->
  formatBytes bytes
  = Text (string_of_number
            (inject_Z (Qfloor (inject_Z bytes / inject_Z (1024 ^ i) * 10 + (1 # 2))%Q) / 10)%Q
          ++ nth (Z.to_nat i) ["B"; "KB"; "MB"; "GB"] EmptyString).
Proof.
  intros Hi Hrange.
  assert (Hpos : 0 < 1024 ^ i) by (apply Z.pow_pos_nonneg; lia).
  unfold formatBytes.
  assert ((bytes =? 0) = false) as -> by (apply Z.eqb_neq; lia).
  assert ((bytes <? 0) = false) as -> by (apply Z.ltb_ge; lia).
  cbv zeta. rewrite (log1024 bytes i) by (done || lia).
  assert (i = 0 \/ i = 1 \/ i = 2 \/ i = 3) as [->|[->|[->| ->]]] by lia;
    reflexivity.
Qed.

Lemma tenths_range bytes i :
  0 <= i -> 1024 ^ i <= bytes < 1024 ^ (i + 1) ->
  10 <= Qfloor (inject_Z bytes / inject_Z (1024 ^ i) * 10 + (1 # 2))%Q <= 10240.
Proof.
  intros Hi Hrange.
  assert (Hpos : 0 < 1024 ^ i) by (apply Z.pow_pos_nonneg; lia).
  assert (Hq : (inject_Z 1 <= inject_Z bytes / inject_Z (1024 ^ i))%Q /\
               (inject_Z bytes / inject_Z (1024 ^ i) <= inject_Z 1024)%Q).
  { assert (H0 : (0 < inject_Z (1024 ^ i))%Q)
      by (change 0%Q with (inject_Z 0); rewrite <- Zlt_Qlt; done).
    split.
    - apply Qle_shift_div_l; [done|]. rewrite <- inject_Z_mult, <- Zle_Qle. lia.
    - apply Qle_shift_div_r; [done|]. rewrite <- inject_Z_mult, <- Zle_Qle.
      rewrite Z.pow_add_r in Hrange by lia. lia. }
  destruct Hq as [Hq1 Hq2].
  set (x := (inject_Z bytes / inject_Z (1024 ^ i))%Q) in *.
  change (inject_Z 1) with 1%Q in Hq1. change (inject_Z 1024) with 1024%Q in Hq2.
  split.
  - change 10 with (Qfloor 10%Q) at 1. apply Qfloor_resp_le. lra.
  - change 10240 with (Qfloor (10240 + (1 # 2))%Q). apply Qfloor_resp_le. lra.
Qed.

(** X12: for a byte count in [1024^i, 1024^(i+1)) with i from 0 to 3,
    [formatBytes] prints the count divided by 1024^i and rounded to a
    tenth (a number from 1 to 1024) followed by the i-th of B, KB, MB, GB;
    from 1024^4 bytes on no unit is left, and the value is the number
    NaN (a number plus [undefined]), not a text. *)
Theorem formatBytes_unit :
  (forall bytes i,
      0 <= i <= 3 -> 1024 ^ i <= bytes < 1024 ^ (i + 1) ->
      let tenths := Qfloor (inject_Z bytes / inject_Z (1024 ^ i) * 10 + (1 # 2))%Q in
      formatBytes bytes
      = Text (string_of_number (inject_Z tenths / 10)%Q
              ++ nth (Z.to_nat i) ["B"; "KB"; "MB"; "GB"] EmptyString) /\
      10 <= tenths <= 10240) /\
  (forall bytes,
      1024 ^ 4 <= bytes ->
      formatBytes bytes = NumberNaN /\ template (formatBytes bytes) = "NaN").
Proof.
  split.
  - intros bytes i Hi Hrange tenths. split.
    + by apply formatBytes_in_range.
    + apply tenths_range; [lia | done].
  - intros bytes Hbytes.
    assert (formatBytes bytes = NumberNaN) as ->; [|done].
    unfold formatBytes.
    assert ((bytes =? 0) = false) as -> by (apply Z.eqb_neq; lia).
    assert ((bytes <? 0) = false) as -> by (apply Z.ltb_ge; lia).
    cbv zeta.
    assert (Hi : 4 <= Z.log2 bytes / 10).
    { apply Z.div_le_lower_bound; [lia|].
      apply Z.log2_le_pow2; [lia|]. change (2 ^ (10 * 4)) with (1024 ^ 4). done. }
    replace (Z.to_nat (Z.log2 bytes / 10))
      with (S (S (S (S (Z.to_nat (Z.log2 bytes / 10 - 4)))))) by lia.
    cbn [nth_error]. by destruct (Z.to_nat (Z.log2 bytes / 10 - 4)).
Qed.

Lemma formatBytes_unit_witness :
  (formatBytes 1536 = Text "1.5KB" /\
   formatBytes 1536
   = Text (string_of_number
             (inject_Z (Qfloor (inject_Z 1536 / inject_Z (1024 ^ 1) * 10 + (1 # 2))%Q) / 10)%Q
           ++ nth (Z.to_nat 1) ["B"; "KB"; "MB"; "GB"] EmptyString) /\
   10 <= Qfloor (inject_Z 1536 / inject_Z (1024 ^ 1) * 10 + (1 # 2))%Q <= 10240) /\
  (formatBytes 1099511627776 = NumberNaN /\
   template (formatBytes 1099511627776) = "NaN").
Proof.
  destruct formatBytes_unit as [H1 H2]. split.
  - split; [reflexivity|].
    apply (H1 1536 1); [lia | split; vm_compute; congruence].
  - apply H2. vm_compute. congruence.
Defined.

End FormatBytesFacts.

(* ===================================================================== *)
(** * Alert engine: rules of the blocks *)
(* ===================================================================== *)

Module AlertRules.
Import Js Alerts AlertsSpec AlertsFacts AlertTerms.
Local Open Scope nat_scope.
Local Open Scope list_scope.

Lemma lighthouse_alerts lh apiResults :
  forMetric "Accessibility Score" (generatePerformanceAlerts (Some lh) apiResults)
  = checkAccessibility (accessibility lh).
Proof.
  unfold generatePerformanceAlerts. cbv zeta.
  destruct apiResults as [[[calls|]]|]; cbn [apiCalls];
    try destruct (0 <? length calls);
    other_blocks;
    rewrite (forMetric_same _ _ _ (checkAccessibility_block _));
    by rewrite ?app_nil_r.
Qed.

(** X13: a category score of [null] counts as 0: when Lighthouse gives no
    accessibility score, the engine raises the critical accessibility
    alert, with value 0/100 against the threshold 50/100. *)
Theorem null_score_raises_the_critical_alert lh apiResults :
  accessibility lh = ScoreNull ->
  exists alert,
    forMetric "Accessibility Score" (generatePerformanceAlerts (Some lh) apiResults)
    = [alert] /\
    type alert = Critical /\ value alert = "0/100" /\ threshold alert = "50/100".
Proof.
  intros Hnull. rewrite lighthouse_alerts, Hnull.
  eexists. split; [reflexivity|]. repeat split.
Qed.

Lemma null_score_raises_the_critical_alert_witness :
  exists alert,
    forMetric "Accessibility Score"
      (generatePerformanceAlerts (Some noAccessibilityScore) None) = [alert] /\
    type alert = Critical /\ value alert = "0/100" /\ threshold alert = "50/100".
Proof.
  apply (null_score_raises_the_critical_alert noAccessibilityScore None).
  reflexivity.
Defined.

Lemma block_length c m block : pushesAtMostOne c m block -> length block <= 1.
Proof. intros [-> | (alert & -> & _)]; simpl; lia. Qed.

(** X14: one run raises at most 11 alerts: at most 8 from the Lighthouse
    results and at most 3 from the API results; without Lighthouse
    results, and with an empty or missing call list, nothing comes from
    that side. *)
Theorem generatePerformanceAlerts_count lighthouseResults apiResults :
  length (generatePerformanceAlerts lighthouseResults apiResults) <= 11 /\
  length (generatePerformanceAlerts lighthouseResults None) <= 8 /\
  length (generatePerformanceAlerts lighthouseResults
            (Some {| apiCalls := Some [] |})) <= 8 /\
  length (generatePerformanceAlerts None apiResults) <= 3.
Proof.
  assert (Hlh : forall lh,
    length (checkFCP (lh_details lh)) + length (checkLCP (lh_details lh))
    + length (checkCLS (lh_details lh)) + length (checkTTI (lh_details lh))
    + length (checkTBT (lh_details lh)) + length (checkSI (lh_details lh))
    + length (checkPerformance (performance lh))
    + length (checkAccessibility (accessibility lh)) <= 8).
  { intros lh.
    pose proof (block_length _ _ _ (checkFCP_block (lh_details lh))).
    pose proof (block_length _ _ _ (checkLCP_block (lh_details lh))).
    pose proof (block_length _ _ _ (checkCLS_block (lh_details lh))).
    pose proof (block_length _ _ _ (checkTTI_block (lh_details lh))).
    pose proof (block_length _ _ _ (checkTBT_block (lh_details lh))).
    pose proof (block_length _ _ _ (checkSI_block (lh_details lh))).
    pose proof (block_length _ _ _ (checkPerformance_block (performance lh))).
    pose proof (block_length _ _ _ (checkAccessibility_block (accessibility lh))).
    lia. }
  assert (Hapi : forall calls,
    length (checkSlowApiCalls calls) + length (checkErrorRate calls)
    + length (checkPayloads calls) <= 3).
  { intros calls.
    pose proof (block_length _ _ _ (checkSlowApiCalls_block calls)).
    pose proof (block_length _ _ _ (checkErrorRate_block calls)).
    pose proof (block_length _ _ _ (checkPayloads_block calls)).
    lia. }
  assert (Hno : forall lh : option LighthouseResults,
    length (generatePerformanceAlerts lh None) <= 8).
  { intros [lh|]; unfold generatePerformanceAlerts; cbv zeta.
    - rewrite ?length_app. change (length (@nil Alert)) with 0.
      specialize (Hlh lh). lia.
    - simpl. lia. }
  split; [|split; [apply Hno | split; [apply Hno|]]].
  - unfold generatePerformanceAlerts. cbv zeta.
    destruct lighthouseResults as [lh|];
      destruct apiResults as [[[calls|]]|];
      cbn [apiCalls];
      try destruct (0 <? length calls);
      rewrite ?length_app;
      change (length (@nil Alert)) with 0;
      try specialize (Hlh lh); try specialize (Hapi calls);
      lia.
  - unfold generatePerformanceAlerts. cbv zeta.
    destruct apiResults as [[[calls|]]|];
      cbn [apiCalls];
      try destruct (0 <? length calls);
      rewrite ?length_app;
      change (length (@nil Alert)) with 0;
      try specialize (Hapi calls);
      lia.
Qed.

(** X15: the severity of the error-rate alert goes by the counts: with [e]
    of [n] calls answered by a status of 400 or more, the alert is
    critical when [e] is at least a tenth of [n], a warning when it is at
    least a twentieth, and there is none below that or without such a
    call. *)
Theorem error_rate_alert_goes_by_the_counts lighthouseResults calls :
  calls <> [] ->
  let e := length (errorCalls calls) in
  let n := length calls in
  map type
    (forMetric "API Error Rate"
       (generatePerformanceAlerts lighthouseResults
          (Some {| apiCalls := Some calls |})))
  = if e =? 0 then []
    else if n <=? 10 * e then [Critical]
    else if n <=? 20 * e then [Warning]
    else [].
Proof.
  intros Hne e n.
  destruct (api_alerts lighthouseResults calls Hne) as (_ & -> & _).
  by apply checkErrorRate_policy.
Qed.

Lemma error_rate_alert_goes_by_the_counts_witness :
  map type
    (forMetric "API Error Rate"
       (generatePerformanceAlerts (Some slowPaints)
          (Some {| apiCalls := Some (callsWithErrors 2 40) |})))
  = [Warning].
Proof.
  apply (error_rate_alert_goes_by_the_counts (Some slowPaints) (callsWithErrors 2 40)).
  discriminate.
Defined.

End AlertRules.

(* ===================================================================== *)
(** * Analyzer: order, average, and the alerts raised *)
(* ===================================================================== *)

Module AnalyzerFacts.
Import Js Analyzer AnalyzerTerms TimingFacts.
Import Alerts(generatePerformanceAlerts, checkSlowApiCalls, checkErrorRate, checkPayloads).
Import AlertsSpec AlertsFacts AlertRules.
Local Open Scope list_scope.

Lemma insertByTime_perm a l : insertByTime a l ≡ₚ a :: l.
Proof.
  induction l as [|b l IH]; simpl; [done|].
  destruct (timeTaken b <=? timeTaken a); [done|].
  rewrite IH. apply Permutation_swap.
Qed.

Lemma sortByTimeTaken_perm l : sortByTimeTaken l ≡ₚ l.
Proof.
  induction l as [|a l IH]; simpl; [done|].
  by rewrite insertByTime_perm, IH.
Qed.

Lemma insertByTime_nonincreasing a l :
  nonincreasing (map timeTaken l) ->
  nonincreasing (map timeTaken (insertByTime a l)).
Proof.
  induction l as [|b l IH]; simpl; [done|].
  intros [Hb Hl].
  destruct (Z.leb_spec (timeTaken b) (timeTaken a)); simpl.
  - split; [|done]. constructor; [done|].
    eapply Forall_impl; [exact Hb|]. simpl. intros; lia.
  - split; [|by apply IH].
    rewrite List.Forall_map in Hb |- *.
    rewrite insertByTime_perm. constructor; [lia | exact Hb].
Qed.

Lemma sortByTimeTaken_nonincreasing l :
  nonincreasing (map timeTaken (sortByTimeTaken l)).
Proof.
  induction l as [|a l IH]; simpl; [done|].
  by apply insertByTime_nonincreasing.
Qed.

Lemma took_insert_other t a l :
  timeTaken a <> t -> took t (insertByTime a l) = took t l.
Proof.
  intros Hne. unfold took.
  induction l as [|b l IH]; cbn [insertByTime List.filter].
  - by destruct (Z.eqb_spec (timeTaken a) t).
  - destruct (timeTaken b <=? timeTaken a); cbn [List.filter].
    + by destruct (Z.eqb_spec (timeTaken a) t).
    + by rewrite IH.
Qed.

Lemma took_insert_same a l :
  nonincreasing (map timeTaken l) ->
  took (timeTaken a) (insertByTime a l) = a :: took (timeTaken a) l.
Proof.
  unfold took.
  induction l as [|b l IH]; cbn [insertByTime List.filter map nonincreasing];
    intros Hs.
  - by rewrite Z.eqb_refl.
  - destruct Hs as [Hb Hl].
    destruct (Z.leb_spec (timeTaken b) (timeTaken a)); cbn [List.filter].
    + by rewrite Z.eqb_refl.
    + destruct (Z.eqb_spec (timeTaken b) (timeTaken a)); [lia|].
      by apply IH.
Qed.

Lemma took_sortByTimeTaken t l : took t (sortByTimeTaken l) = took t l.
Proof.
  induction l as [|a l IH]; [done|].
  change (sortByTimeTaken (a :: l)) with (insertByTime a (sortByTimeTaken l)).
  destruct (Z.eqb_spec (timeTaken a) t) as [<-|Hne].
  - rewrite took_insert_same by apply sortByTimeTaken_nonincreasing.
    rewrite IH. unfold took. cbn [List.filter]. by rewrite Z.eqb_refl.
  - rewrite took_insert_other, IH by done. unfold took. cbn [List.filter].
    by destruct (Z.eqb_spec (timeTaken a) t).
Qed.

Lemma filter_none {A} (f : A -> bool) (l : list A) :
  Forall (fun x => f x = false) l -> List.filter f l = [].
Proof. induction 1 as [|x l Hx _ IH]; simpl; [done|]. by rewrite Hx. Qed.

Lemma slow_is_a_prefix l :
  nonincreasing (map timeTaken l) ->
  List.filter isSlow l = take (length (List.filter isSlow l)) l.
Proof.
  induction l as [|a l IH]; simpl; [done|]. intros [Ha Hl].
  destruct (isSlow a) eqn:E; simpl.
  - f_equal. by apply IH.
  - assert (List.filter isSlow l = []) as ->; [|done].
    apply filter_none.
    rewrite List.Forall_map in Ha. eapply Forall_impl; [exact Ha|].
    intros b Hb. unfold isSlow in *. simpl in Hb.
    apply Z.ltb_ge in E. apply Z.ltb_ge. lia.
Qed.

Lemma filter_length_perm {A} (f : A -> bool) (l l' : list A) :
  l ≡ₚ l' -> length (List.filter f l) = length (List.filter f l').
Proof.
  induction 1 as [|x l l' _ IH|x y l|l l' l'' _ IH _ IH']; simpl.
  - reflexivity.
  - destruct (f x); simpl; by rewrite IH.
  - destruct (f x), (f y); reflexivity.
  - by rewrite IH.
Qed.

Lemma slow_then_not_slow l :
  nonincreasing (map timeTaken l) ->
  Forall (fun call => 500 < timeTaken call)
         (take (length (List.filter isSlow l)) l) /\
  Forall (fun call => timeTaken call <= 500)
         (drop (length (List.filter isSlow l)) l).
Proof.
  induction l as [|a l IH]; simpl; [by split|]. intros [Ha Hl].
  destruct (isSlow a) eqn:E; simpl.
  - destruct (IH Hl) as [Htake Hdrop]. split; [|done].
    constructor; [|done]. unfold isSlow in E. by apply Z.ltb_lt in E.
  - assert (Hle : timeTaken a <= 500) by (unfold isSlow in E; by apply Z.ltb_ge in E).
    assert (Hall : Forall (fun call => timeTaken call <= 500) l).
    { rewrite List.Forall_map in Ha. eapply Forall_impl; [exact Ha|].
      simpl. intros b Hb. lia. }
    assert (List.filter isSlow l = []) as ->.
    { apply filter_none. eapply Forall_impl; [exact Hall|].
      simpl. intros b Hb. unfold isSlow. by apply Z.ltb_ge. }
    simpl. split; [constructor | by constructor].
Qed.

(** X16: the calls come back slowest first: the returned list is a
    rearrangement of the formatted calls in which [timeTaken] never goes
    up, calls that took equally long keep their order, and
    [slowestApis] describes the leading entries of that list, one per
    call that took more than 500 ms, with the endpoint, the method and
    the time of each: with [k] such calls, the first [k] entries of the
    list took more than 500 ms and the others did not. *)
Theorem analyzeFormatted_lists_slowest_first formattedApiCalls :
  let result := analyzeFormatted formattedApiCalls in
  let k :=
    length (List.filter (fun call => 500 <? timeTaken call) formattedApiCalls) in
  apiCalls result ≡ₚ formattedApiCalls /\
  nonincreasing (map timeTaken (apiCalls result)) /\
  (forall t, took t (apiCalls result) = took t formattedApiCalls) /\
  map slow_timeTaken (slowestApis (analysis result))
  = take (length (slowestApis (analysis result)))
         (map timeTaken (apiCalls result)) /\
  Forall (fun t => 500 < t) (map slow_timeTaken (slowestApis (analysis result))) /\
  totalApiCalls (analysis result) = length formattedApiCalls /\
  slowestApis (analysis result)
  = map (fun call => {| slow_endpoint := endpoint call;
                        slow_method := method call;
                        slow_timeTaken := timeTaken call |})
        (take k (apiCalls result)) /\
  Forall (fun call => 500 < timeTaken call) (take k (apiCalls result)) /\
  Forall (fun call => timeTaken call <= 500) (drop k (apiCalls result)).
Proof.
  intros result k. subst result. unfold analyzeFormatted. cbv zeta.
  cbn [apiCalls analysis analyzeApiCallsData slowestApis totalApiCalls].
  pose proof (sortByTimeTaken_nonincreasing formattedApiCalls) as Hs.
  assert (Hk : k = length (List.filter isSlow (sortByTimeTaken formattedApiCalls))).
  { subst k. change (fun call => 500 <? timeTaken call) with isSlow.
    apply filter_length_perm. symmetry. apply sortByTimeTaken_perm. }
  split; [apply sortByTimeTaken_perm|]. split; [exact Hs|].
  split; [intros t; apply took_sortByTimeTaken|].
  split; [|split; [|split; [|split; [|split]]]].
  - rewrite map_map. cbn [slow_timeTaken]. rewrite length_map.
    rewrite (slow_is_a_prefix _ Hs) at 1.
    by rewrite <- firstn_map.
  - rewrite map_map. cbn [slow_timeTaken].
    rewrite List.Forall_map. apply Forall_forall. intros c Hc.
    apply list_elem_of_In, filter_In in Hc as [_ Hc].
    unfold isSlow in Hc. simpl. lia.
  - by rewrite (Permutation_length (sortByTimeTaken_perm formattedApiCalls)).
  - rewrite Hk. by rewrite (slow_is_a_prefix _ Hs) at 1.
  - rewrite Hk. by apply slow_then_not_slow.
  - rewrite Hk. by apply slow_then_not_slow.
Qed.

Lemma threeCalls_slowest_first :
  slowestApis (analysis (analyzeFormatted threeCalls))
  = [ {| slow_endpoint := "/api/b"; slow_method := "GET"; slow_timeTaken := 900 |} ] /\
  map endpoint (apiCalls (analyzeFormatted threeCalls)) = ["/api/b"; "/api/a"; "/api/c"].
Proof. split; reflexivity. Qed.

Lemma timeTaken_total (apiCalls : list FormattedCall) : forall acc,
  fold_left (fun sum call => sum + timeTaken call) apiCalls acc
  = acc + fold_left (fun sum call => sum + timeTaken call) apiCalls 0.
Proof.
  induction apiCalls as [|c l IH]; intros acc; cbn [fold_left]; [lia|].
  rewrite (IH (acc + timeTaken c)), (IH (0 + timeTaken c)). lia.
Qed.

Lemma timeTaken_total_between lo hi (apiCalls : list FormattedCall) :
  Forall (fun call => lo <= timeTaken call <= hi) apiCalls ->
  lo * Z.of_nat (length apiCalls)
  <= fold_left (fun sum call => sum + timeTaken call) apiCalls 0
  <= hi * Z.of_nat (length apiCalls).
Proof.
  induction 1 as [|c l Hc Hl IH]; simpl length; [simpl; lia|].
  cbn [fold_left]. rewrite (timeTaken_total l (0 + timeTaken c)). lia.
Qed.

(** X17: [averageResponseTime] is 0 for an empty call list (the divisor is
    then 1, not 0) and otherwise lies between any two bounds that hold
    for the [timeTaken] of every call. *)
Theorem averageResponseTime_between lo hi apiCalls :
  Forall (fun call => lo <= timeTaken call <= hi) apiCalls ->
  match apiCalls with
  | [] => averageResponseTime (analyzeApiCallsData apiCalls) = 0
  | _ => lo <= averageResponseTime (analyzeApiCallsData apiCalls) <= hi
  end.
Proof.
  intros Hall. destruct apiCalls as [|c l]; [reflexivity|].
  unfold analyzeApiCallsData. cbv zeta. cbn [averageResponseTime].
  change (length (c :: l) =? 0)%nat with false. cbv iota.
  pose proof (timeTaken_total_between lo hi _ Hall) as [H1 H2].
  set (total := fold_left _ _ _) in *.
  set (n := Z.of_nat (length (c :: l))) in *.
  assert (Hn : 0 < n) by (subst n; simpl length; lia).
  assert (Hq : (0 < inject_Z n)%Q)
    by (change 0%Q with (inject_Z 0); by rewrite <- Zlt_Qlt).
  apply Math_round_between.
  - apply Qle_shift_div_l; [done|]. rewrite <- inject_Z_mult, <- Zle_Qle. lia.
  - apply Qle_shift_div_r; [done|]. rewrite <- inject_Z_mult, <- Zle_Qle. lia.
Qed.

Lemma averageResponseTime_between_witness :
  Forall (fun call => 120 <= timeTaken call <= 900) threeCalls /\
  120 <= averageResponseTime (analyzeApiCallsData threeCalls) <= 900.
Proof.
  assert (H : Forall (fun call => 120 <= timeTaken call <= 900) threeCalls)
    by (repeat constructor; vm_compute; congruence).
  split; [exact H|].
  exact (averageResponseTime_between 120 900 threeCalls H).
Defined.

(** ** From the analysis to the alerts *)

Lemma filter_empty_length {A} (f : A -> bool) (l : list A) x :
  (0 <? length (List.filter f l))%nat = false -> In x l -> f x = false.
Proof.
  intros H Hx. apply Nat.ltb_ge in H.
  destruct (f x) eqn:E; [|done].
  assert (Hin : In x (List.filter f l)) by (apply filter_In; done).
  destruct (List.filter f l); [done | simpl in H; lia].
Qed.

Lemma checkSlowApiCalls_fires calls call :
  In call calls -> 500 < Alerts.timeTaken call ->
  length (checkSlowApiCalls calls) = 1%nat.
Proof.
  intros Hin Hslow. unfold checkSlowApiCalls. cbv zeta.
  destruct (0 <? length (List.filter _ calls))%nat eqn:E1; [done|].
  destruct (0 <? length (List.filter _ calls))%nat eqn:E2 in |- *; [done|].
  exfalso.
  pose proof (filter_empty_length _ _ _ E1 Hin) as H1.
  pose proof (filter_empty_length _ _ _ E2 Hin) as H2.
  cbv beta in H1, H2. unfold Alerts.lt, Alerts.geq in H1, H2.
  rewrite H1 in H2. cbn [negb] in H2. rewrite andb_true_r in H2.
  apply not_true_iff_false in H2. apply H2.
  apply Qle_bool_iff.
  change (Alerts.warning Alerts.apiThresholds.responseTime) with (inject_Z 500).
  rewrite <- Zle_Qle. lia.
Qed.

Lemma checkPayloads_fires calls call :
  In call calls -> (1024 * 1024 < Alerts.sizeOf call)%Q ->
  length (checkPayloads calls) = 1%nat.
Proof.
  intros Hin Hbig. unfold checkPayloads. cbv zeta.
  destruct (0 <? length (List.filter _ calls))%nat eqn:E1; [done|].
  destruct (0 <? length (List.filter _ calls))%nat eqn:E2 in |- *; [done|].
  exfalso.
  pose proof (filter_empty_length _ _ _ E1 Hin) as H1.
  pose proof (filter_empty_length _ _ _ E2 Hin) as H2.
  cbv beta in H1, H2. unfold Alerts.lt, Alerts.geq in H1, H2.
  rewrite H1 in H2. cbn [negb] in H2. rewrite andb_true_r in H2.
  apply not_true_iff_false in H2. apply H2.
  apply Qle_bool_iff. apply Qlt_le_weak. exact Hbig.
Qed.

Lemma findings lighthouseResults (l : list FormattedCall) :
  let alerts :=
    generatePerformanceAlerts lighthouseResults
      (Some {| Alerts.apiCalls := Some (map asAlertCall l) |}) in
  (slowestApis (analyzeApiCallsData l) <> [] ->
   length (forMetric "Slow API Calls" alerts) = 1%nat) /\
  (highPayloadApis (analyzeApiCallsData l) <> [] ->
   length (forMetric "Large API Payloads" alerts) = 1%nat) /\
  (errorProneApis (analyzeApiCallsData l) = [] ->
   forMetric "API Error Rate" alerts = []).
Proof.
  intros alerts. subst alerts.
  cbn [analyzeApiCallsData slowestApis highPayloadApis errorProneApis].
  destruct l as [|c0 rest].
  { split; [done|]. split; [done|]. intros _.
    unfold generatePerformanceAlerts. cbv zeta. simpl.
    destruct lighthouseResults as [lh|]; [|reflexivity].
    other_blocks. reflexivity. }
  set (l := c0 :: rest).
  assert (Hne : map asAlertCall l <> []) by done.
  destruct (api_alerts lighthouseResults _ Hne) as (Hslow & Herr & Hpay).
  rewrite Hslow, Herr, Hpay. clear Hslow Herr Hpay Hne.
  split; [|split].
  - intros H.
    destruct (List.filter isSlow l) as [|c cs] eqn:E; [done|].
    assert (Hc : In c (List.filter isSlow l)) by (rewrite E; by left).
    apply filter_In in Hc as [Hc Hs]. unfold isSlow in Hs.
    apply (checkSlowApiCalls_fires _ (asAlertCall c)).
    + by apply in_map.
    + simpl. lia.
  - intros H.
    destruct (List.filter isHighPayload l) as [|c cs] eqn:E; [done|].
    assert (Hc : In c (List.filter isHighPayload l)) by (rewrite E; by left).
    apply filter_In in Hc as [Hc Hs]. unfold isHighPayload in Hs.
    apply (checkPayloads_fires _ (asAlertCall c)).
    + by apply in_map.
    + unfold Alerts.sizeOf. cbn [asAlertCall Alerts.rawData].
      apply Qnot_le_lt. intros Hle. apply Qle_bool_iff in Hle.
      cbv zeta in Hs. rewrite Hle in Hs. discriminate.
  - intros H. apply map_eq_nil in H.
    unfold checkErrorRate. cbv zeta.
    assert (List.filter (fun call => Alerts.statusAtLeast400 (Alerts.status call))
              (map asAlertCall l) = []) as ->; [|reflexivity].
    apply filter_none. rewrite List.Forall_map. apply Forall_forall.
    intros c Hc. apply list_elem_of_In in Hc.
    destruct (Alerts.statusAtLeast400 (Alerts.status (asAlertCall c))) eqn:E; [|done].
    assert (Hin : In c (List.filter isErrorProne l)) by (apply filter_In; done).
    rewrite H in Hin. done.
Qed.

(** X18: what the analysis lists, the alert engine reports: with a call
    in [slowestApis] there is exactly one Slow API Calls alert, with a
    call in [highPayloadApis] exactly one Large API Payloads alert, and
    without a call in [errorProneApis] there is no API Error Rate
    alert. *)
Theorem analysis_findings_raise_alerts lighthouseResults formattedApiCalls :
  let result := analyzeFormatted formattedApiCalls in
  let alerts :=
    generatePerformanceAlerts lighthouseResults (Some (asAlertInput result)) in
  (slowestApis (analysis result) <> [] ->
   length (forMetric "Slow API Calls" alerts) = 1%nat) /\
  (highPayloadApis (analysis result) <> [] ->
   length (forMetric "Large API Payloads" alerts) = 1%nat) /\
  (errorProneApis (analysis result) = [] ->
   forMetric "API Error Rate" alerts = []).
Proof.
  intros result alerts. subst result alerts.
  unfold analyzeFormatted, asAlertInput. cbv zeta. cbn [apiCalls analysis].
  apply findings.
Qed.

End AnalyzerFacts.

(* ===================================================================== *)
(** * Route: caps, score and summary *)
(* ===================================================================== *)

Module ServerFacts.
Import Js Crawler Correlator Server CrawlerSpec CrawlerFacts TimingFacts.
Import CrawlTerms CrawlInvariants ServerTerms.
Local Open Scope list_scope.

Lemma total_fold (apiCalls : list EnhancedCall) : forall acc,
  fold_left (fun sum call => sum + durationOrZero call) apiCalls acc
  = acc + fold_left (fun sum call => sum + durationOrZero call) apiCalls 0.
Proof.
  induction apiCalls as [|c l IH]; intros acc; cbn [fold_left]; [lia|].
  rewrite (IH (acc + durationOrZero c)), (IH (0 + durationOrZero c)). lia.
Qed.

Lemma total_between lo hi (apiCalls : list EnhancedCall) :
  Forall (fun call => lo <= durationOrZero call <= hi) apiCalls ->
  lo * Z.of_nat (length apiCalls)
  <= fold_left (fun sum call => sum + durationOrZero call) apiCalls 0
  <= hi * Z.of_nat (length apiCalls).
Proof.
  induction 1 as [|c l Hc Hl IH]; simpl length; [simpl; lia|].
  cbn [fold_left]. rewrite (total_fold l (0 + durationOrZero c)). lia.
Qed.

(** X19: the average response time of the summary is 0 for no calls,
    and otherwise lies between any two bounds that hold for
    [duration || 0] of every call. *)
Theorem calculateAverageResponseTime_between lo hi apiCalls :
  Forall (fun call => lo <= durationOrZero call <= hi) apiCalls ->
  match apiCalls with
  | [] => calculateAverageResponseTime apiCalls = 0
  | _ => lo <= calculateAverageResponseTime apiCalls <= hi
  end.
Proof.
  intros Hall. unfold calculateAverageResponseTime.
  destruct apiCalls as [|c l]; [reflexivity|].
  change (length (c :: l) =? 0)%nat with false. cbv iota.
  pose proof (total_between lo hi _ Hall) as [H1 H2].
  set (total := fold_left _ _ _) in *.
  set (n := Z.of_nat (length (c :: l))) in *.
  assert (Hn : 0 < n) by (subst n; simpl length; lia).
  assert (Hq : (0 < inject_Z n)%Q)
    by (change 0%Q with (inject_Z 0); by rewrite <- Zlt_Qlt).
  apply Math_round_between.
  - apply Qle_shift_div_l; [done|]. rewrite <- inject_Z_mult, <- Zle_Qle. lia.
  - apply Qle_shift_div_r; [done|]. rewrite <- inject_Z_mult, <- Zle_Qle. lia.
Qed.

Lemma calculateAverageResponseTime_between_witness :
  Forall (fun call => 300 <= durationOrZero call <= 1500) enhancedSample /\
  300 <= calculateAverageResponseTime enhancedSample <= 1500.
Proof.
  assert (H : Forall (fun call => 300 <= durationOrZero call <= 1500) enhancedSample)
    by (repeat constructor; vm_compute; congruence).
  split; [exact H|].
  exact (calculateAverageResponseTime_between 300 1500 enhancedSample H).
Defined.

Lemma size_list_to_set_le (l : list string) :
  (size (list_to_set l : gset string) <= length l)%nat.
Proof.
  induction l as [|x l IH]; [cbn [list_to_set foldr]; by rewrite size_empty|].
  cbn [list_to_set length]. rewrite size_union_alt, size_singleton.
  assert (Hsub : list_to_set l ∖ {[x]} ⊆ (list_to_set l : gset string)).
  { intros y Hy. apply elem_of_difference in Hy. tauto. }
  apply subseteq_size in Hsub. lia.
Qed.

(** X20: the overall score is an integer from 0 to 100, and never above
    what is left of 100 after 5 points per call slower than 1000 ms and 10
    points per call with a status of 400 or more; the Lighthouse average
    can only lower it. *)
Theorem calculateOverallScore_range crawlResults apiCalls lighthouseResults :
  let slow := Z.of_nat (length (List.filter isSlow apiCalls)) in
  let errors := Z.of_nat (length (List.filter isError apiCalls)) in
  0 <= calculateOverallScore crawlResults apiCalls lighthouseResults
    <= Z.max 0 (100 - 5 * slow - 10 * errors) /\
  calculateOverallScore crawlResults apiCalls lighthouseResults <= 100 /\
  calculateOverallScore crawlResults apiCalls []
  = Z.max 0 (100 - 5 * slow - 10 * errors).
Proof.
  intros slow errors. unfold calculateOverallScore. cbv zeta.
  fold slow errors.
  set (s := 100 - slow * 5 - errors * 10).
  assert (Hs : 100 - 5 * slow - 10 * errors = s) by (subst s; lia).
  rewrite Hs.
  assert (Hbound : forall x : Q, (x <= inject_Z s)%Q -> Math_round x <= s).
  { intros x Hx. rewrite <- (Math_round_Z s). by apply Math_round_mono. }
  assert (H : 0 <= Z.max 0
                (Math_round
                   (if (0 <? length lighthouseResults)%nat
                    then Qmin (inject_Z s)
                           (fold_left
                              (fun sum result =>
                                 (sum + num (or_else (entry_performance result) (Some 0)))%Q)
                              lighthouseResults 0%Q
                            / inject_Z (Z.of_nat (length lighthouseResults)) * 100)%Q
                    else inject_Z s))
              <= Z.max 0 s).
  { split; [lia|]. apply Z.max_le_compat_l.
    destruct (0 <? length lighthouseResults)%nat.
    - apply Hbound, Q.le_min_l.
    - apply Hbound, Qle_refl. }
  split; [exact H|]. split.
  - assert (0 <= slow /\ 0 <= errors) by (subst slow errors; lia). lia.
  - simpl. by rewrite Math_round_Z.
Qed.

(** The budget the crawler ends up with when the route caps an option. *)
Lemma route_budget_capped o (dflt cap ctor : Q) :
  (dflt <= cap)%Q -> (ctor <= cap)%Q ->
  cappedBy (or_default (asOption (Math_min (or_default o dflt) (Finite cap))) ctor) cap.
Proof.
  intros Hd Hc. destruct o as [|[q| | |]]; simpl.
  - unfold asOption. simpl. destruct (Qeq_bool (Qmin dflt cap) 0); simpl;
      [done | apply Q.le_min_r].
  - unfold asOption. simpl. destruct (Qeq_bool (Qmin q cap) 0); simpl;
      [done | apply Q.le_min_r].
  - done.
  - unfold asOption. simpl. destruct (Qeq_bool cap 0); simpl; [done | apply Qle_refl].
  - done.
Qed.

Lemma pagesWithin_capped n m (k : nat) :
  pagesWithin n m -> cappedBy m (inject_Z (Z.of_nat k)) -> (n <= k)%nat.
Proof.
  destruct m as [q| | |]; simpl; try done; [|lia].
  intros [->|Hlt] Hq; [lia|].
  assert (H : (inject_Z (Z.of_nat n) < inject_Z (Z.of_nat k + 1))%Q).
  { rewrite inject_Z_plus. change (inject_Z 1) with 1%Q. lra. }
  rewrite <- Zlt_Qlt in H. lia.
Qed.

Lemma notAbove_capped d m (k : nat) :
  notAbove d m -> cappedBy m (inject_Z (Z.of_nat k)) -> (d <= k)%nat.
Proof.
  destruct m as [q| | |]; simpl; try done.
  intros Hd Hq.
  assert (H : (inject_Z (Z.of_nat d) <= inject_Z (Z.of_nat k))%Q) by lra.
  rewrite <- Zle_Qle in H. lia.
Qed.

(** X21: a crawl started by the route never goes beyond 50 pages or depth
    5, whatever the request asks for: the result has at most 50 visited
    URLs, and no page record and no API call has a depth above 5. *)
Theorem route_crawl_is_capped browser options baseUrl fuel c r :
  crawlWebsite browser fuel (new_WebsiteCrawler (analysisOptions options)) baseUrl
  = Some (c, r) ->
  (totalPages r <= 50)%nat /\
  (forall u p, r_pageData r !! u = Some p -> (page_depth p <= 5)%nat) /\
  (forall call, call ∈ r_apiCalls r -> (depth call <= 5)%nat).
Proof.
  intros Hrun.
  destruct (crawlWebsite_invariant _ _ _ _ _ _ Hrun)
    as (-> & (q & Hinv) & (Hlen & _ & Hdepth) & Hpages & Hmax).
  assert (HP : cappedBy (maxPages c) (inject_Z (Z.of_nat 50))).
  { rewrite Hpages. apply route_budget_capped; done. }
  assert (HD : cappedBy (maxDepth c) (inject_Z (Z.of_nat 5))).
  { rewrite Hmax. apply route_budget_capped; done. }
  assert (Hrec : forall u p, pageData c !! u = Some p -> (page_depth p <= 5)%nat).
  { intros u p Hp.
    assert (Hv : u ∈ visitedUrls c) by (apply (inv_domain _ _ Hinv); eauto).
    destruct (Hdepth _ Hv) as (p' & Hp' & Hle). rewrite Hp in Hp'.
    inversion Hp'; subst. by eapply notAbove_capped. }
  split; [simpl; by eapply pagesWithin_capped|]. split; [exact Hrec|].
  intros call Hcall. pose proof (inv_calls _ _ Hinv) as Hcalls.
  rewrite Forall_forall in Hcalls.
  destruct (Hcalls call Hcall) as (_ & p & Hp & Hd).
  rewrite <- Hd. by eapply Hrec.
Qed.

Lemma route_crawl_is_capped_witness :
  exists c r,
    crawlWebsite demoSite 10 (new_WebsiteCrawler (analysisOptions greedy))
      "https://x.com/" = Some (c, r) /\
    (totalPages r <= 50)%nat /\
    (forall u p, r_pageData r !! u = Some p -> (page_depth p <= 5)%nat) /\
    (forall call, call ∈ r_apiCalls r -> (depth call <= 5)%nat).
Proof.
  eexists. eexists. split; [vm_compute; reflexivity|].
  eapply (route_crawl_is_capped demoSite greedy "https://x.com/" 10).
  vm_compute. reflexivity.
Defined.

(** X22: for the calls of a crawl, whatever the correlator added to them,
    the summary reports no more pages with slow APIs than pages analysed
    and than calls slower than 1000 ms, as many API calls as there are
    enhanced records, and at most two critical issues. *)
Theorem summary_is_consistent browser options baseUrl fuel c r
    enhancedApiCalls lighthouseResults :
  crawlWebsite browser fuel (new_WebsiteCrawler options) baseUrl = Some (c, r) ->
  map apiCall enhancedApiCalls = r_apiCalls r ->
  let s := summary r enhancedApiCalls lighthouseResults in
  (pagesWithSlowApis s <= totalPagesAnalyzed s)%nat /\
  (pagesWithSlowApis s <= length (List.filter isSlow enhancedApiCalls))%nat /\
  totalApiCallsFound s = length enhancedApiCalls /\
  (criticalIssuesFound s <= 2)%nat.
Proof.
  intros Hrun Hcalls s.
  destruct (crawlWebsite_invariant _ _ _ _ _ _ Hrun)
    as (-> & (q & Hinv) & (_ & Hnd & _) & _).
  pose proof (inv_calls _ _ Hinv) as Hpages. rewrite Forall_forall in Hpages.
  simpl in Hcalls. subst s. unfold summary. cbn [pagesWithSlowApis
    totalPagesAnalyzed totalApiCallsFound criticalIssuesFound
    generateCrawlResults totalPages totalApiCalls].
  split; [|split; [|split]].
  - unfold countPagesWithSlowApis.
    destruct (length enhancedApiCalls =? 0)%nat; [lia|]. cbv zeta.
    rewrite <- (size_list_to_set (C := gset string) _ Hnd).
    apply subseteq_size. intros u Hu.
    rewrite elem_of_list_to_set in Hu. rewrite elem_of_list_to_set.
    apply list_elem_of_In, in_map_iff in Hu as (e & <- & He).
    apply filter_In in He as [He _].
    assert (Hc : apiCall e ∈ apiCalls c).
    { rewrite <- Hcalls. apply list_elem_of_In, in_map. exact He. }
    destruct (Hpages _ Hc) as (_ & p & Hp & _).
    apply (inv_domain _ _ Hinv). eauto.
  - unfold countPagesWithSlowApis.
    destruct (length enhancedApiCalls =? 0)%nat; [lia|]. cbv zeta.
    etransitivity; [apply size_list_to_set_le|]. by rewrite length_map.
  - by rewrite <- Hcalls, length_map.
  - unfold generateWebsiteAnalysis.
    destruct (0 <? length (List.filter isSlow enhancedApiCalls))%nat;
      destruct (0 <? length (List.filter isHighImpact enhancedApiCalls))%nat;
      simpl; lia.
Qed.

Lemma summary_is_consistent_witness :
  exists c r,
    crawlWebsite demoSite 10 (new_WebsiteCrawler defaults) "https://x.com/"
    = Some (c, r) /\
    let s := summary r (map plain (r_apiCalls r)) [] in
    (pagesWithSlowApis s <= totalPagesAnalyzed s)%nat /\
    (pagesWithSlowApis s <= length (List.filter isSlow (map plain (r_apiCalls r))))%nat /\
    totalApiCallsFound s = length (map plain (r_apiCalls r)) /\
    (criticalIssuesFound s <= 2)%nat.
Proof.
  eexists. eexists. split; [vm_compute; reflexivity|].
  eapply (summary_is_consistent demoSite defaults "https://x.com/" 10).
  - vm_compute. reflexivity.
  - vm_compute. reflexivity.
Defined.

(** X23: a call counts as high-impact exactly when its measurement
    succeeded and the render time grew by more than 100 ms between the
    two snapshots; a call whose measurement failed, and a call without
    [frontendImpact], never does. *)
Theorem isHighImpact_needs_a_measured_render_delay call :
  (forall beforeMetrics afterMetrics,
      isHighImpact {| apiCall := call;
                      frontendImpact :=
                        Correlator.frontendImpact beforeMetrics afterMetrics |} = true
      <-> (100 < renderTime afterMetrics - renderTime beforeMetrics)%Q) /\
  (forall message,
      isHighImpact {| apiCall := call; frontendImpact := errorImpact message |}
      = false) /\
  isHighImpact {| apiCall := call; frontendImpact := JUndefined |} = false.
Proof.
  split; [|split; [|reflexivity]].
  - intros b a. unfold isHighImpact. cbn -[calculateRenderingImpact Qminus].
    unfold calculateRenderingImpact. cbv zeta.
    destruct (Qle_bool (renderTime a - renderTime b) 100) eqn:E1; cbn [negb].
    + apply Qle_bool_iff in E1.
      destruct (negb (Qle_bool (renderTime a - renderTime b) 50)); simpl;
        split; try discriminate; intros H; exfalso; lra.
    + simpl. split; [|done]. intros _.
      apply Qnot_le_lt. intros H. apply Qle_bool_iff in H. congruence.
  - intros message. reflexivity.
Qed.

End ServerFacts.

(* ===================================================================== *)
(** * Query tracking: what the logs count *)
(* ===================================================================== *)

Module QueryLogFacts.
Import QueryLog QueryLogTerms.
Local Open Scope list_scope.

Lemma Map_get_set k k' v m :
  Map_get k (Map_set k' v m) = if String.eqb k' k then Some v else Map_get k m.
Proof.
  induction m as [|[k0 v0] m IH]; simpl.
  - done.
  - destruct (String.eqb_spec k0 k') as [->|Hne]; simpl.
    + by destruct (String.eqb k' k).
    + rewrite IH. destruct (String.eqb_spec k0 k) as [->|]; [|done].
      by destruct (String.eqb_spec k' k) as [->|].
Qed.

Lemma keys_set k v m :
  map fst (Map_set k v m)
  = if Map_has k m then map fst m else map fst m ++ [k].
Proof.
  unfold Map_has. induction m as [|[k0 v0] m IH]; simpl; [done|].
  destruct (String.eqb_spec k0 k) as [->|Hne]; simpl; [done|].
  rewrite IH. by destruct (Map_get k m).
Qed.

Lemma Map_get_None k m : Map_get k m = None <-> k ∉ map fst m.
Proof.
  induction m as [|[k0 v0] m IH]; simpl.
  - split; [intros _ H; by apply elem_of_nil in H | done].
  - rewrite not_elem_of_cons. destruct (String.eqb_spec k0 k) as [->|Hne].
    + split; [done | intros [H _]; done].
    + rewrite IH. split; [intros H; split; [congruence | done] | tauto].
Qed.

Lemma Map_get_elem k log m :
  NoDup (map fst m) -> (k, log) ∈ m -> Map_get k m = Some log.
Proof.
  induction m as [|[k0 v0] m IH]; simpl; intros Hnd Hin.
  - by apply elem_of_nil in Hin.
  - apply NoDup_cons in Hnd as [Hk0 Hnd].
    apply elem_of_cons in Hin as [Hin|Hin].
    + inversion Hin; subst. by rewrite String.eqb_refl.
    + destruct (String.eqb_spec k0 k) as [->|]; [|by apply IH].
      exfalso. apply Hk0. apply list_elem_of_fmap. by exists (k, log).
Qed.

Section WithTrim.
Variable trim : string -> string.

(** One call, seen from one key. *)
Lemma executeQuery_get k queryLogs q outcome :
  Map_get k (executeQuery trim queryLogs q outcome)
  = match outcome with
    | Resolved d =>
        if String.eqb (trim q) k then
          Some (record d
                  (default {| query := k; calls := 0; total_time := 0; avg_time := 0 |}
                           (Map_get k queryLogs)))
        else Map_get k queryLogs
    | Rejected _ => Map_get k queryLogs
    end.
Proof.
  destruct outcome as [d|m]; [|done]. unfold executeQuery. cbv zeta.
  unfold Map_has.
  destruct (Map_get (trim q) queryLogs) as [log|] eqn:E; cbn [negb].
  - rewrite E, Map_get_set.
    destruct (String.eqb_spec (trim q) k) as [<-|]; [|done]. by rewrite E.
  - rewrite Map_get_set, String.eqb_refl, Map_get_set.
    destruct (String.eqb_spec (trim q) k) as [<-|]; [by rewrite E|].
    rewrite Map_get_set. by destruct (String.eqb_spec (trim q) k).
Qed.

Lemma executeQuery_keys queryLogs q outcome :
  map fst (executeQuery trim queryLogs q outcome)
  = match outcome with
    | Resolved _ =>
        if Map_has (trim q) queryLogs then map fst queryLogs
        else map fst queryLogs ++ [trim q]
    | Rejected _ => map fst queryLogs
    end.
Proof.
  destruct outcome as [d|m]; [|done]. unfold executeQuery. cbv zeta.
  destruct (Map_has (trim q) queryLogs) eqn:E; cbn [negb].
  - unfold Map_has in E. destruct (Map_get (trim q) queryLogs) eqn:E'; [|done].
    rewrite keys_set. unfold Map_has. by rewrite E'.
  - rewrite Map_get_set, String.eqb_refl, !keys_set.
    unfold Map_has at 1. rewrite Map_get_set, String.eqb_refl. by rewrite E.
Qed.

Lemma summarises_record k ds d entry :
  summarises k ds entry ->
  summarises k (ds ++ [d])
    (Some (record d
             (default {| query := k; calls := 0; total_time := 0; avg_time := 0 |}
                      entry))).
Proof.
  assert (Hsum : forall l, (sumQ (l ++ [d]) == sumQ l + d)%Q).
  { induction l as [|x l IH]; simpl; [lra|]. rewrite IH. lra. }
  destruct entry as [log|]; simpl.
  - intros (Hq & Hc & Hpos & Ht & _). rewrite length_app. simpl.
    split; [done|]. split; [lia|]. split; [lia|]. split; [|reflexivity].
    rewrite Hsum, Ht. reflexivity.
  - intros ->. simpl. split; [done|]. split; [done|]. split; [done|].
    split; [lra | reflexivity].
Qed.

Lemma durationsOf_snoc k executions q outcome :
  durationsOf trim k (executions ++ [(q, outcome)])
  = durationsOf trim k executions
    ++ match outcome with
       | Resolved d => if String.eqb (trim q) k then [d] else []
       | Rejected _ => []
       end.
Proof.
  induction executions as [|[q0 [d0|m0]] l IH]; simpl.
  - destruct outcome as [d|m]; [|done]. by destruct (String.eqb (trim q) k).
  - destruct (String.eqb (trim q0) k); simpl; by rewrite IH.
  - exact IH.
Qed.

Lemma executeQueries_snoc executions e queryLogs :
  executeQueries trim (executions ++ [e]) queryLogs
  = executeQuery trim (executeQueries trim executions queryLogs) e.1 e.2.
Proof. unfold executeQueries. by rewrite fold_left_app. Qed.

Lemma executeQueries_summarises executions k :
  summarises k (durationsOf trim k executions)
    (Map_get k (executeQueries trim executions [])).
Proof.
  induction executions as [|[q outcome] l IH] using rev_ind; [done|].
  rewrite executeQueries_snoc, durationsOf_snoc, executeQuery_get. cbn [fst snd].
  destruct outcome as [d|m]; [|by rewrite app_nil_r].
  destruct (String.eqb (trim q) k); [|by rewrite app_nil_r].
  by apply summarises_record.
Qed.

(** X24: after any sequence of calls of executeQuery on empty logs, the
    entry of a key counts the calls that resolved with that trimmed
    query text: [calls] is their number (at least 1), [total_time] the
    sum of their durations, [avg_time] is [total_time / calls]; a key
    without a resolved call has no entry, and rejected calls count
    nowhere. *)
Theorem executeQuery_counts_resolved_calls executions k :
  match Map_get k (executeQueries trim executions []) with
  | Some log =>
      query log = k /\
      calls log = Z.of_nat (length (durationsOf trim k executions)) /\
      (1 <= calls log)%Z /\
      (total_time log == sumQ (durationsOf trim k executions))%Q /\
      (avg_time log == total_time log / inject_Z (calls log))%Q
  | None => durationsOf trim k executions = []
  end.
Proof.
  pose proof (executeQueries_summarises executions k) as H.
  unfold summarises in H.
  destruct (Map_get k (executeQueries trim executions [])) as [log|]; [|done].
  destruct H as (H1 & H2 & H3 & H4 & H5). repeat split; try done. lia.
Qed.

Lemma executeQuery_NoDup queryLogs q outcome :
  NoDup (map fst queryLogs) ->
  NoDup (map fst (executeQuery trim queryLogs q outcome)).
Proof.
  intros Hnd. rewrite executeQuery_keys. destruct outcome as [d|m]; [|done].
  destruct (Map_has (trim q) queryLogs) eqn:E; [done|].
  apply NoDup_app. split; [done|]. split; [|apply NoDup_singleton].
  intros x Hx Hx'. apply list_elem_of_singleton in Hx' as ->.
  unfold Map_has in E.
  destruct (Map_get (trim q) queryLogs) eqn:E'; [done|].
  by apply Map_get_None in E'.
Qed.

Lemma executeQueries_NoDup executions :
  NoDup (map fst (executeQueries trim executions [])).
Proof.
  induction executions as [|e l IH] using rev_ind; [constructor|].
  rewrite executeQueries_snoc. by apply executeQuery_NoDup.
Qed.

Lemma executeQueries_keyed executions :
  map query (getQueryLogs (executeQueries trim executions []))
  = map fst (executeQueries trim executions []).
Proof.
  unfold getQueryLogs. rewrite map_map. apply map_ext_in.
  intros [k log] Hin. apply list_elem_of_In in Hin.
  pose proof (Map_get_elem _ _ _ (executeQueries_NoDup executions) Hin) as Hget.
  pose proof (executeQueries_summarises executions k) as Hs.
  rewrite Hget in Hs. apply Hs.
Qed.

(** X25: [getQueryLogs] returns one entry per trimmed query text that
    resolved at least once: no two entries have the same [query], and a
    text is the [query] of an entry exactly when a call with that trimmed
    text resolved. *)
Theorem getQueryLogs_one_entry_per_query executions :
  let logs := getQueryLogs (executeQueries trim executions []) in
  NoDup (map query logs) /\
  (forall k, k ∈ map query logs <-> durationsOf trim k executions <> []).
Proof.
  cbv zeta. rewrite executeQueries_keyed. split; [apply executeQueries_NoDup|].
  intros k.
  pose proof (executeQueries_summarises executions k) as Hs.
  destruct (Map_get k (executeQueries trim executions [])) as [log|] eqn:E.
  - simpl in Hs. destruct Hs as (_ & Hc & Hpos & _). split.
    + intros _ Hnil. rewrite Hnil in Hc. simpl in Hc. lia.
    + intros _. destruct (decide (k ∈ map fst (executeQueries trim executions [])))
        as [|Hn]; [done|].
      apply Map_get_None in Hn. congruence.
  - simpl in Hs. apply Map_get_None in E. split; [done|]. intros H. done.
Qed.

End WithTrim.

Lemma sample_query_logs :
  map (fun log => (query log, calls log))
      (getQueryLogs (executeQueries trimOne sampleExecutions []))
  = [ ("SELECT 1", 2); ("SELECT 3", 1) ].
Proof. reflexivity. Qed.

End QueryLogFacts.
